(** * init_db.py: the SQLite provisioning script, embedded and verified

    The development follows [src/database/init_db.py] top to bottom.

    - [PyStr]: the [str] methods the script calls ([strip], [lower],
      [split], [join], [startswith], [endswith]).  Characters are 8-bit
      code points, i.e. the range U+0000..U+00FF of a Python [str].
    - [PosixPath]: [os.path.join], [os.path.normpath], [os.path.abspath]
      as [posixpath] defines them, and the lexical resolution of a path
      into its list of directory entries.
    - [Sqlite]: the tables the script declares, the statements it sends and
      what SQLite does with them (IF NOT EXISTS, REPLACE conflict
      resolution, AUTOINCREMENT row ids, the AFTER UPDATE trigger).
    - [Script]: the script itself, in a state-and-exception monad over the
      process and the machine it runs on. *)

From Stdlib Require Import ZArith Ascii String List Lia Bool DecimalString.
From stdpp Require Import base option list strings gmap.

Local Open Scope Z_scope.
Local Open Scope string_scope.

(* ===================================================================== *)
(** ** Python strings *)
(* ===================================================================== *)

Module PyStr.

(** [ord c] *)
Definition ord (c : ascii) : N := N_of_ascii c.

(** [c.isspace()] for a code point below 256: TAB, LF, VT, FF, CR,
    the separators FS, GS, RS, US, SPACE, NEL and NBSP. *)
Definition isspace (c : ascii) : bool :=
  let n := ord c in
  (((9 <=? n) && (n <=? 13)) || ((28 <=? n) && (n <=? 32))
   || (n =? 133) || (n =? 160))%N.

(** [c.lower()] for a code point below 256: A-Z and the upper-case
    letters of Latin-1 (U+00C0..U+00DE except the multiplication sign)
    move up by 32. *)
Definition lower_char (c : ascii) : ascii :=
  let n := ord c in
  if (((65 <=? n) && (n <=? 90))
      || ((192 <=? n) && (n <=? 222) && negb (n =? 215)))%N
  then ascii_of_N (n + 32) else c.

Fixpoint lower (s : string) : string :=
  match s with
  | EmptyString => EmptyString
  | String c r => String (lower_char c) (lower r)
  end.

Fixpoint lstrip (s : string) : string :=
  match s with
  | EmptyString => EmptyString
  | String c r => if isspace c then lstrip r else s
  end.

Fixpoint rstrip (s : string) : string :=
  match s with
  | EmptyString => EmptyString
  | String c r =>
      match rstrip r with
      | EmptyString => if isspace c then EmptyString else String c EmptyString
      | r' => String c r'
      end
  end.

(** [s.strip()]: leading and trailing whitespace removed. *)
Definition strip (s : string) : string := rstrip (lstrip s).

Definition startswith (p s : string) : bool := String.prefix p s.

Fixpoint endswith_char (c : ascii) (s : string) : bool :=
  match s with
  | EmptyString => false
  | String d EmptyString => Ascii.eqb c d
  | String _ r => endswith_char c r
  end.

(** [s.split(sep)] for a one-character separator; never the empty list. *)
Fixpoint split (sep : ascii) (s : string) : list string :=
  match s with
  | EmptyString => [EmptyString]
  | String c r =>
      if Ascii.eqb c sep then EmptyString :: split sep r
      else match split sep r with
           | h :: t => String c h :: t
           | [] => [String c EmptyString]
           end
  end.

(** [sep.join(l)] *)
Fixpoint join (sep : string) (l : list string) : string :=
  match l with
  | [] => EmptyString
  | [x] => x
  | x :: r => x +:+ sep +:+ join sep r
  end.

(** [sub in s] *)
Definition contains (s sub : string) : Prop :=
  exists a b, s = a +:+ sub +:+ b.

Definition all_space (s : string) : Prop :=
  Forall (fun c => isspace c = true) (list_ascii_of_string s).

(** [str(n)] for an integer. *)
Definition str_of_Z (n : Z) : string := NilEmpty.string_of_int (Z.to_int n).

Definition dquote : string := String "034"%char EmptyString.
Definition nl : string := String "010"%char EmptyString.

End PyStr.

(* ===================================================================== *)
(** ** The seed toggle (line 108) *)
(* ===================================================================== *)

Module Toggle.
Import PyStr.

Definition truthy : list string := ["1"; "true"; "yes"; "y"].

(** [x in (..)] on strings. *)
Definition str_in (x : string) (l : list string) : bool :=
  existsb (String.eqb x) l.

(** [os.getenv("SEED_TODOS", default).strip().lower() in ("1", "true", "yes", "y")]
    with the empty string as default; the argument is the variable's
    value, [None] when unset. *)
Definition seed_flag (SEED_TODOS : option string) : bool :=
  str_in (lower (strip (default EmptyString SEED_TODOS))) truthy.

(** Case-insensitive comparison as the specification words it: two
    strings are the same up to the case of their letters. *)
Fixpoint eq_nocase (a b : string) : bool :=
  match a, b with
  | EmptyString, EmptyString => true
  | String x a', String y b' =>
      Ascii.eqb (lower_char x) (lower_char y) && eq_nocase a' b'
  | _, _ => false
  end.

(** "its value, compared case-insensitively, is one of 1, true, yes, y" *)
Definition is_truthy_word (v : string) : bool :=
  existsb (eq_nocase v) truthy.

End Toggle.

(* ===================================================================== *)
(** ** posixpath *)
(* ===================================================================== *)

Module PosixPath.
Import PyStr.

Definition sep : ascii := "/"%char.

Definition isabs (p : string) : bool := startswith "/" p.

(** [os.path.join(a, b)] *)
Definition join (a b : string) : string :=
  if startswith "/" b then b
  else if String.eqb a EmptyString || endswith_char sep a then a +:+ b
  else a +:+ "/" +:+ b.

(** One round of the loop of [normpath] over the components. *)
Definition norm_step (initial_slashes : nat) (new_comps : list string)
    (comp : string) : list string :=
  if String.eqb comp EmptyString || String.eqb comp "." then new_comps
  else if negb (String.eqb comp "..")
          || (Nat.eqb initial_slashes 0 && bool_decide (new_comps = []))
          || bool_decide (last new_comps = Some "..")
       then new_comps ++ [comp]
       else removelast new_comps.

Definition initial_slashes (path : string) : nat :=
  if startswith "/" path then
    if startswith "//" path && negb (startswith "///" path) then 2%nat
    else 1%nat
  else 0%nat.

Fixpoint slashes (n : nat) : string :=
  match n with O => EmptyString | S k => "/" +:+ slashes k end.

(** [os.path.normpath(path)] *)
Definition normpath (path : string) : string :=
  if String.eqb path EmptyString then "."
  else
    let n := initial_slashes path in
    let comps := fold_left (norm_step n) (split sep path) [] in
    let path' := slashes n +:+ PyStr.join "/" comps in
    if String.eqb path' EmptyString then "." else path'.

(** [os.path.abspath(path)] in a process whose working directory is
    [cwd]. *)
Definition abspath (cwd path : string) : string :=
  normpath (if isabs path then path else join cwd path).

(** Path resolution as the kernel does it on a tree without symbolic
    links: walk the components from the root; empty components and [.]
    stay in place, [..] goes to the parent (the root is its own
    parent). *)
Fixpoint walk (dir : list string) (comps : list string) : list string :=
  match comps with
  | [] => dir
  | c :: cs =>
      if String.eqb c EmptyString || String.eqb c "." then walk dir cs
      else if String.eqb c ".." then walk (removelast dir) cs
      else walk (dir ++ [c]) cs
  end.

(** The directory entries an absolute path names, from the root. *)
Definition resolve (p : string) : option (list string) :=
  if isabs p then Some (walk [] (split sep p)) else None.

(** The entries a relative path names when looked up from the directory
    [cwd]. *)
Definition resolve_from (cwd p : string) : option (list string) :=
  if isabs p then resolve p
  else match resolve cwd with
       | Some d => Some (walk d (split sep p))
       | None => None
       end.

End PosixPath.

(* ===================================================================== *)
(** ** Exceptions *)
(* ===================================================================== *)

(** The outcome of a call that may raise; an exception is its message. *)
Inductive result (A : Type) : Type :=
| Ok (a : A)
| Raise (msg : string).
Arguments Ok {A} a.
Arguments Raise {A} msg.

(* ===================================================================== *)
(** ** SQLite: tables, statements, trigger *)
(* ===================================================================== *)

Module Sqlite.

(** Largest row id of a table, 2^63 - 1. *)
Definition MAX_ROWID : Z := 9223372036854775807.

(** Rows of the three tables, column by column (lines 49-76).  Times are
    readings of CURRENT_TIMESTAMP, in whole seconds. *)
Record app_info_row := {
  ai_id : Z;
  ai_key : string;
  ai_value : option string;
  ai_created_at : Z }.

Record users_row := {
  us_id : Z;
  us_username : string;
  us_email : string;
  us_created_at : Z }.

Record todos_row := {
  td_id : Z;
  td_title : string;
  td_description : option string;
  td_completed : Z;
  td_created_at : Z;
  td_updated_at : Z }.

(** A table with an AUTOINCREMENT key: its rows in row-id order and its
    entry in sqlite_sequence (0 when there is none). *)
Record table (R : Type) := { rows : list R; seq : Z }.
Arguments rows {R} t.
Arguments seq {R} t.

Definition empty_table {R : Type} : table R := {| rows := []; seq := 0 |}.

(** A database file holding (some of) the objects the script declares;
    [None] is a table that does not exist. *)
Record database := {
  app_info : option (table app_info_row);
  users : option (table users_row);
  todos : option (table todos_row);
  trg_todos_updated_at : bool }.

Definition empty_db : database :=
  {| app_info := None; users := None; todos := None;
     trg_todos_updated_at := false |}.

Definition set_app_info (t : option (table app_info_row)) (db : database) :=
  {| app_info := t; users := users db; todos := todos db;
     trg_todos_updated_at := trg_todos_updated_at db |}.
Definition set_users (t : option (table users_row)) (db : database) :=
  {| app_info := app_info db; users := t; todos := todos db;
     trg_todos_updated_at := trg_todos_updated_at db |}.
Definition set_todos (t : option (table todos_row)) (db : database) :=
  {| app_info := app_info db; users := users db; todos := t;
     trg_todos_updated_at := trg_todos_updated_at db |}.
Definition set_trigger (b : bool) (db : database) :=
  {| app_info := app_info db; users := users db; todos := todos db;
     trg_todos_updated_at := b |}.

(** The entries of sqlite_master. *)
Inductive schema_object :=
| TABLE_app_info | TABLE_users | TABLE_todos | TRIGGER_trg_todos_updated_at.

Definition schema (db : database) : list schema_object :=
  (if app_info db is Some _ then [TABLE_app_info] else [])
  ++ (if users db is Some _ then [TABLE_users] else [])
  ++ (if todos db is Some _ then [TABLE_todos] else [])
  ++ (if trg_todos_updated_at db then [TRIGGER_trg_todos_updated_at] else []).

Definition rows_of {R : Type} (t : option (table R)) : list R :=
  match t with Some t => rows t | None => [] end.

(** The statements the script sends, with their parameters. *)
Inductive sql :=
| SELECT_1
| PRAGMA_foreign_keys_ON
| CREATE_TABLE_IF_NOT_EXISTS_app_info
| CREATE_TABLE_IF_NOT_EXISTS_users
| CREATE_TABLE_IF_NOT_EXISTS_todos
| CREATE_TRIGGER_IF_NOT_EXISTS_trg_todos_updated_at
| INSERT_OR_REPLACE_INTO_app_info (key value : string)
| SELECT_COUNT_FROM_todos
| INSERT_INTO_todos (title description : string) (completed : Z)
| SELECT_COUNT_FROM_sqlite_master_tables
| SELECT_COUNT_FROM_app_info.

(** INSERT, UPDATE, DELETE and REPLACE: the statements before which the
    [sqlite3] module opens a transaction. *)
Definition is_dml (q : sql) : bool :=
  match q with
  | INSERT_OR_REPLACE_INTO_app_info _ _ | INSERT_INTO_todos _ _ _ => true
  | _ => false
  end.

Definition max_id (ids : list Z) : Z := fold_right Z.max 0 ids.

(** The row id an AUTOINCREMENT table gives a new row: one more than the
    largest id the table ever held; none is left after [MAX_ROWID]. *)
Definition new_rowid (seq : Z) (ids : list Z) : result Z :=
  let m := Z.max seq (max_id ids) in
  if (m <? MAX_ROWID)%Z then Ok (m + 1) else Raise "database or disk is full".

(** INSERT OR REPLACE INTO app_info (key, value) VALUES (?, ?): the rows
    that hold the key are deleted, the new row gets a fresh id and the
    default created_at. *)
Definition insert_or_replace_app_info (now : Z) (key value : string)
    (db : database) : result database :=
  match app_info db with
  | None => Raise "no such table: app_info"
  | Some t =>
      match new_rowid (seq t) (map ai_id (rows t)) with
      | Raise m => Raise m
      | Ok i =>
          let kept :=
            List.filter (fun r => negb (String.eqb (ai_key r) key)) (rows t) in
          let r := {| ai_id := i; ai_key := key; ai_value := Some value;
                      ai_created_at := now |} in
          Ok (set_app_info (Some {| rows := kept ++ [r]; seq := i |}) db)
      end
  end.

(** INSERT INTO todos (title, description, completed) VALUES (?, ?, ?) *)
Definition insert_todos (now : Z) (title description : string)
    (completed : Z) (db : database) : result database :=
  match todos db with
  | None => Raise "no such table: todos"
  | Some t =>
      match new_rowid (seq t) (map td_id (rows t)) with
      | Raise m => Raise m
      | Ok i =>
          let r := {| td_id := i; td_title := title;
                      td_description := Some description;
                      td_completed := completed;
                      td_created_at := now; td_updated_at := now |} in
          Ok (set_todos (Some {| rows := rows t ++ [r]; seq := i |}) db)
      end
  end.

Definition count_tables (db : database) : Z :=
  Z.of_nat (length (List.filter (fun o =>
    match o with TRIGGER_trg_todos_updated_at => false | _ => true end)
    (schema db))).

(** One statement against the database as the connection sees it, at the
    clock reading [now]: the database afterwards and the value of the
    first column of the first result row, if there is one. *)
Definition exec (now : Z) (q : sql) (db : database)
    : result (database * option Z) :=
  match q with
  | SELECT_1 => Ok (db, Some 1)
  | PRAGMA_foreign_keys_ON => Ok (db, None)
  | CREATE_TABLE_IF_NOT_EXISTS_app_info =>
      Ok (match app_info db with
          | Some _ => db
          | None => set_app_info (Some empty_table) db
          end, None)
  | CREATE_TABLE_IF_NOT_EXISTS_users =>
      Ok (match users db with
          | Some _ => db
          | None => set_users (Some empty_table) db
          end, None)
  | CREATE_TABLE_IF_NOT_EXISTS_todos =>
      Ok (match todos db with
          | Some _ => db
          | None => set_todos (Some empty_table) db
          end, None)
  | CREATE_TRIGGER_IF_NOT_EXISTS_trg_todos_updated_at =>
      if trg_todos_updated_at db then Ok (db, None)
      else match todos db with
           | Some _ => Ok (set_trigger true db, None)
           | None => Raise "no such table: main.todos"
           end
  | INSERT_OR_REPLACE_INTO_app_info key value =>
      match insert_or_replace_app_info now key value db with
      | Ok db' => Ok (db', None)
      | Raise m => Raise m
      end
  | SELECT_COUNT_FROM_todos =>
      match todos db with
      | Some t => Ok (db, Some (Z.of_nat (length (rows t))))
      | None => Raise "no such table: todos"
      end
  | INSERT_INTO_todos title description completed =>
      match insert_todos now title description completed db with
      | Ok db' => Ok (db', None)
      | Raise m => Raise m
      end
  | SELECT_COUNT_FROM_sqlite_master_tables => Ok (db, Some (count_tables db))
  | SELECT_COUNT_FROM_app_info =>
      match app_info db with
      | Some t => Ok (db, Some (Z.of_nat (length (rows t))))
      | None => Raise "no such table: app_info"
      end
  end.

(** *** Updates by the application, and the trigger

    An UPDATE of todos: a WHERE predicate and the SET clause as a
    function of the old row.  Assignments to the primary key are left
    out: the row keeps its id. *)
Record update := {
  upd_where : todos_row -> bool;
  upd_set : todos_row -> todos_row }.

Definition keep_id (old new : todos_row) : todos_row :=
  {| td_id := td_id old; td_title := td_title new;
     td_description := td_description new;
     td_completed := td_completed new;
     td_created_at := td_created_at new;
     td_updated_at := td_updated_at new |}.

Definition touch (now : Z) (r : todos_row) : todos_row :=
  {| td_id := td_id r; td_title := td_title r;
     td_description := td_description r; td_completed := td_completed r;
     td_created_at := td_created_at r; td_updated_at := now |}.

(** The body of trg_todos_updated_at (line 85):
    UPDATE todos SET updated_at = CURRENT_TIMESTAMP WHERE id = NEW.id.
    Triggers are not recursive (the default), so this inner update fires
    nothing. *)
Definition trigger_body (now : Z) (new_id : Z) (l : list todos_row) :=
  map (fun r => if (td_id r =? new_id)%Z then touch now r else r) l.

(** The update of the row with id [i], followed, FOR EACH ROW, by the
    trigger when the database has it. *)
Definition update_row (trg : bool) (now : Z) (u : update) (i : Z)
    (l : list todos_row) : list todos_row :=
  let l' := map (fun r => if (td_id r =? i)%Z then keep_id r (upd_set u r)
                          else r) l in
  if trg then trigger_body now i l' else l'.

(** UPDATE todos SET .. WHERE ..: the ids of the matching rows are
    collected first, then the rows are updated one by one. *)
Definition exec_update (now : Z) (u : update) (db : database)
    : result database :=
  match todos db with
  | None => Raise "no such table: todos"
  | Some t =>
      let ids := map td_id (List.filter (upd_where u) (rows t)) in
      let l := fold_left (fun l i =>
                 update_row (trg_todos_updated_at db) now u i l)
                 ids (rows t) in
      Ok (set_todos (Some {| rows := l; seq := seq t |}) db)
  end.

End Sqlite.

(* ===================================================================== *)
(** ** The script *)
(* ===================================================================== *)

Module Script.
Import PyStr Sqlite.

Definition DB_NAME : string := "myapp.db".

(** The calls of the script that can raise, in program order. *)
Inductive site :=
| at_probe_connect | at_probe_select | at_probe_close
| at_connect | at_pragma
| at_create_app_info | at_create_users | at_create_todos | at_create_trigger
| at_upsert_project_name | at_upsert_version | at_upsert_author
| at_upsert_description
| at_seed_count | at_seed_insert (i : nat)
| at_commit | at_stat_tables | at_stat_app_info | at_stat_todos | at_close
| at_getcwd | at_write_db_connection | at_abspath | at_makedirs
| at_write_sqlite_env | at_which.

(** What the script reads from its surroundings: the variable
    SEED_TODOS, the working directory, the exception (if any) a call
    meets for reasons outside the script (a locked or damaged file, a
    full disk, a read-only directory), the reading of
    CURRENT_TIMESTAMP at each statement, and the exit status of
    [which sqlite3]. *)
Record environ := {
  SEED_TODOS : option string;
  cwd : string;
  fault : site -> option string;
  clock : site -> Z;
  which_returncode : Z }.

(** What outlives the process: the committed content of myapp.db ([None]
    when the file is absent), the text files written and the directories
    made, by path relative to the working directory. *)
Record machine := {
  m_disk : option database;
  m_files : gmap string string;
  m_dirs : gset string }.

(** A connection of the [sqlite3] module: open or closed, the
    foreign-key flag, and the database as the open transaction sees it
    ([None] outside a transaction). *)
Record connection := {
  is_open : bool;
  foreign_keys : bool;
  txn : option database }.

Inductive event :=
| Connect (c : nat)
| Execute (c : nat) (q : sql)
| Commit (c : nat)
| Close (c : nat).

(** The machine and the running process: its connections by handle, what
    it printed, and the calls it made on connections. *)
Record sys := {
  disk : option database;
  files : gmap string string;
  dirs : gset string;
  conns : list connection;
  stdout : list string;
  trace : list event }.

Definition boot (m : machine) : sys :=
  {| disk := m_disk m; files := m_files m; dirs := m_dirs m;
     conns := []; stdout := []; trace := [] |}.

Definition machine_of (s : sys) : machine :=
  {| m_disk := disk s; m_files := files s; m_dirs := dirs s |}.

Definition set_disk (d : option database) (s : sys) : sys :=
  {| disk := d; files := files s; dirs := dirs s; conns := conns s;
     stdout := stdout s; trace := trace s |}.
Definition set_files (f : gmap string string) (s : sys) : sys :=
  {| disk := disk s; files := f; dirs := dirs s; conns := conns s;
     stdout := stdout s; trace := trace s |}.
Definition set_dirs (d : gset string) (s : sys) : sys :=
  {| disk := disk s; files := files s; dirs := d; conns := conns s;
     stdout := stdout s; trace := trace s |}.
Definition set_conns (l : list connection) (s : sys) : sys :=
  {| disk := disk s; files := files s; dirs := dirs s; conns := l;
     stdout := stdout s; trace := trace s |}.
Definition emit (line : string) (s : sys) : sys :=
  {| disk := disk s; files := files s; dirs := dirs s; conns := conns s;
     stdout := stdout s ++ [line]; trace := trace s |}.
Definition log (ev : event) (s : sys) : sys :=
  {| disk := disk s; files := files s; dirs := dirs s; conns := conns s;
     stdout := stdout s; trace := trace s ++ [ev] |}.

(** *** State and exceptions *)

Definition M (A : Type) : Type := sys -> result A * sys.

Definition ret {A : Type} (a : A) : M A := fun s => (Ok a, s).

Definition bind {A B : Type} (m : M A) (f : A -> M B) : M B :=
  fun s => match m s with
           | (Ok a, s') => f a s'
           | (Raise x, s') => (Raise x, s')
           end.

#[export] Instance M_ret : MRet M := @ret.
#[export] Instance M_bind : MBind M := fun A B f m => bind m f.

Definition raise {A : Type} (msg : string) : M A := fun s => (Raise msg, s).

(** A step given by what it does to the state. *)
Definition act {A : Type} (f : sys -> result A * sys) : M A := f.

(** [try: body  except Exception as e: handler(e)] *)
Definition try_except (body : M unit) (handler : string -> M unit)
    : M unit :=
  fun s => match body s with
           | (Ok _, s') => (Ok tt, s')
           | (Raise x, s') => handler x s'
           end.

(** [for x in l: body(i, x)], [i] counting the rounds from [i0]. *)
Fixpoint for_each {A : Type} (l : list A) (i0 : nat)
    (body : nat -> A -> M unit) : M unit :=
  match l with
  | [] => mret tt
  | x :: r => body i0 x;; for_each r (S i0) body
  end.

Definition print (line : string) : M unit := fun s => (Ok tt, emit line s).

Section Calls.
Context (e : environ).

(** Raises what the environment holds for this call. *)
Definition may_fail (st : site) : M unit :=
  match fault e st with
  | Some msg => raise msg
  | None => mret tt
  end.

(** [os.path.exists(DB_NAME)] *)
Definition db_file_exists : M bool :=
  fun s => (Ok (if disk s is Some _ then true else false), s).

(** [os.path.exists(d)] for a directory *)
Definition dir_exists (d : string) : M bool :=
  fun s => (Ok (bool_decide (d ∈ dirs s)), s).

(** [sqlite3.connect(DB_NAME)]: the file is created when absent; the
    new connection has foreign keys off and no open transaction. *)
Definition sqlite3_connect (st : site) : M nat :=
  may_fail st;;
  act (fun s =>
    let c := length (conns s) in
    let k := {| is_open := true; foreign_keys := false; txn := None |} in
    (Ok c, log (Connect c)
             (set_conns (conns s ++ [k])
                (set_disk (Some (default empty_db (disk s))) s)))).

Definition view (s : sys) (k : connection) : database :=
  match txn k with
  | Some d => d
  | None => default empty_db (disk s)
  end.

(** The connection after a statement: the pragma (outside a
    transaction) sets the flag. *)
Definition after_stmt (q : sql) (k : connection) (t : option database)
    : connection :=
  {| is_open := is_open k;
     foreign_keys :=
       match q, txn k with
       | PRAGMA_foreign_keys_ON, None => true
       | _, _ => foreign_keys k
       end;
     txn := t |}.

(** [cursor.execute(q)] / [conn.execute(q)] on connection [c].  The
    module opens a transaction before INSERT and REPLACE and leaves it
    open; any other statement outside a transaction is committed at
    once. *)
Definition execute (st : site) (c : nat) (q : sql) : M (option Z) :=
  act (fun s => (Ok tt, log (Execute c q) s));;
  may_fail st;;
  act (fun s =>
    match conns s !! c with
    | None => (Raise "not a connection", s)
    | Some k =>
        if negb (is_open k)
        then (Raise "Cannot operate on a closed database.", s)
        else
          match Sqlite.exec (clock e st) q (view s k) with
          | Raise m => (Raise m, s)
          | Ok (d, r) =>
              if is_dml q || (if txn k is Some _ then true else false)
              then (Ok r, set_conns
                            (<[c := after_stmt q k (Some d)]> (conns s)) s)
              else (Ok r, set_disk (Some d)
                            (set_conns
                               (<[c := after_stmt q k None]> (conns s)) s))
          end
    end).

(** [cursor.fetchone()[0]] *)
Definition fetchone_0 (r : option Z) : M Z :=
  match r with
  | Some z => mret z
  | None => raise "'NoneType' object is not subscriptable"
  end.

(** [conn.commit()] *)
Definition conn_commit (st : site) (c : nat) : M unit :=
  act (fun s => (Ok tt, log (Commit c) s));;
  may_fail st;;
  act (fun s =>
    match conns s !! c with
    | None => (Raise "not a connection", s)
    | Some k =>
        if negb (is_open k)
        then (Raise "Cannot operate on a closed database.", s)
        else
          match txn k with
          | Some d =>
              (Ok tt, set_disk (Some d)
                        (set_conns
                           (<[c := {| is_open := true;
                                      foreign_keys := foreign_keys k;
                                      txn := None |}]> (conns s)) s))
          | None => (Ok tt, s)
          end
    end).

(** [conn.close()]: what was not committed is lost. *)
Definition conn_close (st : site) (c : nat) : M unit :=
  act (fun s => (Ok tt, log (Close c) s));;
  may_fail st;;
  act (fun s =>
    match conns s !! c with
    | None => (Raise "not a connection", s)
    | Some k =>
        (Ok tt, set_conns
                  (<[c := {| is_open := false;
                             foreign_keys := foreign_keys k;
                             txn := None |}]> (conns s)) s)
    end).

(** [os.getcwd()] *)
Definition os_getcwd : M string :=
  may_fail at_getcwd;; mret (cwd e).

(** [os.path.abspath(path)] *)
Definition os_path_abspath (path : string) : M string :=
  may_fail at_abspath;; mret (PosixPath.abspath (cwd e) path).

(** [os.makedirs(d, exist_ok=True)] *)
Definition os_makedirs (d : string) : M unit :=
  may_fail at_makedirs;;
  act (fun s => (Ok tt, set_dirs ({[d]} ∪ dirs s) s)).

(** [with open(path, "w") as f: f.write(..) ...]: all or nothing. *)
Definition write_file (st : site) (path : string) (writes : list string)
    : M unit :=
  may_fail st;;
  act (fun s =>
    (Ok tt, set_files (<[path := String.concat EmptyString writes]>
                         (files s)) s)).

(** [subprocess.run(['which', 'sqlite3'], ..).returncode] *)
Definition which_sqlite3 : M Z :=
  may_fail at_which;; mret (which_returncode e).

(** *** Lines 25-36: the file and the probe *)
Definition probe : M unit :=
  db_exists ← db_file_exists;
  if (db_exists : bool) then
    (print ("SQLite database already exists at " +:+ DB_NAME);;
     try_except
       (conn ← sqlite3_connect at_probe_connect;
        execute at_probe_select conn SELECT_1;;
        conn_close at_probe_close conn;;
        print "Database is accessible and working.")
       (fun msg =>
          print ("Warning: Database exists but may be corrupted: "
                 +:+ msg)))
  else
    print "Creating new SQLite database...".

(** *** Lines 47-87: schema *)
Definition create_schema (conn : nat) : M unit :=
  execute at_create_app_info conn CREATE_TABLE_IF_NOT_EXISTS_app_info;;
  execute at_create_users conn CREATE_TABLE_IF_NOT_EXISTS_users;;
  execute at_create_todos conn CREATE_TABLE_IF_NOT_EXISTS_todos;;
  execute at_create_trigger conn
    CREATE_TRIGGER_IF_NOT_EXISTS_trg_todos_updated_at;;
  mret tt.

(** *** Lines 89-105: app_info *)
Definition upsert_app_info (conn : nat) : M unit :=
  execute at_upsert_project_name conn
    (INSERT_OR_REPLACE_INTO_app_info "project_name" "database");;
  execute at_upsert_version conn
    (INSERT_OR_REPLACE_INTO_app_info "version" "0.1.0");;
  execute at_upsert_author conn
    (INSERT_OR_REPLACE_INTO_app_info "author" "John Doe");;
  execute at_upsert_description conn
    (INSERT_OR_REPLACE_INTO_app_info "description" EmptyString);;
  mret tt.

Definition sample_todos : list (string * string * Z) :=
  [ ("Buy groceries", "Milk, eggs, bread", 0);
    ("Finish project", "Complete the todo app backend", 0);
    ("Read a book", "Spend 30 minutes reading", 0) ].

Definition seed_flag : bool := Toggle.seed_flag (SEED_TODOS e).

(** *** Lines 107-128: seeding *)
Definition seed_todos (conn : nat) : M unit :=
  if seed_flag then
    (r ← execute at_seed_count conn SELECT_COUNT_FROM_todos;
     existing_count ← fetchone_0 r;
     if (existing_count =? 0)%Z then
       (for_each sample_todos 0%nat
          (fun i '(title, description, completed) =>
             execute (at_seed_insert i) conn
               (INSERT_INTO_todos title description completed);;
             mret tt);;
        print "Seeded sample todos (SEED_TODOS enabled).")
     else
       print "Skipping seeding todos: table already has data.")
  else
    print "SEED_TODOS not enabled. Skipping todo seed data.".

(** *** Lines 130-143: commit, statistics, close *)
Definition commit_and_count (conn : nat) : M (Z * Z * Z) :=
  conn_commit at_commit conn;;
  r ← execute at_stat_tables conn SELECT_COUNT_FROM_sqlite_master_tables;
  table_count ← fetchone_0 r;
  r ← execute at_stat_app_info conn SELECT_COUNT_FROM_app_info;
  record_count ← fetchone_0 r;
  r ← execute at_stat_todos conn SELECT_COUNT_FROM_todos;
  todos_count ← fetchone_0 r;
  conn_close at_close conn;;
  mret (table_count, record_count, todos_count).

(** *** Lines 40-143: everything on the main connection *)
Definition provision_db : M (Z * Z * Z) :=
  conn ← sqlite3_connect at_connect;
  execute at_pragma conn PRAGMA_foreign_keys_ON;;
  create_schema conn;;
  upsert_app_info conn;;
  seed_todos conn;;
  commit_and_count conn.

(** What is written to db_connection.txt (lines 152-159). *)
Definition db_connection_writes (connection_string db_abs_path : string)
    : list string :=
  [ "# SQLite connection methods:" +:+ nl;
    "# Python: sqlite3.connect('" +:+ DB_NAME +:+ "')" +:+ nl;
    "# Connection string: " +:+ connection_string +:+ nl;
    "# File path: " +:+ db_abs_path +:+ nl;
    "# Usage notes:" +:+ nl;
    "# - Always enable foreign keys after connecting: cursor.execute("
      +:+ dquote +:+ "PRAGMA foreign_keys = ON" +:+ dquote +:+ ")" +:+ nl;
    "# - updated_at on todos is maintained by trigger 'trg_todos_updated_at'"
      +:+ nl;
    "# - Example CLI query: sqlite3 myapp.db " +:+ dquote
      +:+ "SELECT * FROM todos;" +:+ dquote +:+ nl ].

(** What is written to db_visualizer/sqlite.env (line 174). *)
Definition sqlite_env_writes (db_path : string) : list string :=
  [ "export SQLITE_DB=" +:+ dquote +:+ db_path +:+ dquote +:+ nl ].

(** *** Lines 145-177: the two files *)
Definition write_artifacts : M (string * string) :=
  current_dir ← os_getcwd;
  let db_abs_path := current_dir +:+ "/" +:+ DB_NAME in
  let connection_string := "sqlite:///" +:+ db_abs_path in
  try_except
    (write_file at_write_db_connection "db_connection.txt"
       (db_connection_writes connection_string db_abs_path);;
     print "Connection information saved to db_connection.txt")
    (fun msg => print ("Warning: Could not save connection info: " +:+ msg));;
  db_path ← os_path_abspath DB_NAME;
  there ← dir_exists "db_visualizer";
  (if negb there then
     (os_makedirs "db_visualizer";;
      print "Created db_visualizer directory")
   else mret tt);;
  try_except
    (write_file at_write_sqlite_env "db_visualizer/sqlite.env"
       (sqlite_env_writes db_path);;
     print "Environment variables saved to db_visualizer/sqlite.env")
    (fun msg =>
       print ("Warning: Could not save environment variables: " +:+ msg));;
  mret (db_abs_path, connection_string).

(** *** Lines 179-207: the report *)
Definition report (db_abs_path connection_string : string)
    (counts : Z * Z * Z) : M unit :=
  let '(table_count, record_count, todos_count) := counts in
  print (nl +:+ "SQLite setup complete!");;
  print ("Database: " +:+ DB_NAME);;
  print ("Location: " +:+ db_abs_path);;
  print EmptyString;;
  print "To use with Node.js viewer, run: source db_visualizer/sqlite.env";;
  print (nl +:+ "To connect to the database, use one of the following methods:");;
  print ("1. Python: sqlite3.connect('" +:+ DB_NAME
         +:+ "')  # Remember to enable PRAGMA foreign_keys");;
  print ("2. Connection string: " +:+ connection_string);;
  print ("3. Direct file access: " +:+ db_abs_path);;
  print EmptyString;;
  print "Database statistics:";;
  print ("  Tables: " +:+ str_of_Z table_count);;
  print ("  App info records: " +:+ str_of_Z record_count);;
  print ("  Todos records: " +:+ str_of_Z todos_count);;
  try_except
    (returncode ← which_sqlite3;
     if (returncode =? 0)%Z then
       (print EmptyString;;
        print "SQLite CLI is available. You can also use:";;
        print ("  sqlite3 " +:+ DB_NAME))
     else mret tt)
    (fun _ => mret tt);;
  print (nl +:+ "Script completed successfully.").

(** *** The whole script *)
Definition main : M unit :=
  print "Starting SQLite setup...";;
  probe;;
  counts ← provision_db;
  '(db_abs_path, connection_string) ← write_artifacts;
  report db_abs_path connection_string counts.

End Calls.

(** One run of the script as a process on a machine. *)
Record outcome := {
  exit : result unit;
  after : machine;
  printed : list string;
  calls : list event }.

Definition run (e : environ) (m : machine) : outcome :=
  let '(r, s) := main e (boot m) in
  {| exit := r; after := machine_of s; printed := stdout s;
     calls := trace s |}.

(** A machine on which the script never ran. *)
Definition fresh : machine :=
  {| m_disk := None; m_files := ∅; m_dirs := ∅ |}.

(** A quiet environment: nothing fails, [clock] always reads [now]. *)
Definition quiet (seed : option string) (dir : string) (now : Z)
    : environ :=
  {| SEED_TODOS := seed; cwd := dir; fault := fun _ => None;
     clock := fun _ => now; which_returncode := 1 |}.

End Script.

(* ===================================================================== *)
(** ** Specification vocabulary *)
(* ===================================================================== *)

Module Logic.
Import PyStr Sqlite Script.

(** No character of [s] is whitespace. *)
Fixpoint no_space (s : string) : bool :=
  match s with
  | EmptyString => true
  | String c r => negb (isspace c) && no_space r
  end.

(** No character of [s] is the path separator. *)
Fixpoint no_sep (s : string) : bool :=
  match s with
  | EmptyString => true
  | String c r => negb (Ascii.eqb c PosixPath.sep) && no_sep r
  end.

(** A name a directory entry can have. *)
Definition entry_name (c : string) : Prop :=
  c <> EmptyString /\ c <> "." /\ c <> ".." /\ no_sep c = true.

(** [triple P m Q E]: from a state in [P], [m] ends in [Q] when it
    returns and in [E] when it raises. *)
Definition triple {A : Type} (P : sys -> Prop) (m : M A)
    (Q : A -> sys -> Prop) (E : string -> sys -> Prop) : Prop :=
  forall s, P s ->
    match m s with
    | (Ok a, s') => Q a s'
    | (Raise x, s') => E x s'
    end.

(** [m] keeps [P], however it ends. *)
Definition keeps {A : Type} (P : sys -> Prop) (m : M A) : Prop :=
  triple P m (fun _ => P) (fun _ => P).

(** Connection [c] is open on a file whose committed content is [d],
    with [t] the view of its open transaction. *)
Definition Conn (c : nat) (d : database) (t : option database) (s : sys)
    : Prop :=
  disk s = Some d
  /\ exists fk, conns s !! c
                = Some {| is_open := true; foreign_keys := fk; txn := t |}.

(** What a connection with committed content [d] and transaction view
    [t] reads. *)
Definition seen (d : database) (t : option database) : database :=
  match t with Some x => x | None => d end.

(** The state after a call on a connection: the event logged, the
    connections and the file as the call leaves them. *)
Definition upd_db (d : option database) (l : list connection) (ev : event)
    (s : sys) : sys :=
  set_disk d (set_conns l (log ev s)).

(** The database the next connection will find. *)
Definition on_disk (s : sys) : database := default empty_db (disk s).

(** *** The run, seen from the database

    One statement at a call site: the fault the environment holds for
    the site, or else what SQLite makes of the statement. *)
Definition stmt (e : environ) (st : site) (q : sql) (d : database)
    : result (database * option Z) :=
  match fault e st with
  | Some x => Raise x
  | None => Sqlite.exec (clock e st) q d
  end.

Fixpoint stmts (e : environ) (l : list (site * sql)) (d : database)
    : result database :=
  match l with
  | [] => Ok d
  | (st, q) :: r =>
      match stmt e st q d with
      | Ok (d', _) => stmts e r d'
      | Raise x => Raise x
      end
  end.

Definition pragma_stmts : list (site * sql) :=
  [ (at_pragma, PRAGMA_foreign_keys_ON) ].

Definition schema_stmts : list (site * sql) :=
  [ (at_create_app_info, CREATE_TABLE_IF_NOT_EXISTS_app_info);
    (at_create_users, CREATE_TABLE_IF_NOT_EXISTS_users);
    (at_create_todos, CREATE_TABLE_IF_NOT_EXISTS_todos);
    (at_create_trigger, CREATE_TRIGGER_IF_NOT_EXISTS_trg_todos_updated_at) ].

Definition upsert_stmts : list (site * sql) :=
  [ (at_upsert_project_name,
      INSERT_OR_REPLACE_INTO_app_info "project_name" "database");
    (at_upsert_version, INSERT_OR_REPLACE_INTO_app_info "version" "0.1.0");
    (at_upsert_author, INSERT_OR_REPLACE_INTO_app_info "author" "John Doe");
    (at_upsert_description,
      INSERT_OR_REPLACE_INTO_app_info "description" EmptyString) ].

Fixpoint seed_stmts_from (i : nat) (l : list (string * string * Z))
    : list (site * sql) :=
  match l with
  | [] => []
  | (title, description, completed) :: r =>
      (at_seed_insert i, INSERT_INTO_todos title description completed)
      :: seed_stmts_from (S i) r
  end.

Definition seed_stmts : list (site * sql) :=
  seed_stmts_from 0 sample_todos.

Definition stat_stmts : list (site * sql) :=
  [ (at_stat_tables, SELECT_COUNT_FROM_sqlite_master_tables);
    (at_stat_app_info, SELECT_COUNT_FROM_app_info);
    (at_stat_todos, SELECT_COUNT_FROM_todos) ].

(** The statements of [l], one after the other, on connection [c]. *)
Fixpoint run_all (e : environ) (c : nat) (l : list (site * sql)) : M unit :=
  match l with
  | [] => mret tt
  | (st, q) :: r => execute e st c q;; run_all e c r
  end.

Definition is_some {T : Type} (o : option T) : bool :=
  if o is Some _ then true else false.

(** The queries: one number back, nothing changed. *)
Definition is_count (q : sql) : bool :=
  match q with
  | SELECT_COUNT_FROM_todos | SELECT_COUNT_FROM_sqlite_master_tables
  | SELECT_COUNT_FROM_app_info => true
  | _ => false
  end.

Definition check (e : environ) (st : site) : result unit :=
  match fault e st with Some x => Raise x | None => Ok tt end.

Definition and_then {A B : Type} (r : result A) (f : A -> result B)
    : result B :=
  match r with Ok a => f a | Raise x => Raise x end.

(** The seeding step on the transaction's view. *)
Definition seed_after (e : environ) (d : database) : result database :=
  if seed_flag e then
    match stmt e at_seed_count SELECT_COUNT_FROM_todos d with
    | Raise x => Raise x
    | Ok (_, None) => Raise "'NoneType' object is not subscriptable"
    | Ok (d', Some n) => if (n =? 0)%Z then stmts e seed_stmts d' else Ok d'
    end
  else Ok d.

(** The database as the main connection sees it when it reaches
    [conn.commit()], or the exception of the first call that raises. *)
Definition txn_after (e : environ) (d0 : database) : result database :=
  and_then (check e at_connect) (fun _ =>
  and_then (stmts e pragma_stmts d0) (fun d0' =>
  and_then (stmts e schema_stmts d0') (fun d1 =>
  and_then (stmts e upsert_stmts d1) (fun d2 =>
  seed_after e d2)))).

(** From the commit to the close. *)
Definition finish_after (e : environ) (d3 : database) : result database :=
  and_then (check e at_commit) (fun _ =>
  and_then (stmts e stat_stmts d3) (fun d4 =>
  and_then (check e at_close) (fun _ => Ok d4))).

(** What the main connection leaves in the file when every call on it
    returns, or the exception of the first call that raises. *)
Definition db_after (e : environ) (d0 : database) : result database :=
  and_then (txn_after e d0) (finish_after e).

(** *** Statements per connection *)

(** The statements sent on connection [c], in order. *)
Fixpoint stmts_on (c : nat) (tr : list event) : list sql :=
  match tr with
  | [] => []
  | Execute c' q :: r =>
      if Nat.eqb c' c then q :: stmts_on c r else stmts_on c r
  | _ :: r => stmts_on c r
  end.

(** The connections opened. *)
Fixpoint connections (tr : list event) : list nat :=
  match tr with
  | [] => []
  | Connect c :: r => c :: connections r
  | _ :: r => connections r
  end.

(** The first statement of a connection, if it sends any, is the
    pragma. *)
Definition pragma_first (l : list sql) : bool :=
  match l with
  | [] | PRAGMA_foreign_keys_ON :: _ => true
  | _ => false
  end.

(** The same, or the connection sends SELECT 1 and nothing else. *)
Definition pragma_first_or_probe (l : list sql) : bool :=
  match l with
  | [] | PRAGMA_foreign_keys_ON :: _ | [SELECT_1] => true
  | _ => false
  end.

(** Every connection so far is as [pragma_first_or_probe] says, and no
    statement was sent on a handle not yet handed out. *)
Definition tidy (s : sys) : Prop :=
  (forall c, pragma_first_or_probe (stmts_on c (trace s)) = true)
  /\ (forall c, (length (conns s) <= c)%nat -> stmts_on c (trace s) = []).

(** Connection [c] was handed out and has sent nothing. *)
Definition unused (c : nat) (s : sys) : Prop :=
  tidy s /\ (c < length (conns s))%nat /\ stmts_on c (trace s) = [].

(** Connection [c] has sent the pragma first. *)
Definition working (c : nat) (s : sys) : Prop :=
  tidy s /\ (c < length (conns s))%nat
  /\ exists rest, stmts_on c (trace s) = PRAGMA_foreign_keys_ON :: rest.

(** *** Properties of the database *)

(** [R] holds of the file and of the view of every open transaction. *)
Definition all_views (R : database -> Prop) (s : sys) : Prop :=
  R (on_disk s)
  /\ forall i k d, conns s !! i = Some k -> txn k = Some d -> R d.

(** No statement the connection can send breaks [R]. *)
Definition statement_proof (R : database -> Prop) : Prop :=
  forall now q d d' r, R d -> Sqlite.exec now q d = Ok (d', r) -> R d'.

(** Every object of [d] is an object of [d']. *)
Definition objects_kept (d d' : database) : Prop :=
  (is_some (app_info d) = true -> is_some (app_info d') = true)
  /\ (is_some (users d) = true -> is_some (users d') = true)
  /\ (is_some (todos d) = true -> is_some (todos d') = true)
  /\ (trg_todos_updated_at d = true -> trg_todos_updated_at d' = true).

(** The three tables hold the same rows in [d] and in [d']. *)
Definition same_rows (d d' : database) : Prop :=
  rows_of (app_info d') = rows_of (app_info d)
  /\ rows_of (users d') = rows_of (users d)
  /\ rows_of (todos d') = rows_of (todos d).

(** The row a REPLACE statement inserts. *)
Definition app_info_row_of (i : Z) (key value : string) (now : Z)
    : app_info_row :=
  {| ai_id := i; ai_key := key; ai_value := Some value;
     ai_created_at := now |}.

(** The table after INSERT OR REPLACE of [key] under the id [i]. *)
Definition replaced (t : table app_info_row) (i : Z) (key value : string)
    (now : Z) : table app_info_row :=
  {| rows := List.filter (fun r => negb (String.eqb (ai_key r) key)) (rows t)
             ++ [app_info_row_of i key value now];
     seq := i |}.

(** The row an INSERT into todos makes. *)
Definition todos_row_of (i : Z) (title description : string) (completed : Z)
    (now : Z) : todos_row :=
  {| td_id := i; td_title := title; td_description := Some description;
     td_completed := completed; td_created_at := now;
     td_updated_at := now |}.

(** The table after that INSERT. *)
Definition inserted (t : table todos_row) (r : todos_row) : table todos_row :=
  {| rows := rows t ++ [r]; seq := td_id r |}.

(** The three sample rows as a run whose clock is [clock] inserts them
    after the id [T]. *)
Definition seeded_rows (clock : site -> Z) (T : Z) : list todos_row :=
  [ todos_row_of (T + 1) "Buy groceries" "Milk, eggs, bread" 0
      (clock (at_seed_insert 0));
    todos_row_of (T + 2) "Finish project" "Complete the todo app backend" 0
      (clock (at_seed_insert 1));
    todos_row_of (T + 3) "Read a book" "Spend 30 minutes reading" 0
      (clock (at_seed_insert 2)) ].

(** What a count query returns. *)
Definition count_of (q : sql) (d : database) : Z :=
  match q with
  | SELECT_COUNT_FROM_sqlite_master_tables => count_tables d
  | SELECT_COUNT_FROM_app_info => Z.of_nat (length (rows_of (app_info d)))
  | SELECT_COUNT_FROM_todos => Z.of_nat (length (rows_of (todos d)))
  | _ => 0
  end.

(** The three numbers of the report (lines 133-141) on database [d]. *)
Definition stats (d : database) : Z * Z * Z :=
  (count_of SELECT_COUNT_FROM_sqlite_master_tables d,
   count_of SELECT_COUNT_FROM_app_info d,
   count_of SELECT_COUNT_FROM_todos d).

(** The three lines of the report that carry them (lines 192-194). *)
Definition stat_lines (counts : Z * Z * Z) : list string :=
  let '(table_count, record_count, todos_count) := counts in
  [ "  Tables: " +:+ str_of_Z table_count;
    "  App info records: " +:+ str_of_Z record_count;
    "  Todos records: " +:+ str_of_Z todos_count ].

(** The files of [s] other than the two the script writes are those of
    [f0]; the directories of [s] are those of [d0], and perhaps
    db_visualizer. *)
Definition only_artifacts (f0 : gmap string string) (d0 : gset string)
    (s : sys) : Prop :=
  (forall p, p <> "db_connection.txt" -> p <> "db_visualizer/sqlite.env" ->
             files s !! p = f0 !! p)
  /\ d0 ⊆ dirs s /\ dirs s ⊆ d0 ∪ {[ "db_visualizer" ]}.

(** The exception that ends the writing of the two files, if any:
    [there] tells whether db_visualizer exists when the script looks. *)
Definition art_raise (e : environ) (there : bool) : option string :=
  match fault e at_getcwd with
  | Some x => Some x
  | None =>
      match fault e at_abspath with
      | Some x => Some x
      | None => if there then None else fault e at_makedirs
      end
  end.

(** *** Output *)

(** The last line of the script (line 207). *)
Definition success_line : string := nl +:+ "Script completed successfully.".

(** The line that announces the command-line client (line 201). *)
Definition cli_hint : string := "SQLite CLI is available. You can also use:".

(** Line [t] has not been printed. *)
Definition silent (t : string) (s : sys) : Prop := ~ In t (stdout s).

(** *** Failures *)

(** The calls inside a [try]: the probe and the two file writes. *)
Definition caught (st : site) : bool :=
  match st with
  | at_probe_connect | at_probe_select | at_probe_close
  | at_write_db_connection | at_write_sqlite_env => true
  | _ => false
  end.

(** The connection, the schema and the rows of app_info: calls every run
    makes, outside any [try]. *)
Definition always_fatal (st : site) : bool :=
  match st with
  | at_connect
  | at_create_app_info | at_create_users | at_create_todos | at_create_trigger
  | at_upsert_project_name | at_upsert_version | at_upsert_author
  | at_upsert_description => true
  | _ => false
  end.

(** The exception the probe meets, if any: that of its first failing
    call. *)
Definition probe_fault (e : environ) : option string :=
  match fault e at_probe_connect with
  | Some x => Some x
  | None =>
      match fault e at_probe_select with
      | Some x => Some x
      | None => fault e at_probe_close
      end
  end.

(** The largest row id a table ever held. *)
Definition top {R : Type} (id : R -> Z) (t : option (table R)) : Z :=
  match t with
  | Some t => Z.max (seq t) (max_id (map id (rows t)))
  | None => 0
  end.

(** Row ids are left for the rows a run inserts. *)
Definition room (d : database) : Prop :=
  top ai_id (app_info d) + 4 <= MAX_ROWID
  /\ top td_id (todos d) + 3 <= MAX_ROWID.

Definition is_upsert (q : sql) : bool :=
  match q with INSERT_OR_REPLACE_INTO_app_info _ _ => true | _ => false end.

Definition is_insert (q : sql) : bool :=
  match q with INSERT_INTO_todos _ _ _ => true | _ => false end.

(** The text of the three warnings. *)
Definition probe_warning (x : string) : string :=
  "Warning: Database exists but may be corrupted: " +:+ x.
Definition db_connection_warning (x : string) : string :=
  "Warning: Could not save connection info: " +:+ x.
Definition sqlite_env_warning (x : string) : string :=
  "Warning: Could not save environment variables: " +:+ x.

(** The content of the two files, as the script composes it. *)
Definition db_connection_txt (e : environ) : string :=
  let db_abs_path := cwd e +:+ "/" +:+ DB_NAME in
  String.concat EmptyString
    (db_connection_writes ("sqlite:///" +:+ db_abs_path) db_abs_path).

Definition sqlite_env (e : environ) : string :=
  String.concat EmptyString
    (sqlite_env_writes (PosixPath.abspath (cwd e) DB_NAME)).

(** What writing the two files leaves behind: a warning for a write that
    failed, the file for a write that did not. *)
Definition artifacts (e : environ) (s : sys) : Prop :=
  (forall x, fault e at_write_db_connection = Some x ->
             In (db_connection_warning x) (stdout s))
  /\ (forall x, fault e at_write_sqlite_env = Some x ->
                In (sqlite_env_warning x) (stdout s))
  /\ (fault e at_write_db_connection = None ->
      files s !! "db_connection.txt" = Some (db_connection_txt e))
  /\ (fault e at_write_sqlite_env = None ->
      files s !! "db_visualizer/sqlite.env" = Some (sqlite_env e)).

(** The exceptions after the close that nothing catches. *)
Definition art_fault (e : environ) (x : string) : Prop :=
  fault e at_getcwd = Some x \/ fault e at_abspath = Some x
  \/ fault e at_makedirs = Some x.

(** The database of a machine: that of the file, an empty one when the
    file is absent. *)
Definition db_of (m : machine) : database := default empty_db (m_disk m).

(** The four rows of app_info the script maintains. *)
Definition app_info_defaults : list (string * option string) :=
  [ ("project_name", Some "database"); ("version", Some "0.1.0");
    ("author", Some "John Doe"); ("description", Some EmptyString) ].

Definition key_value (r : app_info_row) : string * option string :=
  (ai_key r, ai_value r).

(** The key is none of the four. *)
Definition foreign_key (r : app_info_row) : bool :=
  negb (Toggle.str_in (ai_key r) (map fst app_info_defaults)).

(** A database with every table and the trigger in place, the tables
    with the content they have in [d]. *)
Definition with_schema (d : database) : database :=
  {| app_info := Some (default empty_table (app_info d));
     users := Some (default empty_table (users d));
     todos := Some (default empty_table (todos d));
     trg_todos_updated_at := true |}.

(** Every row of [l] with id [j] carries [now] in updated_at. *)
Definition stamped (now : Z) (j : Z) (l : list todos_row) : Prop :=
  forall r, In r l -> td_id r = j -> td_updated_at r = now.

Definition sample_of (r : todos_row) : string * string * Z :=
  (td_title r, default EmptyString (td_description r), td_completed r).

(** Seeding takes place: the toggle is on and todos holds no row. *)
Definition seeding (e : environ) (d0 : database) : bool :=
  seed_flag e && (Z.of_nat (length (rows_of (todos d0))) =? 0)%Z.

(** *** The output, line by line *)

(** Since its output was [L], the process has printed the lines [l]. *)
Definition says (L l : list string) (s : sys) : Prop :=
  stdout s = (L ++ l)%list.

(** Lines 26-38: what the probe prints; [there] tells whether myapp.db
    exists. *)
Definition probe_lines (e : environ) (there : bool) : list string :=
  if there then
    [ "SQLite database already exists at " +:+ DB_NAME;
      match probe_fault e with
      | None => "Database is accessible and working."
      | Some x => probe_warning x
      end ]
  else [ "Creating new SQLite database..." ].

(** Lines 109-128: the one line of the seeding step on database [d0]. *)
Definition seed_line (e : environ) (d0 : database) : string :=
  if seed_flag e then
    if (Z.of_nat (length (rows_of (todos d0))) =? 0)%Z
    then "Seeded sample todos (SEED_TODOS enabled)."
    else "Skipping seeding todos: table already has data."
  else "SEED_TODOS not enabled. Skipping todo seed data.".

(** Lines 150-177: what the writing of the two files prints; [there]
    tells whether db_visualizer exists. *)
Definition artifact_lines (e : environ) (there : bool) : list string :=
  (match fault e at_write_db_connection with
   | None => "Connection information saved to db_connection.txt"
   | Some x => db_connection_warning x
   end
   :: (if there then [] else [ "Created db_visualizer directory" ]))
  ++ [ match fault e at_write_sqlite_env with
       | None => "Environment variables saved to db_visualizer/sqlite.env"
       | Some x => sqlite_env_warning x
       end ].

(** Lines 197-204: the lines about the command-line client. *)
Definition hint_lines (e : environ) : list string :=
  match fault e at_which with
  | Some _ => []
  | None =>
      if (which_returncode e =? 0)%Z
      then [ EmptyString; cli_hint; "  sqlite3 " +:+ DB_NAME ]
      else []
  end.

(** Lines 179-207: the report. *)
Definition report_lines (e : environ)
    (db_abs_path connection_string : string) (counts : Z * Z * Z)
    : list string :=
  [ nl +:+ "SQLite setup complete!";
    "Database: " +:+ DB_NAME;
    "Location: " +:+ db_abs_path;
    EmptyString;
    "To use with Node.js viewer, run: source db_visualizer/sqlite.env";
    nl +:+ "To connect to the database, use one of the following methods:";
    "1. Python: sqlite3.connect('" +:+ DB_NAME
      +:+ "')  # Remember to enable PRAGMA foreign_keys";
    "2. Connection string: " +:+ connection_string;
    "3. Direct file access: " +:+ db_abs_path;
    EmptyString;
    "Database statistics:" ]
  ++ stat_lines counts ++ hint_lines e ++ [ success_line ].

(** The output of a run on machine [m] that exits normally and leaves
    database [d']. *)
Definition output_of (e : environ) (m : machine) (d' : database)
    : list string :=
  let db_abs_path := cwd e +:+ "/" +:+ DB_NAME in
  "Starting SQLite setup..."
  :: probe_lines e (is_some (m_disk m))
  ++ seed_line e (db_of m)
  :: artifact_lines e (bool_decide ("db_visualizer" ∈ m_dirs m))
  ++ report_lines e db_abs_path ("sqlite:///" +:+ db_abs_path) (stats d').

(** *** The calls on connections, one by one *)

(** The process has made the calls [T], and holds [n] connections. *)
Definition calls_are (T : list event) (n : nat) (s : sys) : Prop :=
  trace s = T /\ length (conns s) = n.

(** Lines 30-33: the calls of the probe; [there] tells whether myapp.db
    exists.  A call that raises of itself is made all the same;
    [sqlite3.connect] hands out no connection when it raises. *)
Definition probe_calls (e : environ) (there : bool) : list event :=
  if there then
    match fault e at_probe_connect with
    | Some _ => []
    | None =>
        Connect 0 :: Execute 0 SELECT_1
        :: match fault e at_probe_select with
           | Some _ => []
           | None => [ Close 0 ]
           end
    end
  else [].

(** The handle of the main connection: the number of connections the
    probe opened. *)
Definition main_handle (e : environ) (there : bool) : nat :=
  if there then
    match fault e at_probe_connect with Some _ => 0 | None => 1 end
  else 0.

(** Lines 41-143: the calls on the main connection [c] when all of them
    return, on a file that holds [d0]. *)
Definition main_calls (e : environ) (c : nat) (d0 : database) : list event :=
  Connect c
  :: map (fun p => Execute c p.2)
       (pragma_stmts ++ schema_stmts ++ upsert_stmts)
  ++ (if seed_flag e then
        Execute c SELECT_COUNT_FROM_todos
        :: (if (Z.of_nat (length (rows_of (todos d0))) =? 0)%Z
            then map (fun p => Execute c p.2) seed_stmts
            else [])
      else [])
  ++ Commit c :: map (fun p => Execute c p.2) stat_stmts ++ [ Close c ].

End Logic.
Import Logic.

(* ===================================================================== *)
(** ** Machines and environments used as examples *)
(* ===================================================================== *)

Module Examples.
Import Sqlite Script.

(** Nothing fails, SEED_TODOS is unset, the clock reads 100. *)
Definition calm : environ := quiet None "/srv/app" 100.

(** The same with SEED_TODOS=1. *)
Definition seeding_env : environ := quiet (Some "1") "/srv/app" 100.

(** A database written by an earlier version of the application: an old
    value under version, and a key the script does not know. *)
Definition stale_db : database :=
  {| app_info :=
       Some {| rows := [ {| ai_id := 1; ai_key := "version";
                            ai_value := Some "0.0.9"; ai_created_at := 50 |};
                         {| ai_id := 2; ai_key := "theme";
                            ai_value := Some "dark"; ai_created_at := 50 |} ];
               seq := 2 |};
     users := Some empty_table;
     todos := Some empty_table;
     trg_todos_updated_at := true |}.

Definition stale : machine :=
  {| m_disk := Some stale_db; m_files := ∅; m_dirs := ∅ |}.

(** The same database after the application deleted the seven todos it
    once held: the table is empty, its sqlite_sequence entry is 7. *)
Definition emptied : machine :=
  {| m_disk := Some (set_todos (Some {| rows := []; seq := 7 |}) stale_db);
     m_files := ∅; m_dirs := ∅ |}.

(** The file is locked while the probe runs, and the directory of the
    viewer cannot be written to; everything else works. *)
Definition rough : environ :=
  {| SEED_TODOS := None; cwd := "/srv/app";
     fault := fun st =>
       match st with
       | at_probe_select => Some "database is locked"
       | at_write_sqlite_env => Some "Permission denied"
       | _ => None
       end;
     clock := fun _ => 100; which_returncode := 0 |}.

(** The disk is full when the trigger is created. *)
Definition full_disk : environ :=
  {| SEED_TODOS := None; cwd := "/srv/app";
     fault := fun st =>
       match st with
       | at_create_trigger => Some "database or disk is full"
       | _ => None
       end;
     clock := fun _ => 100; which_returncode := 0 |}.

(** UPDATE todos SET completed = 1, updated_at = 0 WHERE id = 2 *)
Definition complete_second : update :=
  {| upd_where := fun r => (td_id r =? 2)%Z;
     upd_set := fun r =>
       {| td_id := td_id r; td_title := td_title r;
          td_description := td_description r; td_completed := 1;
          td_created_at := td_created_at r; td_updated_at := 0 |} |}.

End Examples.

(* ===================================================================== *)
(** ** Rules of the logic *)
(* ===================================================================== *)

Section Rules.
Import Script.
Context {A B : Type}.
Implicit Types (P : sys -> Prop) (E : string -> sys -> Prop).

Lemma triple_ret P (a : A) (Q : A -> sys -> Prop) E :
  (forall s, P s -> Q a s) -> triple P (mret a) Q E.
Proof. intros H s Hs. apply H, Hs. Qed.

Lemma triple_raise P (x : string) (Q : A -> sys -> Prop) E :
  (forall s, P s -> E x s) -> triple P (raise x) Q E.
Proof. intros H s Hs. apply H, Hs. Qed.

Lemma triple_act P (f : sys -> result A * sys) (Q : A -> sys -> Prop) E :
  (forall s, P s -> match f s with
                    | (Ok a, s') => Q a s'
                    | (Raise x, s') => E x s'
                    end) ->
  triple P (act f) Q E.
Proof. intros H s Hs. apply H, Hs. Qed.

Lemma triple_bind P (m : M A) (f : A -> M B) (R : A -> sys -> Prop)
    (Q : B -> sys -> Prop) E :
  triple P m R E -> (forall a, triple (R a) (f a) Q E) ->
  triple P (m ≫= f) Q E.
Proof.
  intros Hm Hf s Hs. specialize (Hm s Hs).
  change ((m ≫= f) s) with (bind m f s). unfold bind.
  destruct (m s) as [[a|x] s1]; [apply Hf, Hm | exact Hm].
Qed.

(** Sequencing after a call whose own exceptional outcome [E1] has to be
    weakened to the one of the whole. *)
Lemma triple_seq P (m : M A) (f : A -> M B) (R : A -> sys -> Prop)
    (Q : B -> sys -> Prop) E1 E :
  triple P m R E1 -> (forall x s, E1 x s -> E x s) ->
  (forall a, triple (R a) (f a) Q E) ->
  triple P (m ≫= f) Q E.
Proof.
  intros Hm HE Hf s Hs. specialize (Hm s Hs).
  change ((m ≫= f) s) with (bind m f s). unfold bind.
  destruct (m s) as [[a|x] s1]; [apply Hf, Hm | apply HE, Hm].
Qed.

Lemma triple_ret_bind P (a : A) (f : A -> M B) (Q : B -> sys -> Prop) E :
  triple P (f a) Q E -> triple P (mret a ≫= f) Q E.
Proof. intros H s Hs. apply H, Hs. Qed.

Lemma triple_raise_bind P (x : string) (f : A -> M B)
    (Q : B -> sys -> Prop) E :
  (forall s, P s -> E x s) -> triple P (raise x ≫= f) Q E.
Proof. intros H s Hs. apply H, Hs. Qed.

Lemma triple_conseq P P' (m : M A) (Q Q' : A -> sys -> Prop) E E' :
  triple P m Q E ->
  (forall s, P' s -> P s) -> (forall a s, Q a s -> Q' a s) ->
  (forall x s, E x s -> E' x s) ->
  triple P' m Q' E'.
Proof.
  intros H HP HQ HE s Hs. specialize (H s (HP s Hs)).
  destruct (m s) as [[a|x] s1]; auto.
Qed.

Lemma triple_pure (phi : Prop) P (m : M A) (Q : A -> sys -> Prop) E :
  (phi -> triple P m Q E) -> triple (fun s => phi /\ P s) m Q E.
Proof. intros H s [Hphi Hs]. now apply H. Qed.

Lemma triple_exists {T : Type} (P : T -> sys -> Prop) (m : M A)
    (Q : A -> sys -> Prop) E :
  (forall x, triple (P x) m Q E) -> triple (fun s => exists x, P x s) m Q E.
Proof. intros H s [x Hs]. now apply (H x). Qed.

End Rules.

Section MoreRules.
Import Script.
Implicit Types (P : sys -> Prop) (E : string -> sys -> Prop).

Lemma triple_try P (body : M unit) (handler : string -> M unit)
    (R : string -> sys -> Prop) (Q : unit -> sys -> Prop) E :
  triple P body (fun _ => Q tt) R ->
  (forall x, triple (R x) (handler x) Q E) ->
  triple P (try_except body handler) Q E.
Proof.
  intros Hb Hh s Hs. specialize (Hb s Hs). unfold try_except.
  destruct (body s) as [[u|x] s1]; [exact Hb | apply Hh, Hb].
Qed.

Lemma triple_print P (line : string) (Q : unit -> sys -> Prop) E :
  (forall s, P s -> Q tt (emit line s)) -> triple P (print line) Q E.
Proof. intros H s Hs. apply H, Hs. Qed.

Lemma triple_may_fail (e : environ) (st : site) P :
  triple P (may_fail e st)
    (fun _ s => fault e st = None /\ P s)
    (fun x s => fault e st = Some x /\ P s).
Proof. intros s Hs. unfold may_fail. destruct (fault e st); simpl; auto. Qed.

Lemma triple_for_each {T : Type} (I : nat -> sys -> Prop)
    (body : nat -> T -> M unit) E (l : list T) (i0 : nat) :
  (forall i x, triple (I i) (body i x) (fun _ => I (S i)) E) ->
  triple (I i0) (for_each l i0 body) (fun _ => I (i0 + length l)%nat) E.
Proof.
  intros Hb. revert i0. induction l as [|x l IH]; intros i0; simpl.
  - apply triple_ret. intros s. now rewrite Nat.add_0_r.
  - eapply triple_bind; [apply Hb|]. intros u.
    eapply triple_conseq; [apply IH | auto | | auto].
    intros v s. simpl. now rewrite Nat.add_succ_r.
Qed.

(** Rules for [keeps]. *)
Lemma keeps_ret {A : Type} P (a : A) : keeps P (mret a).
Proof. now apply triple_ret. Qed.

Lemma keeps_raise {A : Type} P (x : string) : keeps P (@raise A x).
Proof. now apply triple_raise. Qed.

Lemma keeps_bind {A B : Type} P (m : M A) (f : A -> M B) :
  keeps P m -> (forall a, keeps P (f a)) -> keeps P (m ≫= f).
Proof. intros Hm Hf. eapply triple_bind; [apply Hm | apply Hf]. Qed.

Lemma keeps_try P (body : M unit) (handler : string -> M unit) :
  keeps P body -> (forall x, keeps P (handler x)) ->
  keeps P (try_except body handler).
Proof. intros Hb Hh. eapply triple_try; [apply Hb | apply Hh]. Qed.

Lemma keeps_print P (line : string) :
  (forall s, P s -> P (emit line s)) -> keeps P (print line).
Proof. intros H. now apply triple_print. Qed.

Lemma keeps_may_fail (e : environ) (st : site) P : keeps P (may_fail e st).
Proof.
  intros s Hs. unfold may_fail. destruct (fault e st); simpl; auto.
Qed.

Lemma keeps_act {A : Type} P (f : sys -> result A * sys) :
  (forall s, P s -> P (snd (f s))) -> keeps P (act f).
Proof.
  intros H. apply triple_act. intros s Hs. specialize (H s Hs).
  now destruct (f s) as [[a|x] s'].
Qed.

Lemma keeps_for_each {T : Type} P (body : nat -> T -> M unit)
    (l : list T) (i0 : nat) :
  (forall i x, keeps P (body i x)) -> keeps P (for_each l i0 body).
Proof.
  intros Hb. revert i0. induction l as [|x l IH]; intros i0; simpl.
  - apply keeps_ret.
  - apply keeps_bind; [apply Hb | intros u; apply IH].
Qed.

(** What [keeps] says about a run. *)
Lemma keeps_run {A : Type} P (m : M A) (s : sys) :
  keeps P m -> P s -> P (snd (m s)).
Proof.
  intros H Hs. specialize (H s Hs). now destruct (m s) as [[a|x] s'].
Qed.

End MoreRules.

(* ===================================================================== *)
(** ** The calls on a connection *)
(* ===================================================================== *)

Section Connections.
Import Sqlite Script.
Context (e : environ).

Lemma connect_triple (st : site) (d0 : database) :
  triple (fun s => on_disk s = d0) (sqlite3_connect e st)
    (fun c s' => check e st = Ok tt /\ Conn c d0 None s')
    (fun x s' => check e st = Raise x /\ on_disk s' = d0).
Proof.
  unfold sqlite3_connect, check.
  eapply triple_seq; [apply triple_may_fail| |].
  - intros x s [Hf Hs]. now rewrite Hf.
  - intros u. apply triple_act. intros s [Hf Hs]. rewrite Hf.
    split; [reflexivity|]. split; simpl.
    + now rewrite <- Hs.
    + exists false. now apply list_lookup_middle.
Qed.

Lemma execute_triple (st : site) (c : nat) (q : sql) (d : database)
    (t : option database) :
  triple (Conn c d t) (execute e st c q)
    (fun r s' =>
       exists d', stmt e st q (seen d t) = Ok (d', r)
                  /\ if is_dml q || is_some t then Conn c d (Some d') s'
                     else Conn c d' None s')
    (fun x s' => stmt e st q (seen d t) = Raise x /\ on_disk s' = d).
Proof.
  intros s [Hd [fk Hk]].
  assert (Hlt : (c < length (conns s))%nat) by (eapply lookup_lt_Some, Hk).
  unfold execute, stmt.
  change ((act ?f ≫= ?g) s) with (bind (act f) g s).
  unfold bind, act at 1. unfold log at 1.
  change ((may_fail e st ≫= ?g) ?s1) with (bind (may_fail e st) g s1).
  unfold bind, may_fail.
  destruct (fault e st) as [x|];
    [split; [reflexivity|unfold on_disk; simpl; now rewrite ?Hd]|].
  unfold act. simpl.
  rewrite Hk. simpl. unfold view. simpl. rewrite Hd.
  change (match t with Some d1 => d1 | None => default empty_db (Some d) end)
    with (seen d t).
  destruct (Sqlite.exec (clock e st) q (seen d t)) as [[d' r]|x];
    [|split; [reflexivity|unfold on_disk; simpl; now rewrite ?Hd]].
  unfold is_some.
  destruct (is_dml q || (if t is Some _ then true else false)) eqn:Hm;
    exists d'; (split; [reflexivity|]); split; simpl; auto;
    eexists; now apply list_lookup_insert_eq.
Qed.

Lemma Conn_on_disk (c : nat) (d : database) (t : option database) (s : sys) :
  Conn c d t s -> on_disk s = d.
Proof. intros [Hd _]. unfold on_disk. now rewrite Hd. Qed.

Lemma commit_triple (st : site) (c : nat) (d : database)
    (t : option database) :
  triple (Conn c d t) (conn_commit e st c)
    (fun _ s' => check e st = Ok tt /\ Conn c (seen d t) None s')
    (fun x s' => check e st = Raise x /\ on_disk s' = d).
Proof.
  intros s [Hd [fk Hk]].
  assert (Hlt : (c < length (conns s))%nat) by (eapply lookup_lt_Some, Hk).
  unfold conn_commit, check.
  change ((act ?f ≫= ?g) s) with (bind (act f) g s).
  unfold bind, act at 1. unfold log at 1.
  change ((may_fail e st ≫= ?g) ?s1) with (bind (may_fail e st) g s1).
  unfold bind, may_fail.
  destruct (fault e st) as [x|];
    [split; [reflexivity|unfold on_disk; simpl; now rewrite ?Hd]|].
  unfold act. simpl. rewrite Hk. simpl.
  destruct t as [dt|]; simpl; (split; [reflexivity|]); split; simpl; eauto.
  eexists; now apply list_lookup_insert_eq.
Qed.

Lemma close_triple (st : site) (c : nat) (d : database)
    (t : option database) :
  triple (Conn c d t) (conn_close e st c)
    (fun _ s' => check e st = Ok tt /\ disk s' = Some d)
    (fun x s' => check e st = Raise x /\ on_disk s' = d).
Proof.
  intros s [Hd [fk Hk]].
  unfold conn_close, check.
  change ((act ?f ≫= ?g) s) with (bind (act f) g s).
  unfold bind, act at 1. unfold log at 1.
  change ((may_fail e st ≫= ?g) ?s1) with (bind (may_fail e st) g s1).
  unfold bind, may_fail.
  destruct (fault e st) as [x|];
    [split; [reflexivity|unfold on_disk; simpl; now rewrite ?Hd]|].
  unfold act. simpl. rewrite Hk. simpl. auto.
Qed.

(** Statements inside an open transaction stay in it. *)
Lemma run_all_txn (l : list (site * sql)) (c : nat) (d dt : database) :
  triple (Conn c d (Some dt)) (run_all e c l)
    (fun _ s' => exists d', stmts e l dt = Ok d' /\ Conn c d (Some d') s')
    (fun x s' => stmts e l dt = Raise x /\ on_disk s' = d).
Proof.
  revert dt. induction l as [|[st q] l IH]; intros dt; simpl.
  - apply triple_ret. eauto.
  - eapply triple_seq; [apply execute_triple| |].
    + simpl. intros x s [-> Hs]. auto.
    + intros r. apply triple_exists. intros d'. apply triple_pure.
      simpl. intros ->. unfold is_some. rewrite orb_true_r. apply IH.
Qed.

(** Outside a transaction, a statement that is neither INSERT nor
    REPLACE goes to the file at once; when one of them raises, the file
    holds what the earlier ones made of it, which any property [R] kept
    by the statements describes. *)
Lemma run_all_auto (R : database -> Prop) (l : list (site * sql)) (c : nat)
    (d : database) :
  Forall (fun p => is_dml p.2 = false) l ->
  Forall (fun p => forall d1 d2 r,
            R d1 -> stmt e p.1 p.2 d1 = Ok (d2, r) -> R d2) l ->
  R d ->
  triple (Conn c d None) (run_all e c l)
    (fun _ s' => exists d', stmts e l d = Ok d' /\ Conn c d' None s')
    (fun x s' => stmts e l d = Raise x /\ R (on_disk s')).
Proof.
  intros Hl HR. revert d.
  induction Hl as [|[st q] l Hq Hl IH]; intros d Hd; simpl.
  - apply triple_ret. eauto.
  - apply Forall_cons in HR as [HR1 HR].
    eapply triple_seq; [apply execute_triple| |].
    + simpl. intros x s [-> <-]. auto.
    + intros r. apply triple_exists. intros d'. apply triple_pure.
      simpl in *. intros Hs. rewrite Hs, Hq. simpl.
      apply IH; eauto.
Qed.

(** The first INSERT or REPLACE opens the transaction. *)
Lemma run_all_begin (st : site) (q : sql) (l : list (site * sql)) (c : nat)
    (d : database) :
  is_dml q = true ->
  triple (Conn c d None) (run_all e c ((st, q) :: l))
    (fun _ s' => exists d', stmts e ((st, q) :: l) d = Ok d'
                            /\ Conn c d (Some d') s')
    (fun x s' => stmts e ((st, q) :: l) d = Raise x /\ on_disk s' = d).
Proof.
  intros Hq. simpl.
  eapply triple_seq; [apply execute_triple| |].
  - simpl. intros x s [-> Hs]. auto.
  - intros r. apply triple_exists. intros d'. apply triple_pure.
    simpl. intros ->. rewrite Hq. simpl. apply run_all_txn.
Qed.

End Connections.

(* ===================================================================== *)
(** ** Facts about statements *)
(* ===================================================================== *)

Section Statements.
Import Sqlite Script.
Context (e : environ).

Lemma stmt_ok (st : site) (q : sql) (d d' : database) (r : option Z) :
  stmt e st q d = Ok (d', r) ->
  fault e st = None /\ Sqlite.exec (clock e st) q d = Ok (d', r).
Proof. unfold stmt. destruct (fault e st); [discriminate|auto]. Qed.

Lemma count_result (st : site) (q : sql) (d d' : database) (r : option Z) :
  is_count q = true -> stmt e st q d = Ok (d', r) ->
  d' = d /\ exists n, r = Some n.
Proof.
  intros Hq H. apply stmt_ok in H as [_ H].
  destruct q; try discriminate Hq; simpl in H.
  - destruct (todos d); inversion H; eauto.
  - inversion H; eauto.
  - destruct (app_info d); inversion H; eauto.
Qed.

Lemma count_todos_result (st : site) (d d' : database) (r : option Z) :
  stmt e st SELECT_COUNT_FROM_todos d = Ok (d', r) ->
  d' = d /\ r = Some (Z.of_nat (length (rows_of (todos d)))).
Proof.
  intros H. apply stmt_ok in H as [_ H]. simpl in H.
  destruct (todos d) eqn:Ht; inversion H; auto.
Qed.

(** Nothing before the seeding step touches the rows of todos. *)
Lemma ddl_keeps_todos (st : site) (q : sql) (d d' : database)
    (r : option Z) :
  match q with INSERT_INTO_todos _ _ _ => False | _ => True end ->
  stmt e st q d = Ok (d', r) ->
  rows_of (todos d') = rows_of (todos d).
Proof.
  intros Hq H. apply stmt_ok in H as [_ H].
  destruct q; try contradiction; simpl in H;
    try (inversion H; subst; reflexivity).
  - destruct (app_info d); inversion H; reflexivity.
  - destruct (users d); inversion H; reflexivity.
  - destruct (todos d) eqn:Ht; inversion H; subst; simpl;
      rewrite ?Ht; reflexivity.
  - destruct (trg_todos_updated_at d); [inversion H; reflexivity|].
    destruct (todos d) eqn:Ht; inversion H; subst; simpl;
      rewrite ?Ht; reflexivity.
  - unfold insert_or_replace_app_info in H.
    destruct (app_info d); [|discriminate].
    destruct (new_rowid _ _); inversion H; reflexivity.
  - destruct (todos d) eqn:Ht; inversion H; subst; rewrite ?Ht; reflexivity.
  - destruct (app_info d); inversion H; reflexivity.
Qed.

Lemma stmts_keep_todos (l : list (site * sql)) (d d' : database) :
  Forall (fun p => match p.2 with
                   | INSERT_INTO_todos _ _ _ => False
                   | _ => True
                   end) l ->
  stmts e l d = Ok d' -> rows_of (todos d') = rows_of (todos d).
Proof.
  intros Hl. revert d. induction Hl as [|[st q] l Hq Hl IH]; simpl; intros d.
  - now inversion 1.
  - destruct (stmt e st q d) as [[d1 r]|x] eqn:H1; [|discriminate].
    intros H. rewrite (IH _ H). eapply ddl_keeps_todos; eauto.
Qed.

End Statements.

(* ===================================================================== *)
(** ** The main connection, phase by phase *)
(* ===================================================================== *)

(** One query of the statistics: [execute], then [fetchone()[0]]. *)
Ltac count_step e :=
  eapply triple_seq; [apply execute_triple| |];
  [ cbn [seen]; intros x s [-> Hs]; auto
  | let r := fresh "r" in
    let d' := fresh "d" in
    let H := fresh "H" in
    let Hc := fresh "Hc" in
    let n := fresh "n" in
    intros r; apply triple_exists; intros d'; apply triple_pure;
    cbn [seen Sqlite.is_dml is_some orb]; intros H; rewrite H;
    assert (Hc := fun Hq => count_result e _ _ _ _ _ Hq H);
    destruct (Hc eq_refl) as [-> [n ->]]; clear Hc;
    apply triple_ret_bind ].

Section Phases.
Import Sqlite Script.
Context (e : environ).

Lemma for_each_seed (l : list (string * string * Z)) (i : nat) (c : nat)
    (d dt : database) :
  triple (Conn c d (Some dt))
    (for_each l i
       (fun i '(title, description, completed) =>
          execute e (at_seed_insert i) c
            (INSERT_INTO_todos title description completed);;
          mret tt))
    (fun _ s' => exists d', stmts e (seed_stmts_from i l) dt = Ok d'
                            /\ Conn c d (Some d') s')
    (fun x s' => stmts e (seed_stmts_from i l) dt = Raise x
                 /\ on_disk s' = d).
Proof.
  revert i dt. induction l as [|[[title description] completed] l IH];
    intros i dt; simpl.
  - apply triple_ret. eauto.
  - eapply (triple_bind _ _ _
      (fun _ s => exists d' r,
         stmt e (at_seed_insert i)
           (INSERT_INTO_todos title description completed) dt = Ok (d', r)
         /\ Conn c d (Some d') s)).
    + eapply triple_seq; [apply execute_triple| |].
      * simpl. intros x s [-> Hs]. split; [reflexivity|exact Hs].
      * intros r. apply triple_ret. intros s (d' & Hs & HC). eauto.
    + intros u. simpl. apply triple_exists. intros d'.
      apply triple_exists. intros r. apply triple_pure.
      intros ->. apply IH.
Qed.

Lemma seed_todos_triple (c : nat) (d dt : database) :
  triple (Conn c d (Some dt)) (seed_todos e c)
    (fun _ s' => exists d', seed_after e dt = Ok d' /\ Conn c d (Some d') s')
    (fun x s' => seed_after e dt = Raise x /\ on_disk s' = d).
Proof.
  unfold seed_todos, seed_after. destruct (seed_flag e).
  - eapply triple_seq; [apply execute_triple| |].
    + cbn [seen]. intros x s [-> Hs]. auto.
    + intros r. apply triple_exists. intros d'. apply triple_pure.
      cbn [seen is_dml is_some orb]. intros H. rewrite H.
      destruct (count_todos_result e _ _ _ _ H) as [-> ->].
      apply triple_ret_bind.
      destruct (Z.of_nat (length (rows_of (todos dt))) =? 0)%Z.
      * eapply triple_bind; [apply (for_each_seed sample_todos 0)|].
        intros u. apply triple_print. intros s (d2 & Hd2 & [Hd [fk Hk]]).
        exists d2. split; [exact Hd2|]. split; simpl; eauto.
      * apply triple_print. intros s [Hd [fk Hk]].
        exists dt. split; [reflexivity|]. split; simpl; eauto.
  - apply triple_print. intros s [Hd [fk Hk]].
    exists dt. split; [reflexivity|]. split; simpl; eauto.
Qed.

Lemma commit_and_count_triple (c : nat) (d dt : database) :
  triple (Conn c d (Some dt)) (commit_and_count e c)
    (fun _ s' => exists d4, finish_after e dt = Ok d4 /\ disk s' = Some d4)
    (fun x s' => finish_after e dt = Raise x
                 /\ (on_disk s' = d \/ on_disk s' = dt)).
Proof.
  unfold commit_and_count, finish_after.
  eapply triple_seq; [apply commit_triple| |].
  { cbn [seen]. intros x s [-> Hs]. auto. }
  intros u. apply triple_pure. intros ->. cbn [seen and_then stmts stat_stmts].
  count_step e. count_step e. count_step e.
  eapply triple_seq; [apply close_triple| |].
  { intros x s [-> Hs]. auto. }
  intros v. apply triple_pure. intros ->. apply triple_ret.
  intros s Hs. eauto.
Qed.

Lemma schema_stmts_auto :
  Forall (fun p : site * sql => is_dml p.2 = false) schema_stmts.
Proof. repeat constructor. Qed.

Lemma schema_stmts_no_insert :
  Forall (fun p : site * sql =>
            match p.2 with
            | INSERT_INTO_todos _ _ _ => False
            | _ => True
            end) (pragma_stmts ++ schema_stmts ++ upsert_stmts ++ stat_stmts).
Proof. repeat constructor. Qed.

(** The main connection from [sqlite3.connect] to [conn.close()]: it
    returns exactly when [db_after] does, and then the file holds that
    database; when it raises, the file has the rows of todos it had, or
    (after the commit) those of the transaction. *)
Lemma provision_db_triple (d0 : database) :
  triple (fun s => on_disk s = d0) (provision_db e)
    (fun _ s' => exists d, db_after e d0 = Ok d /\ disk s' = Some d)
    (fun x s' => db_after e d0 = Raise x
                 /\ (rows_of (todos (on_disk s')) = rows_of (todos d0)
                     \/ txn_after e d0 = Ok (on_disk s'))).
Proof.
  unfold provision_db, db_after, txn_after.
  eapply triple_seq; [apply connect_triple| |].
  { intros x s [-> <-]. auto. }
  intros c. apply triple_pure. intros ->. cbn [and_then].
  (* the pragma *)
  eapply triple_seq; [apply execute_triple| |].
  { cbn [seen stmts pragma_stmts]. intros x s [-> <-]. auto. }
  intros r0. apply triple_exists. intros d0'. apply triple_pure.
  cbn [seen stmts pragma_stmts is_dml is_some orb]. intros H0. rewrite H0.
  cbn [and_then].
  assert (T0 : rows_of (todos d0') = rows_of (todos d0))
    by (eapply ddl_keeps_todos; [|exact H0]; exact I).
  (* the schema *)
  change (create_schema e c) with (run_all e c schema_stmts).
  eapply triple_seq;
    [apply (run_all_auto e
              (fun d => rows_of (todos d) = rows_of (todos d0)))| |].
  { apply schema_stmts_auto. }
  { repeat constructor; cbn [fst snd]; intros d1 d2 r Hr Hs; rewrite <- Hr;
      (eapply ddl_keeps_todos; [|exact Hs]; exact I). }
  { exact T0. }
  { intros x s [-> Hr]. auto. }
  intros u1. apply triple_exists. intros d1. apply triple_pure.
  intros H1. rewrite H1. cbn [and_then].
  assert (T1 : rows_of (todos d1) = rows_of (todos d0)).
  { rewrite <- T0. eapply stmts_keep_todos; [|exact H1]. repeat constructor. }
  (* app_info *)
  change (upsert_app_info e c) with (run_all e c upsert_stmts).
  unfold upsert_stmts.
  eapply triple_seq; [apply run_all_begin; reflexivity| |].
  { intros x s [-> ->]. auto. }
  intros u2. apply triple_exists. intros d2. apply triple_pure.
  intros H2. rewrite H2. cbn [and_then].
  (* seeding *)
  eapply triple_seq; [apply seed_todos_triple| |].
  { intros x s [-> ->]. auto. }
  intros u3. apply triple_exists. intros d3. apply triple_pure.
  intros H3. rewrite H3. cbn [and_then].
  (* commit, statistics, close *)
  eapply triple_conseq; [apply (commit_and_count_triple c d1 d3) | | |].
  - auto.
  - intros counts s H. exact H.
  - intros x s [-> [->| ->]]; auto.
Qed.

End Phases.

(* ===================================================================== *)
(** ** What each call keeps *)
(* ===================================================================== *)

Section Frames.
Import Sqlite Script.
Context (e : environ).
Implicit Types (P : sys -> Prop).

Lemma keeps_db_file_exists P : keeps P db_file_exists.
Proof. intros s Hs. exact Hs. Qed.

Lemma keeps_dir_exists P (d : string) : keeps P (dir_exists d).
Proof. intros s Hs. exact Hs. Qed.

Lemma keeps_getcwd P : keeps P (os_getcwd e).
Proof.
  unfold os_getcwd. apply keeps_bind; [apply keeps_may_fail|].
  intros u. apply keeps_ret.
Qed.

Lemma keeps_abspath P (path : string) : keeps P (os_path_abspath e path).
Proof.
  unfold os_path_abspath. apply keeps_bind; [apply keeps_may_fail|].
  intros u. apply keeps_ret.
Qed.

Lemma keeps_which P : keeps P (which_sqlite3 e).
Proof.
  unfold which_sqlite3. apply keeps_bind; [apply keeps_may_fail|].
  intros u. apply keeps_ret.
Qed.

Lemma keeps_makedirs P (d : string) :
  (forall ds s, P s -> P (set_dirs ds s)) -> keeps P (os_makedirs e d).
Proof.
  intros H. unfold os_makedirs. apply keeps_bind; [apply keeps_may_fail|].
  intros u. apply keeps_act. intros s Hs. apply H, Hs.
Qed.

Lemma keeps_write_file P (st : site) (path : string) (w : list string) :
  (forall f s, P s -> P (set_files f s)) -> keeps P (write_file e st path w).
Proof.
  intros H. unfold write_file. apply keeps_bind; [apply keeps_may_fail|].
  intros u. apply keeps_act. intros s Hs. apply H, Hs.
Qed.

Lemma keeps_fetchone_0 P (r : option Z) : keeps P (fetchone_0 r).
Proof. destruct r; [apply keeps_ret | apply keeps_raise]. Qed.

(** [execute] takes [P] to [P'] as soon as logging the statement and
    updating file and connections does, whether it returns or raises. *)
Lemma execute_moves P P' (st : site) (c : nat) (q : sql) :
  (forall d l s, P s -> length l = length (conns s) ->
                 P' (upd_db d l (Execute c q) s)) ->
  triple P (execute e st c q) (fun _ => P') (fun _ => P').
Proof.
  intros H s Hs.
  assert (H0 : P' (log (Execute c q) s))
    by (apply (H (disk s) (conns s) s Hs eq_refl)).
  unfold execute.
  change ((act ?f ≫= ?g) s) with (bind (act f) g s).
  unfold bind, act at 1.
  change ((may_fail e st ≫= ?g) ?s1) with (bind (may_fail e st) g s1).
  unfold bind, may_fail.
  destruct (fault e st) as [x|]; [exact H0|]. unfold act. cbn [ret mret M_ret].
  change (conns (log (Execute c q) s)) with (conns s).
  destruct (conns s !! c) as [k|]; [|exact H0].
  destruct (negb (is_open k)); [exact H0|].
  destruct (Sqlite.exec _ _ _) as [[d r]|x]; [|exact H0].
  destruct (is_dml q || _).
  - apply (H (disk s) (<[c:=after_stmt q k (Some d)]> (conns s)) s Hs).
    apply length_insert.
  - apply (H (Some d) (<[c:=after_stmt q k None]> (conns s)) s Hs).
    apply length_insert.
Qed.

Lemma keeps_execute P (st : site) (c : nat) (q : sql) :
  (forall d l s, P s -> length l = length (conns s) ->
                 P (upd_db d l (Execute c q) s)) ->
  keeps P (execute e st c q).
Proof. apply execute_moves. Qed.

(** [sqlite3.connect] hands out the next handle. *)
Lemma connect_moves P (P' : nat -> sys -> Prop) (st : site) :
  (forall s, P s ->
     P' (length (conns s))
        (upd_db (Some (on_disk s))
           (conns s ++ [ {| is_open := true; foreign_keys := false;
                            txn := None |} ])
           (Connect (length (conns s))) s)) ->
  triple P (sqlite3_connect e st) P' (fun _ => P).
Proof.
  intros H. unfold sqlite3_connect.
  eapply triple_seq; [apply triple_may_fail| |].
  - intros x s [_ Hs]. exact Hs.
  - intros u. apply triple_act. intros s [_ Hs]. apply (H s Hs).
Qed.

Lemma keeps_connect P (st : site) :
  (forall d l ev s, P s -> P (upd_db d l ev s)) ->
  keeps P (sqlite3_connect e st).
Proof. intros H. apply connect_moves. intros s Hs. now apply H. Qed.

Lemma keeps_commit P (st : site) (c : nat) :
  (forall d l s, P s -> length l = length (conns s) ->
                 P (upd_db d l (Commit c) s)) ->
  keeps P (conn_commit e st c).
Proof.
  intros H s Hs.
  assert (H0 : P (log (Commit c) s))
    by (apply (H (disk s) (conns s) s Hs eq_refl)).
  unfold conn_commit.
  change ((act ?f ≫= ?g) s) with (bind (act f) g s).
  unfold bind, act at 1.
  change ((may_fail e st ≫= ?g) ?s1) with (bind (may_fail e st) g s1).
  unfold bind, may_fail.
  destruct (fault e st) as [x|]; [exact H0|]. unfold act. cbn [ret mret M_ret].
  change (conns (log (Commit c) s)) with (conns s).
  destruct (conns s !! c) as [k|]; [|exact H0].
  destruct (negb (is_open k)); [exact H0|].
  destruct (txn k) as [d|]; [|exact H0].
  apply (H (Some d) (<[c:={| is_open := true; foreign_keys := foreign_keys k;
                              txn := None |}]> (conns s)) s Hs).
  apply length_insert.
Qed.

Lemma keeps_close P (st : site) (c : nat) :
  (forall d l s, P s -> length l = length (conns s) ->
                 P (upd_db d l (Close c) s)) ->
  keeps P (conn_close e st c).
Proof.
  intros H s Hs.
  assert (H0 : P (log (Close c) s))
    by (apply (H (disk s) (conns s) s Hs eq_refl)).
  unfold conn_close.
  change ((act ?f ≫= ?g) s) with (bind (act f) g s).
  unfold bind, act at 1.
  change ((may_fail e st ≫= ?g) ?s1) with (bind (may_fail e st) g s1).
  unfold bind, may_fail.
  destruct (fault e st) as [x|]; [exact H0|]. unfold act. cbn [ret mret M_ret].
  change (conns (log (Close c) s)) with (conns s).
  destruct (conns s !! c) as [k|]; [|exact H0].
  apply (H (disk s) (<[c:={| is_open := false; foreign_keys := foreign_keys k;
                              txn := None |}]> (conns s)) s Hs).
  apply length_insert.
Qed.

End Frames.

(** Splits a [keeps] goal along the structure of the program, down to the
    calls; what is left are the side conditions of the calls. *)
Ltac keeps_step :=
  match goal with
  | |- keeps _ (_ ≫= _) => apply keeps_bind; [|intros ?]
  | |- keeps _ (Script.try_except _ _) => apply keeps_try; [|intros ?]
  | |- keeps _ (mret _) => apply keeps_ret
  | |- keeps _ (Script.raise _) => apply keeps_raise
  | |- keeps _ (Script.print _) => apply keeps_print
  | |- keeps _ (Script.may_fail _ _) => apply keeps_may_fail
  | |- keeps _ (Script.db_file_exists) => apply keeps_db_file_exists
  | |- keeps _ (Script.dir_exists _) => apply keeps_dir_exists
  | |- keeps _ (Script.os_getcwd _) => apply keeps_getcwd
  | |- keeps _ (Script.os_path_abspath _ _) => apply keeps_abspath
  | |- keeps _ (Script.which_sqlite3 _) => apply keeps_which
  | |- keeps _ (Script.os_makedirs _ _) => apply keeps_makedirs
  | |- keeps _ (Script.write_file _ _ _ _) => apply keeps_write_file
  | |- keeps _ (Script.fetchone_0 _) => apply keeps_fetchone_0
  | |- keeps _ (Script.sqlite3_connect _ _) => apply keeps_connect
  | |- keeps _ (Script.execute _ _ _ _) => apply keeps_execute
  | |- keeps _ (Script.conn_commit _ _ _) => apply keeps_commit
  | |- keeps _ (Script.conn_close _ _ _) => apply keeps_close
  | |- keeps _ (Script.for_each _ _ _) => apply keeps_for_each; intros ? ?
  | |- keeps _ (if ?b then _ else _) => destruct b
  | |- keeps _ (let '(_, _) := ?p in _) => destruct p
  end.

Ltac keeps_tac := repeat keeps_step.

(* ===================================================================== *)
(** ** The script, phase by phase *)
(* ===================================================================== *)

Section Main.
Import Sqlite Script.
Context (e : environ).
Implicit Types (P : sys -> Prop).

(** The probe never raises and leaves the database as it is. *)
Lemma probe_triple (d0 : database) :
  triple (fun s => on_disk s = d0) (probe e)
    (fun _ s' => on_disk s' = d0) (fun _ _ => False).
Proof.
  unfold probe.
  eapply (triple_bind _ _ _ (fun _ s => on_disk s = d0)).
  { intros s Hs. exact Hs. }
  intros [|]; [|now apply triple_print].
  eapply (triple_bind _ _ _ (fun _ s => on_disk s = d0)).
  { now apply triple_print. }
  intros u.
  eapply (triple_try _ _ _ (fun _ s => on_disk s = d0));
    [|intros x; now apply triple_print].
  eapply triple_seq; [apply connect_triple| |].
  { intros x s [_ H]. exact H. }
  intros c. apply triple_pure. intros _.
  eapply triple_seq; [apply execute_triple| |].
  { intros x s [_ H]. exact H. }
  intros r. apply triple_exists. intros d'. apply triple_pure.
  cbn [seen is_dml is_some orb]. intros H.
  apply stmt_ok in H as [_ H]. cbn [Sqlite.exec] in H. inversion H; subst d' r.
  eapply triple_seq; [apply close_triple| |].
  { intros x s [_ H']. exact H'. }
  intros v. apply triple_pure. intros _.
  apply triple_print. intros s Hs. unfold on_disk. simpl. now rewrite Hs.
Qed.

(** Writing the two files can only fail in [os.getcwd], [os.path.abspath]
    and [os.makedirs]; it keeps what does not depend on the files, the
    directories and the output. *)
Lemma write_artifacts_triple P :
  (forall l s, P s -> P (emit l s)) ->
  (forall f s, P s -> P (set_files f s)) ->
  (forall d s, P s -> P (set_dirs d s)) ->
  triple P (write_artifacts e) (fun _ => P)
    (fun x s' => P s' /\ art_fault e x).
Proof.
  intros He Hf Hd. unfold write_artifacts, art_fault.
  eapply triple_seq with (R := fun _ => P)
    (E1 := fun x s => fault e at_getcwd = Some x /\ P s).
  { unfold os_getcwd. eapply triple_bind; [apply triple_may_fail|].
    intros u. apply triple_ret. now intros s [_ Hs]. }
  { intros x s [H Hs]. auto. }
  intros current_dir.
  eapply (triple_bind _ _ _ (fun _ => P)).
  { eapply triple_try with (R := fun _ => P).
    - assert (K : keeps P
        (write_file e at_write_db_connection "db_connection.txt"
           (db_connection_writes
              ("sqlite:///" +:+ current_dir +:+ "/" +:+ DB_NAME)
              (current_dir +:+ "/" +:+ DB_NAME));;
         print "Connection information saved to db_connection.txt"))
        by (keeps_tac; auto).
      exact K.
    - intros x. apply triple_print. auto. }
  intros u.
  eapply triple_seq with (R := fun _ => P)
    (E1 := fun x s => fault e at_abspath = Some x /\ P s).
  { unfold os_path_abspath. eapply triple_bind; [apply triple_may_fail|].
    intros v. apply triple_ret. now intros s [_ Hs]. }
  { intros x s [H Hs]. auto. }
  intros db_path.
  eapply (triple_bind _ _ _ (fun _ => P)).
  { intros s Hs. exact Hs. }
  intros there.
  eapply triple_seq with (R := fun _ => P)
    (E1 := fun x s => fault e at_makedirs = Some x /\ P s).
  { destruct (negb there); [|now apply triple_ret].
    eapply triple_seq with (R := fun _ => P)
      (E1 := fun x s => fault e at_makedirs = Some x /\ P s).
    - unfold os_makedirs.
      eapply triple_bind with (R := fun _ s => fault e at_makedirs = None /\ P s);
        [apply triple_may_fail|].
      intros v. apply triple_act. intros s [_ Hs]. apply Hd, Hs.
    - auto.
    - intros v. apply triple_print. auto. }
  { intros x s [H Hs]. auto. }
  intros v.
  eapply (triple_bind _ _ _ (fun _ => P)).
  { eapply triple_try with (R := fun _ => P).
    - assert (K : keeps P
        (write_file e at_write_sqlite_env "db_visualizer/sqlite.env"
           (sqlite_env_writes db_path);;
         print "Environment variables saved to db_visualizer/sqlite.env"))
        by (keeps_tac; auto).
      exact K.
    - intros x. apply triple_print. auto. }
  intros w. now apply triple_ret.
Qed.

(** The report only prints, and never raises. *)
Lemma report_triple P (db_abs_path connection_string : string)
    (counts : Z * Z * Z) :
  (forall l s, P s -> P (emit l s)) ->
  triple P (report e db_abs_path connection_string counts) (fun _ => P)
    (fun _ _ => False).
Proof.
  intros He. unfold report. destruct counts as [[table_count record_count] n].
  repeat (eapply (triple_bind _ _ _ (fun _ => P));
          [apply triple_print; auto | intros ?]).
  eapply (triple_bind _ _ _ (fun _ => P)); [|intros ?; apply triple_print; auto].
  eapply triple_try with (R := fun _ => P); [|intros x; now apply triple_ret].
  assert (K : keeps P
    (returncode ← which_sqlite3 e;
     if (returncode =? 0)%Z
     then (print EmptyString;;
           print "SQLite CLI is available. You can also use:";;
           print ("  sqlite3 " +:+ DB_NAME))
     else mret tt)) by (keeps_tac; auto).
  exact K.
Qed.

(** The whole script, seen from the database. *)
Lemma main_triple (d0 : database) :
  triple (fun s => on_disk s = d0) (main e)
    (fun _ s' => exists d, db_after e d0 = Ok d /\ disk s' = Some d)
    (fun x s' =>
       (db_after e d0 = Raise x
        /\ (rows_of (todos (on_disk s')) = rows_of (todos d0)
            \/ txn_after e d0 = Ok (on_disk s')))
       \/ ((exists d, db_after e d0 = Ok d /\ disk s' = Some d)
           /\ art_fault e x)).
Proof.
  unfold main.
  eapply (triple_bind _ _ _ (fun _ s => on_disk s = d0)).
  { now apply triple_print. }
  intros u.
  eapply triple_seq; [apply probe_triple| |].
  { intros x s []. }
  intros v.
  eapply triple_seq; [apply provision_db_triple| |].
  { intros x s H. left. exact H. }
  intros counts.
  eapply triple_seq;
    [apply (write_artifacts_triple
              (fun s' => exists d, db_after e d0 = Ok d /\ disk s' = Some d))
    | |].
  - auto.
  - auto.
  - auto.
  - intros x s H. right. exact H.
  - intros [db_abs_path connection_string].
    eapply triple_conseq;
      [apply (report_triple
                (fun s' => exists d, db_after e d0 = Ok d /\ disk s' = Some d))
      | | |].
    + auto.
    + auto.
    + auto.
    + intros x s [].
Qed.

(** A run that exits normally leaves the database [db_after] computes. *)
Lemma run_ok (m : machine) :
  exit (run e m) = Ok tt ->
  exists d, db_after e (db_of m) = Ok d /\ m_disk (after (run e m)) = Some d.
Proof.
  pose proof (main_triple (db_of m) (boot m) eq_refl) as H.
  unfold run. destruct (main e (boot m)) as [[u|x] s']; simpl; [|discriminate].
  intros _. exact H.
Qed.

(** A run that raises before the commit leaves the rows of todos as they
    were; after the commit the file holds the transaction. *)
Lemma run_raise (m : machine) (x : string) :
  exit (run e m) = Raise x ->
  (db_after e (db_of m) = Raise x
   /\ (rows_of (todos (db_of (after (run e m))))
       = rows_of (todos (db_of m))
       \/ txn_after e (db_of m) = Ok (db_of (after (run e m)))))
  \/ ((exists d, db_after e (db_of m) = Ok d
                 /\ m_disk (after (run e m)) = Some d)
      /\ art_fault e x).
Proof.
  pose proof (main_triple (db_of m) (boot m) eq_refl) as H.
  unfold run. destruct (main e (boot m)) as [[u|y] s']; simpl; [discriminate|].
  intros [= ->]. exact H.
Qed.

End Main.

(* ===================================================================== *)
(** ** What the statements do to the database *)
(* ===================================================================== *)

Section Database.
Import Sqlite Script.
Context (e : environ).

Lemma and_then_ok {A B : Type} (r : result A) (f : A -> result B) (b : B) :
  and_then r f = Ok b -> exists a, r = Ok a /\ f a = Ok b.
Proof. destruct r; simpl; [eauto|discriminate]. Qed.

Lemma check_ok (st : site) : check e st = Ok tt -> fault e st = None.
Proof. unfold check. now destruct (fault e st). Qed.

Lemma stmts_cons_ok (st : site) (q : sql) (l : list (site * sql))
    (d d' : database) :
  stmts e ((st, q) :: l) d = Ok d' ->
  exists d1 r, stmt e st q d = Ok (d1, r) /\ stmts e l d1 = Ok d'.
Proof.
  simpl. destruct (stmt e st q d) as [[d1 r]|x]; [eauto|discriminate].
Qed.

Lemma stmts_app_ok (l1 l2 : list (site * sql)) (d d' : database) :
  stmts e (l1 ++ l2) d = Ok d' <->
  exists d1, stmts e l1 d = Ok d1 /\ stmts e l2 d1 = Ok d'.
Proof.
  revert d. induction l1 as [|[st q] l1 IH]; intros d; simpl.
  - split; [eauto|]. now intros (d1 & [= ->] & H).
  - destruct (stmt e st q d) as [[d1 r]|x]; [apply IH|].
    split; [discriminate|]. now intros (d1 & H & _).
Qed.

(** The statistics change nothing. *)
Lemma stat_stmts_id (d d' : database) :
  stmts e stat_stmts d = Ok d' -> d' = d.
Proof.
  unfold stat_stmts. intros H.
  repeat (apply stmts_cons_ok in H as (? & ? & Hq & H);
          apply count_result in Hq as [-> _]; [|reflexivity]).
  now inversion H.
Qed.

Lemma db_after_txn (d0 d : database) :
  db_after e d0 = Ok d -> txn_after e d0 = Ok d.
Proof.
  unfold db_after, finish_after. intros H.
  apply and_then_ok in H as (d3 & H3 & H).
  apply and_then_ok in H as ([] & _ & H).
  apply and_then_ok in H as (d4 & H4 & H).
  apply and_then_ok in H as ([] & _ & [= <-]).
  apply stat_stmts_id in H4. now subst.
Qed.

(** After the pragma and the four CREATE statements every object is
    there, and the tables hold what they held. *)
Lemma schema_stmts_result (d d' : database) :
  stmts e (pragma_stmts ++ schema_stmts) d = Ok d' -> d' = with_schema d.
Proof.
  unfold pragma_stmts, schema_stmts, with_schema. simpl app. intros H.
  destruct d as [[a|] [u|] [t|] [|]]; unfold stmts, stmt in H; simpl in H;
    repeat (match type of H with
            | context [fault e ?st] => destruct (fault e st)
            end; [discriminate H|]; simpl in H);
    now inversion H.
Qed.

Lemma upsert_result (st : site) (key value : string) (d d' : database)
    (r : option Z) (t : table app_info_row) :
  app_info d = Some t ->
  stmt e st (INSERT_OR_REPLACE_INTO_app_info key value) d = Ok (d', r) ->
  exists i,
    d' = set_app_info
           (Some {| rows :=
                      List.filter (fun r => negb (String.eqb (ai_key r) key))
                        (rows t)
                      ++ [ {| ai_id := i; ai_key := key;
                              ai_value := Some value;
                              ai_created_at := clock e st |} ];
                    seq := i |}) d.
Proof.
  intros Ht H. apply stmt_ok in H as [_ H]. simpl in H.
  unfold insert_or_replace_app_info in H. rewrite Ht in H.
  destruct (new_rowid _ _) as [i|x]; [|discriminate].
  inversion H; subst. eauto.
Qed.

Lemma upsert_result_set (st : site) (key value : string) (d d' : database)
    (r : option Z) (t : table app_info_row) :
  stmt e st (INSERT_OR_REPLACE_INTO_app_info key value)
    (set_app_info (Some t) d) = Ok (d', r) ->
  exists i,
    d' = set_app_info
           (Some {| rows :=
                      List.filter (fun r => negb (String.eqb (ai_key r) key))
                        (rows t)
                      ++ [ {| ai_id := i; ai_key := key;
                              ai_value := Some value;
                              ai_created_at := clock e st |} ];
                    seq := i |}) d.
Proof.
  intros H. eapply upsert_result in H as [i ->]; [|reflexivity]. eauto.
Qed.

Lemma filter_foreign (l : list app_info_row) :
  List.filter (fun r => negb (String.eqb (ai_key r) "description"))
    (List.filter (fun r => negb (String.eqb (ai_key r) "author"))
       (List.filter (fun r => negb (String.eqb (ai_key r) "version"))
          (List.filter (fun r => negb (String.eqb (ai_key r) "project_name"))
             l)))
  = List.filter foreign_key l.
Proof.
  induction l as [|r l IH]; [reflexivity|].
  unfold foreign_key, Toggle.str_in in *. cbn [List.filter map fst existsb].
  cbn [app_info_defaults map fst existsb] in *.
  destruct (String.eqb (ai_key r) "project_name") eqn:E1; cbn -[String.eqb];
    [exact IH|].
  destruct (String.eqb (ai_key r) "version") eqn:E2; cbn -[String.eqb];
    [exact IH|].
  destruct (String.eqb (ai_key r) "author") eqn:E3; cbn -[String.eqb];
    [exact IH|].
  destruct (String.eqb (ai_key r) "description") eqn:E4; cbn -[String.eqb];
    [exact IH|].
  now rewrite IH.
Qed.

(** The four REPLACE statements: rows with other keys stay, in their
    order; the four rows come after them, each with a new id. *)
Lemma upsert_stmts_result (d d' : database) (t : table app_info_row) :
  app_info d = Some t ->
  stmts e upsert_stmts d = Ok d' ->
  exists i1 i2 i3 i4,
    d' = set_app_info
           (Some {| rows :=
                      List.filter foreign_key (rows t)
                      ++ [ {| ai_id := i1; ai_key := "project_name";
                              ai_value := Some "database";
                              ai_created_at := clock e at_upsert_project_name |};
                           {| ai_id := i2; ai_key := "version";
                              ai_value := Some "0.1.0";
                              ai_created_at := clock e at_upsert_version |};
                           {| ai_id := i3; ai_key := "author";
                              ai_value := Some "John Doe";
                              ai_created_at := clock e at_upsert_author |};
                           {| ai_id := i4; ai_key := "description";
                              ai_value := Some EmptyString;
                              ai_created_at := clock e at_upsert_description |} ];
                    seq := i4 |}) d.
Proof.
  intros Ht H. unfold upsert_stmts in H.
  apply stmts_cons_ok in H as (d1 & r1 & H1 & H).
  destruct (upsert_result _ _ _ _ _ _ _ Ht H1) as [i1 E1]; subst d1.
  apply stmts_cons_ok in H as (d2 & r2 & H2 & H).
  apply upsert_result_set in H2 as [i2 E2]; subst d2.
  apply stmts_cons_ok in H as (d3 & r3 & H3 & H).
  apply upsert_result_set in H3 as [i3 E3]; subst d3.
  apply stmts_cons_ok in H as (d4 & r4 & H4 & H).
  apply upsert_result_set in H4 as [i4 E4]; subst d4.
  inversion H; subst d'. exists i1, i2, i3, i4.
  unfold set_app_info. cbn [app_info users todos trg_todos_updated_at rows seq].
  rewrite !List.filter_app. cbn [List.filter ai_key String.eqb Ascii.eqb
                                  Bool.eqb negb andb].
  rewrite filter_foreign, <- !app_assoc. reflexivity.
Qed.

Lemma insert_todos_result (st : site) (title description : string)
    (completed : Z) (d d' : database) (r : option Z) :
  stmt e st (INSERT_INTO_todos title description completed) d = Ok (d', r) ->
  exists i,
    rows_of (todos d')
    = (rows_of (todos d)
       ++ [ {| td_id := i; td_title := title;
               td_description := Some description;
               td_completed := completed;
               td_created_at := clock e st; td_updated_at := clock e st |} ])%list
    /\ app_info d' = app_info d /\ users d' = users d
    /\ trg_todos_updated_at d' = trg_todos_updated_at d
    /\ is_some (todos d') = is_some (todos d).
Proof.
  intros H. apply stmt_ok in H as [_ H]. simpl in H.
  unfold insert_todos in H. destruct (todos d) as [t|] eqn:Ht; [|discriminate].
  destruct (new_rowid _ _) as [i|x]; [|discriminate].
  inversion H; subst. exists i. simpl. auto.
Qed.

(** The seeding step: three rows after those that were there when the
    toggle is on and the table is empty, nothing otherwise. *)
Lemma seed_after_result (d d' : database) :
  seed_after e d = Ok d' ->
  app_info d' = app_info d /\ users d' = users d
  /\ trg_todos_updated_at d' = trg_todos_updated_at d
  /\ is_some (todos d') = is_some (todos d)
  /\ exists new,
       rows_of (todos d') = (rows_of (todos d) ++ new)%list
       /\ if seeding e d then map sample_of new = sample_todos
          else new = [].
Proof.
  unfold seed_after, seeding. destruct (seed_flag e); cbn [andb].
  - destruct (stmt e at_seed_count SELECT_COUNT_FROM_todos d)
      as [[d1 r]|x] eqn:Hc; [|discriminate].
    destruct (count_todos_result e _ _ _ _ Hc) as [-> ->].
    destruct (Z.of_nat (length (rows_of (todos d))) =? 0)%Z.
    + unfold seed_stmts. cbn [seed_stmts_from sample_todos]. intros H.
      apply stmts_cons_ok in H as (d1 & r1 & H1 & H).
      apply stmts_cons_ok in H as (d2 & r2 & H2 & H).
      apply stmts_cons_ok in H as (d3 & r3 & H3 & H).
      inversion H; subst d'; clear H.
      apply insert_todos_result in H1 as (i1 & R1 & A1 & U1 & G1 & S1).
      apply insert_todos_result in H2 as (i2 & R2 & A2 & U2 & G2 & S2).
      apply insert_todos_result in H3 as (i3 & R3 & A3 & U3 & G3 & S3).
      repeat split; try congruence.
      eexists. rewrite R3, R2, R1, <- !app_assoc. split; reflexivity.
    + intros [= <-]. repeat split; auto. exists []. now rewrite app_nil_r.
  - intros [= <-]. repeat split; auto. exists []. now rewrite app_nil_r.
Qed.

(** What the main connection has made of the database [d0] when it
    reaches the commit. *)
Lemma txn_after_result (d0 d : database) :
  txn_after e d0 = Ok d ->
  schema d = [TABLE_app_info; TABLE_users; TABLE_todos;
              TRIGGER_trg_todos_updated_at]
  /\ (exists i1 i2 i3 i4,
        rows_of (app_info d)
        = (List.filter foreign_key (rows_of (app_info d0))
          ++ [ {| ai_id := i1; ai_key := "project_name";
                  ai_value := Some "database";
                  ai_created_at := clock e at_upsert_project_name |};
               {| ai_id := i2; ai_key := "version";
                  ai_value := Some "0.1.0";
                  ai_created_at := clock e at_upsert_version |};
               {| ai_id := i3; ai_key := "author";
                  ai_value := Some "John Doe";
                  ai_created_at := clock e at_upsert_author |};
               {| ai_id := i4; ai_key := "description";
                  ai_value := Some EmptyString;
                  ai_created_at := clock e at_upsert_description |} ])%list)
  /\ rows_of (users d) = rows_of (users d0)
  /\ exists new,
       rows_of (todos d) = (rows_of (todos d0) ++ new)%list
       /\ if seeding e d0 then map sample_of new = sample_todos
          else new = [].
Proof.
  unfold txn_after. intros H.
  apply and_then_ok in H as ([] & _ & H).
  apply and_then_ok in H as (d0' & H0 & H).
  apply and_then_ok in H as (d1 & H1 & H).
  apply and_then_ok in H as (d2 & H2 & H).
  assert (Hs : stmts e (pragma_stmts ++ schema_stmts) d0 = Ok d1)
    by (apply stmts_app_ok; eauto).
  apply schema_stmts_result in Hs. subst d1.
  eapply upsert_stmts_result in H2 as (i1 & i2 & i3 & i4 & E2);
    [|reflexivity]. subst d2.
  apply seed_after_result in H as (A & U & G & S & new & R & Hn).
  unfold schema. rewrite A, U, G. cbn in S |- *.
  destruct (todos d) as [t|] eqn:Ht; [|discriminate S].
  split; [reflexivity|]. split.
  { exists i1, i2, i3, i4. f_equal. now destruct (app_info d0). }
  split; [now destruct (users d0)|].
  exists new. cbn in R.
  replace (rows (default empty_table (todos d0))) with (rows_of (todos d0))
    in R by now destruct (todos d0).
  split; [exact R|].
  unfold seeding in *. cbn in Hn.
  replace (rows (default empty_table (todos d0))) with (rows_of (todos d0))
    in Hn by now destruct (todos d0).
  exact Hn.
Qed.

End Database.

(* ===================================================================== *)
(** ** The trigger *)
(* ===================================================================== *)

Section Trigger.
Import Sqlite.
Context (now : Z) (u : update).

Lemma update_row_ids (trg : bool) (i : Z) (l : list todos_row) :
  map td_id (update_row trg now u i l) = map td_id l.
Proof.
  unfold update_row, trigger_body. destruct trg; rewrite ?map_map;
    apply map_ext; intros r; repeat destruct (_ =? _)%Z; reflexivity.
Qed.

(** After the update of row [i] the trigger has stamped every row with
    that id. *)
Lemma update_row_stamps (i : Z) (l : list todos_row) (r' : todos_row) :
  In r' (update_row true now u i l) -> td_id r' = i -> td_updated_at r' = now.
Proof.
  unfold update_row, trigger_body. rewrite map_map. intros H Hi.
  apply in_map_iff in H as (r & <- & _).
  destruct (td_id r =? i)%Z eqn:E; cbn [keep_id td_id] in *.
  - rewrite E. reflexivity.
  - rewrite E in Hi |- *. apply Z.eqb_neq in E. contradiction.
Qed.

(** Rows with another id are not touched. *)
Lemma update_row_others (i j : Z) (l : list todos_row) (r' : todos_row) :
  j <> i -> In r' (update_row true now u i l) -> td_id r' = j -> In r' l.
Proof.
  unfold update_row, trigger_body. rewrite map_map. intros Hne H Hj.
  apply in_map_iff in H as (r & <- & Hr).
  destruct (td_id r =? i)%Z eqn:E; cbn [keep_id td_id] in *.
  - rewrite E in Hj. simpl in Hj. apply Z.eqb_eq in E. congruence.
  - rewrite E. exact Hr.
Qed.

Lemma update_row_keeps_stamped (i j : Z) (l : list todos_row) :
  stamped now j l -> stamped now j (update_row true now u i l).
Proof.
  intros H r Hr Hj. destruct (Z.eq_dec j i) as [->|Hne].
  - eapply update_row_stamps; eauto.
  - apply (H r); [|exact Hj]. eapply update_row_others; eauto.
Qed.

Lemma update_loop_stamps (ids : list Z) (l : list todos_row) (j : Z) :
  In j ids \/ stamped now j l ->
  stamped now j (fold_left (fun l i => update_row true now u i l) ids l).
Proof.
  revert l. induction ids as [|i ids IH]; intros l; simpl.
  - intros [[]|H]; exact H.
  - intros [[->|Hin]|H]; apply IH; auto.
    + right. intros r Hr Hj. eapply update_row_stamps; eauto.
    + right. now apply update_row_keeps_stamped.
Qed.

Lemma update_loop_ids (trg : bool) (ids : list Z) (l : list todos_row) :
  map td_id (fold_left (fun l i => update_row trg now u i l) ids l)
  = map td_id l.
Proof.
  revert l. induction ids as [|i ids IH]; intros l; simpl; [reflexivity|].
  now rewrite IH, update_row_ids.
Qed.

(** An UPDATE on a database that has the trigger: every row the WHERE
    clause selects is still there, under its id, and carries the time of
    the statement in updated_at, whatever the SET clause put there. *)
Lemma exec_update_stamps (d : database) (t : table todos_row) :
  todos d = Some t -> trg_todos_updated_at d = true ->
  exists d', exec_update now u d = Ok d'
    /\ forall r, In r (rows t) -> upd_where u r = true ->
         (exists r', In r' (rows_of (todos d')) /\ td_id r' = td_id r)
         /\ forall r', In r' (rows_of (todos d')) -> td_id r' = td_id r ->
                       td_updated_at r' = now.
Proof.
  intros Ht Hg. unfold exec_update. rewrite Ht, Hg. eexists. split; [reflexivity|].
  cbn [rows_of set_todos todos rows]. intros r Hr Hw. split.
  - assert (Hi : In (td_id r) (map td_id (rows t))) by now apply in_map.
    rewrite <- (update_loop_ids true
                 (map td_id (List.filter (upd_where u) (rows t)))) in Hi.
    apply in_map_iff in Hi as (r' & Hi & Hr'). eauto.
  - apply update_loop_stamps. left. apply in_map, filter_In. auto.
Qed.

End Trigger.

(* ===================================================================== *)
(** ** The statements of each connection *)
(* ===================================================================== *)

Section Trace.
Import Sqlite Script.
Context (e : environ).

Lemma stmts_on_snoc (c : nat) (tr : list event) (ev : event) :
  stmts_on c (tr ++ [ev])
  = (stmts_on c tr
     ++ match ev with
        | Execute c' q => if Nat.eqb c' c then [q] else []
        | _ => []
        end)%list.
Proof.
  induction tr as [|a tr IH]; simpl.
  - destruct ev; reflexivity.
  - destruct a; try exact IH. destruct (Nat.eqb c0 c); [|exact IH].
    simpl. now rewrite IH.
Qed.

Lemma stmts_on_snoc_other (c : nat) (tr : list event) (ev : event) :
  match ev with Execute c' _ => c' <> c | _ => True end ->
  stmts_on c (tr ++ [ev]) = stmts_on c tr.
Proof.
  intros H. rewrite stmts_on_snoc. destruct ev; try apply app_nil_r.
  apply Nat.eqb_neq in H. rewrite H. apply app_nil_r.
Qed.

(** Events other than statements leave [tidy] alone; so does a change of
    the file or of the state of the connections. *)
Lemma tidy_event (d : option database) (l : list connection) (ev : event)
    (s : sys) :
  match ev with Execute _ _ => False | _ => True end ->
  (length (conns s) <= length l)%nat ->
  tidy s -> tidy (upd_db d l ev s).
Proof.
  intros Hev Hl [H1 H2]. split; simpl; intros c.
  - rewrite stmts_on_snoc_other; [apply H1|]. now destruct ev.
  - intros Hc. rewrite stmts_on_snoc_other; [apply H2; lia|]. now destruct ev.
Qed.

(** A statement on a connection that began with the pragma. *)
Lemma working_execute (c : nat) (q : sql) (d : option database)
    (l : list connection) (s : sys) :
  working c s -> length l = length (conns s) ->
  working c (upd_db d l (Execute c q) s).
Proof.
  intros ([H1 H2] & Hc & rest & Hr) Hl.
  assert (Hs : forall c', stmts_on c' (trace s ++ [Execute c q])
                 = if Nat.eqb c c' then (stmts_on c' (trace s) ++ [q])%list
                   else stmts_on c' (trace s)).
  { intros c'. rewrite stmts_on_snoc. destruct (Nat.eqb c c'); [reflexivity|].
    apply app_nil_r. }
  split; [split|]; simpl.
  - intros c'. rewrite Hs. destruct (Nat.eqb c c') eqn:E; [|apply H1].
    apply Nat.eqb_eq in E. subst c'. now rewrite Hr.
  - intros c' Hc'. rewrite Hs. destruct (Nat.eqb c c') eqn:E; [|apply H2; lia].
    apply Nat.eqb_eq in E. lia.
  - split; [lia|]. rewrite Hs, Nat.eqb_refl, Hr. eauto.
Qed.

(** The first statement on a new connection, when it is the pragma. *)
Lemma unused_pragma (c : nat) (d : option database) (l : list connection)
    (s : sys) :
  unused c s -> length l = length (conns s) ->
  working c (upd_db d l (Execute c PRAGMA_foreign_keys_ON) s).
Proof.
  intros ([H1 H2] & Hc & Hr) Hl.
  assert (Hs : forall c', stmts_on c'
                            (trace s ++ [Execute c PRAGMA_foreign_keys_ON])
                 = if Nat.eqb c c'
                   then (stmts_on c' (trace s) ++ [PRAGMA_foreign_keys_ON])%list
                   else stmts_on c' (trace s)).
  { intros c'. rewrite stmts_on_snoc. destruct (Nat.eqb c c'); [reflexivity|].
    apply app_nil_r. }
  split; [split|]; simpl.
  - intros c'. rewrite Hs. destruct (Nat.eqb c c') eqn:E; [|apply H1].
    apply Nat.eqb_eq in E. subst c'. now rewrite Hr.
  - intros c' Hc'. rewrite Hs. destruct (Nat.eqb c c') eqn:E; [|apply H2; lia].
    apply Nat.eqb_eq in E. lia.
  - split; [lia|]. rewrite Hs, Nat.eqb_refl, Hr. eauto.
Qed.

(** The first statement on a new connection, when it is SELECT 1. *)
Lemma unused_select_1 (c : nat) (d : option database) (l : list connection)
    (s : sys) :
  unused c s -> length l = length (conns s) ->
  tidy (upd_db d l (Execute c SELECT_1) s).
Proof.
  intros ([H1 H2] & Hc & Hr) Hl.
  assert (Hs : forall c', stmts_on c' (trace s ++ [Execute c SELECT_1])
                 = if Nat.eqb c c'
                   then (stmts_on c' (trace s) ++ [SELECT_1])%list
                   else stmts_on c' (trace s)).
  { intros c'. rewrite stmts_on_snoc. destruct (Nat.eqb c c'); [reflexivity|].
    apply app_nil_r. }
  split; simpl.
  - intros c'. rewrite Hs. destruct (Nat.eqb c c') eqn:E; [|apply H1].
    apply Nat.eqb_eq in E. subst c'. now rewrite Hr.
  - intros c' Hc'. rewrite Hs. destruct (Nat.eqb c c') eqn:E; [|apply H2; lia].
    apply Nat.eqb_eq in E. lia.
Qed.

Lemma working_tidy (c : nat) (s : sys) : working c s -> tidy s.
Proof. now intros [H _]. Qed.

Lemma working_event (c : nat) (d : option database) (l : list connection)
    (ev : event) (s : sys) :
  match ev with Execute _ _ => False | _ => True end ->
  length l = length (conns s) ->
  working c s -> working c (upd_db d l ev s).
Proof.
  intros Hev Hl (Ht & Hc & rest & Hr). split; [|split].
  - apply tidy_event; auto; lia.
  - simpl. lia.
  - exists rest. simpl. rewrite stmts_on_snoc_other; [exact Hr|].
    now destruct ev.
Qed.

(** A new connection has sent nothing yet. *)
Lemma connect_unused (st : site) :
  triple tidy (sqlite3_connect e st) unused (fun _ => tidy).
Proof.
  apply connect_moves. intros s Ht. split; [|split].
  - apply tidy_event; auto. rewrite length_app. lia.
  - simpl. rewrite length_app. simpl. lia.
  - simpl. rewrite stmts_on_snoc_other; [|exact I].
    destruct Ht as [_ H2]. apply H2. lia.
Qed.

End Trace.

(** The side conditions [keeps_tac] leaves for [working] and [tidy]. *)
Ltac trace_side :=
  try (intros; first [ assumption
                     | apply working_execute; assumption
                     | apply working_event; [exact I|assumption|assumption]
                     | apply tidy_event; [exact I|lia|assumption] ]).

Section TracePhases.
Import Sqlite Script.
Context (e : environ).

Lemma probe_tidy : keeps tidy (probe e).
Proof.
  unfold probe. apply keeps_bind; [apply keeps_db_file_exists|].
  intros [|]; [|apply keeps_print; auto].
  apply keeps_bind; [apply keeps_print; auto|]. intros u.
  apply keeps_try; [|intros x; apply keeps_print; auto].
  eapply triple_seq; [apply connect_unused| |]; [auto|]. intros c.
  eapply triple_seq with (R := fun _ => tidy) (E1 := fun _ => tidy).
  - apply execute_moves. intros d l s. apply unused_select_1.
  - auto.
  - intros r. change (keeps tidy (conn_close e at_probe_close c;;
                                  print "Database is accessible and working.")).
    keeps_tac; trace_side.
Qed.

Lemma provision_db_tidy : keeps tidy (provision_db e).
Proof.
  unfold provision_db.
  eapply triple_seq; [apply connect_unused| |]; [auto|]. intros c.
  eapply triple_seq with (R := fun _ => working c) (E1 := fun _ => working c).
  - apply execute_moves. intros d l s. apply unused_pragma.
  - intros x s. apply working_tidy.
  - intros r.
    eapply triple_conseq with (P := working c) (Q := fun _ => working c)
                              (E := fun _ => working c);
      [| auto | intros a s; apply working_tidy | intros x s; apply working_tidy].
    change (keeps (working c)
              (create_schema e c;; upsert_app_info e c;; seed_todos e c;;
               commit_and_count e c)).
    unfold create_schema, upsert_app_info, seed_todos, commit_and_count.
    keeps_tac; trace_side.
Qed.

(** However the script ends, its connections are tidy. *)
Lemma main_tidy : keeps tidy (main e).
Proof.
  unfold main.
  apply keeps_bind; [apply keeps_print; auto|]. intros u.
  apply keeps_bind; [apply probe_tidy|]. intros v.
  apply keeps_bind; [apply provision_db_tidy|]. intros counts.
  eapply triple_bind with (R := fun _ => tidy).
  - eapply triple_conseq; [apply (write_artifacts_triple e tidy) | | |]; auto.
    now intros x s [H _].
  - intros [a b]. eapply triple_conseq; [apply (report_triple e tidy) | | |];
      auto. intros x s [].
Qed.

End TracePhases.

(* ===================================================================== *)
(** ** When the main connection gets through *)
(* ===================================================================== *)

Section Progress.
Import Sqlite Script.
Context (e : environ).

Lemma max_id_nonneg (ids : list Z) : 0 <= max_id ids.
Proof. induction ids; simpl; lia. Qed.

Lemma max_id_app (a b : list Z) :
  max_id (a ++ b) = Z.max (max_id a) (max_id b).
Proof.
  induction a as [|x a IH]; simpl.
  - pose proof (max_id_nonneg b). lia.
  - rewrite IH. lia.
Qed.

Lemma max_id_filter {R : Type} (id : R -> Z) (p : R -> bool) (l : list R) :
  max_id (map id (List.filter p l)) <= max_id (map id l).
Proof.
  induction l as [|x l IH]; simpl; [lia|].
  destruct (p x); simpl; lia.
Qed.

Lemma new_rowid_ok (sq : Z) (ids : list Z) :
  Z.max sq (max_id ids) < MAX_ROWID ->
  new_rowid sq ids = Ok (Z.max sq (max_id ids) + 1).
Proof.
  intros H. unfold new_rowid. apply Z.ltb_lt in H. now rewrite H.
Qed.

(** REPLACE statements go through while ids are left, and use up one
    each. *)
Lemma upserts_progress (l : list (site * sql)) (d : database)
    (t : table app_info_row) :
  Forall (fun p => fault e p.1 = None /\ is_upsert p.2 = true) l ->
  top ai_id (Some t) + Z.of_nat (length l) <= MAX_ROWID ->
  exists t', stmts e l (set_app_info (Some t) d)
             = Ok (set_app_info (Some t') d).
Proof.
  intros Hl. revert t. induction Hl as [|[st q] l [Hf Hq] Hl IH]; intros t Ht.
  - exists t. reflexivity.
  - destruct q; try discriminate Hq. cbn [fst] in Hf.
    cbn [stmts]. unfold stmt. rewrite Hf. cbn [Sqlite.exec].
    unfold insert_or_replace_app_info. cbn [app_info set_app_info].
    cbn [top length] in Ht.
    rewrite new_rowid_ok by lia.
    match goal with
    | |- context [set_app_info (Some ?t1) (set_app_info _ d)] =>
        destruct (IH t1) as [t' Ht']
    end.
    + cbn [top seq rows]. rewrite map_app, max_id_app. cbn [map max_id fold_right ai_id].
      pose proof (max_id_filter ai_id
                    (fun r => negb (String.eqb (ai_key r) key)) (rows t)).
      pose proof (max_id_nonneg (map ai_id (rows t))).
      lia.
    + exists t'. exact Ht'.
Qed.

Lemma inserts_progress (l : list (site * sql)) (d : database)
    (t : table todos_row) :
  Forall (fun p => fault e p.1 = None /\ is_insert p.2 = true) l ->
  top td_id (Some t) + Z.of_nat (length l) <= MAX_ROWID ->
  exists t', stmts e l (set_todos (Some t) d) = Ok (set_todos (Some t') d).
Proof.
  intros Hl. revert t. induction Hl as [|[st q] l [Hf Hq] Hl IH]; intros t Ht.
  - exists t. reflexivity.
  - destruct q; try discriminate Hq. cbn [fst] in Hf.
    cbn [stmts]. unfold stmt. rewrite Hf. cbn [Sqlite.exec].
    unfold insert_todos. cbn [todos set_todos].
    cbn [top length] in Ht.
    rewrite new_rowid_ok by lia.
    match goal with
    | |- context [set_todos (Some ?t1) (set_todos _ d)] =>
        destruct (IH t1) as [t' Ht']
    end.
    + cbn [top seq rows]. rewrite map_app, max_id_app.
      cbn [map max_id fold_right td_id].
      pose proof (max_id_nonneg (map td_id (rows t))). lia.
    + exists t'. exact Ht'.
Qed.

Hypothesis no_fault : forall st, caught st = false -> fault e st = None.

Lemma schema_progress (d : database) :
  stmts e schema_stmts d = Ok (with_schema d).
Proof.
  unfold schema_stmts, stmts, stmt.
  rewrite !no_fault by reflexivity.
  destruct d as [[a|] [u|] [t|] [|]]; reflexivity.
Qed.

Lemma seed_progress (d : database) (t : table todos_row) :
  top td_id (Some t) + 3 <= MAX_ROWID ->
  exists t', seed_after e (set_todos (Some t) d)
             = Ok (set_todos (Some t') d).
Proof.
  intros Ht. unfold seed_after. destruct (seed_flag e); [|eauto].
  unfold stmt at 1. rewrite no_fault by reflexivity.
  cbn [Sqlite.exec todos set_todos].
  destruct (Z.of_nat (length (rows t)) =? 0)%Z; [|eauto].
  apply inserts_progress; [|exact Ht].
  repeat constructor; apply no_fault; reflexivity.
Qed.

(** With no fault outside the [try] blocks and row ids left, the main
    connection gets through. *)
Lemma db_after_progress (d0 : database) :
  room d0 -> exists d, db_after e d0 = Ok d.
Proof.
  intros [Ha Ht]. unfold db_after, txn_after, finish_after, check.
  rewrite !no_fault by reflexivity. cbn [and_then].
  unfold pragma_stmts, stmts at 1, stmt. rewrite no_fault by reflexivity.
  cbn [Sqlite.exec and_then]. rewrite schema_progress. cbn [and_then].
  destruct (upserts_progress upsert_stmts
              {| app_info := None; users := users (with_schema d0);
                 todos := todos (with_schema d0);
                 trg_todos_updated_at := true |}
              (default empty_table (app_info d0))) as [ta Hu].
  { repeat constructor; apply no_fault; reflexivity. }
  { destruct (app_info d0) as [a|]; cbn in Ha |- *; lia. }
  change (set_app_info (Some (default empty_table (app_info d0))) _)
    with (with_schema d0) in Hu.
  rewrite Hu. cbn [and_then].
  destruct (seed_progress
              {| app_info := Some ta; users := users (with_schema d0);
                 todos := None; trg_todos_updated_at := true |}
              (default empty_table (todos d0))) as [tt' Hs].
  { destruct (todos d0) as [a|]; cbn in Ht |- *; lia. }
  match type of Hs with
  | seed_after e ?x = _ =>
      match goal with
      | |- context [seed_after e ?y] => change y with x
      end
  end.
  rewrite Hs. cbn [and_then].
  unfold stat_stmts, stmts, stmt. rewrite !no_fault by reflexivity.
  cbn. eauto.
Qed.

End Progress.

Section Faults.
Import Sqlite Script.
Context (e : environ).

Lemma stmts_ok_faults (l : list (site * sql)) (d d' : database) :
  stmts e l d = Ok d' -> Forall (fun p => fault e p.1 = None) l.
Proof.
  revert d. induction l as [|[st q] l IH]; intros d H; [constructor|].
  apply stmts_cons_ok in H as (d1 & r & Hq & H).
  constructor; [now apply stmt_ok in Hq|eauto].
Qed.

(** When the main connection gets through, none of its calls met a
    fault; this covers the three INSERTs of the seeding step when seeding
    takes place. *)
Lemma db_after_faults (d0 d : database) :
  db_after e d0 = Ok d ->
  (forall st, always_fatal st = true -> fault e st = None)
  /\ (seeding e d0 = true ->
      forall i, (i < 3)%nat -> fault e (at_seed_insert i) = None).
Proof.
  intros H. apply db_after_txn in H. unfold txn_after in H.
  apply and_then_ok in H as ([] & Hc & H). apply check_ok in Hc.
  apply and_then_ok in H as (d0' & H0 & H).
  apply and_then_ok in H as (d1 & H1 & H).
  apply and_then_ok in H as (d2 & H2 & H).
  pose proof (stmts_ok_faults _ _ _ H1) as F1.
  pose proof (stmts_ok_faults _ _ _ H2) as F2.
  split.
  - unfold schema_stmts in F1. unfold upsert_stmts in F2.
    repeat match goal with
           | F : Forall _ (_ :: _) |- _ => apply Forall_cons in F as [? F]
           end.
    intros st Hst. destruct st; try discriminate Hst; assumption.
  - intros Hs i Hi.
    assert (T : rows_of (todos d2) = rows_of (todos d0)).
    { rewrite (stmts_keep_todos e upsert_stmts _ _
                 ltac:(repeat constructor) H2).
      rewrite (stmts_keep_todos e schema_stmts _ _
                 ltac:(repeat constructor) H1).
      apply (stmts_keep_todos e pragma_stmts _ _
               ltac:(repeat constructor) H0). }
    unfold seeding in Hs. apply andb_true_iff in Hs as [Hf Hz].
    unfold seed_after in H. rewrite Hf in H.
    destruct (stmt e at_seed_count SELECT_COUNT_FROM_todos d2)
      as [[d2' r]|y] eqn:Hq; [|discriminate].
    destruct (count_todos_result e _ _ _ _ Hq) as [-> ->].
    rewrite T, Hz in H.
    apply stmts_ok_faults in H. unfold seed_stmts in H.
    cbn [seed_stmts_from sample_todos] in H.
    repeat match goal with
           | F : Forall _ (_ :: _) |- _ => apply Forall_cons in F as [? F]
           end.
    destruct i as [|[|[|i]]]; [assumption..|lia].
Qed.

End Faults.

(* ===================================================================== *)
(** ** Output and files *)
(* ===================================================================== *)

Section Effects.
Import Sqlite Script.
Context (e : environ).
Implicit Types (P : sys -> Prop).

Lemma triple_any {A : Type} (m : M A) :
  triple (fun _ => True) m (fun _ _ => True) (fun _ _ => True).
Proof. intros s _. now destruct (m s) as [[a|x] s']. Qed.

(** The main connection keeps what depends neither on the file, nor on
    the connections, nor on the events, and survives printing. *)
Lemma provision_db_keeps P :
  (forall l s, P s -> P (emit l s)) ->
  (forall d l ev s, P s -> P (upd_db d l ev s)) ->
  keeps P (provision_db e).
Proof.
  intros He Hu.
  unfold provision_db, create_schema, upsert_app_info, seed_todos,
    commit_and_count.
  keeps_tac; auto.
Qed.

(** When the file exists and a call of the probe fails, the warning is
    printed with the message of the exception. *)
Lemma probe_warns :
  triple (fun s => is_Some (disk s)) (probe e)
    (fun _ s' => forall x, probe_fault e = Some x ->
                           In (probe_warning x) (stdout s'))
    (fun _ _ => False).
Proof.
  unfold probe. intros s [d0 Hd]. revert s Hd.
  change (triple (fun s => disk s = Some d0)
            (db_exists ← db_file_exists;
             if (db_exists : bool)
             then print ("SQLite database already exists at " +:+ DB_NAME);;
                  try_except
                    (conn ← sqlite3_connect e at_probe_connect;
                     execute e at_probe_select conn SELECT_1;;
                     conn_close e at_probe_close conn;;
                     print "Database is accessible and working.")
                    (fun msg => print (probe_warning msg))
             else print "Creating new SQLite database...")
            (fun _ s' => forall x, probe_fault e = Some x ->
                                   In (probe_warning x) (stdout s'))
            (fun _ _ => False)).
  eapply triple_bind with (R := fun b s => b = true /\ on_disk s = d0).
  { intros s Hd. unfold db_file_exists, on_disk. rewrite Hd. auto. }
  intros b. apply triple_pure. intros ->.
  eapply triple_bind with (R := fun _ s => on_disk s = d0).
  { apply triple_print. auto. }
  intros u.
  eapply triple_try with (R := fun x _ => probe_fault e = Some x).
  - eapply triple_seq; [apply connect_triple| |].
    { intros x s [H _]. unfold check in H. unfold probe_fault.
      destruct (fault e at_probe_connect); [congruence|discriminate]. }
    intros c. apply triple_pure. intros Hc. apply check_ok in Hc.
    eapply triple_seq; [apply execute_triple| |].
    { intros x s [H _]. unfold stmt in H. unfold probe_fault. rewrite Hc.
      destruct (fault e at_probe_select); [congruence|discriminate]. }
    intros r. apply triple_exists. intros d'. apply triple_pure.
    cbn [seen is_dml is_some orb]. intros H. apply stmt_ok in H as [Hs H].
    eapply triple_seq; [apply close_triple| |].
    { intros x s [H' _]. unfold check in H'. unfold probe_fault.
      rewrite Hc, Hs.
      destruct (fault e at_probe_close); [congruence|discriminate]. }
    intros v. apply triple_pure. intros Hl. apply check_ok in Hl.
    apply triple_print. intros s _ x Hx. unfold probe_fault in Hx.
    rewrite Hc, Hs, Hl in Hx. discriminate.
  - intros x. apply triple_print. intros s Hx y Hy. simpl.
    apply in_or_app. right. left. congruence.
Qed.

Lemma getcwd_result P :
  triple P (os_getcwd e) (fun r s => r = cwd e /\ P s) (fun _ _ => True).
Proof.
  unfold os_getcwd. eapply triple_seq; [apply triple_may_fail| |]; [auto|].
  intros u. apply triple_ret. now intros s [_ H].
Qed.

Lemma abspath_result P (path : string) :
  triple P (os_path_abspath e path)
    (fun r s => r = PosixPath.abspath (cwd e) path /\ P s) (fun _ _ => True).
Proof.
  unfold os_path_abspath.
  eapply triple_seq; [apply triple_may_fail| |]; [auto|].
  intros u. apply triple_ret. now intros s [_ H].
Qed.

Lemma artifacts_emit (l : string) (s : sys) :
  artifacts e s -> artifacts e (emit l s).
Proof.
  intros (W1 & W2 & F1 & F2). repeat split; simpl; auto;
    intros x Hx; apply in_or_app; left; auto.
Qed.

(** The two files: each [try] leaves the file or the warning. *)
Lemma write_artifacts_effects :
  triple (fun _ => True) (write_artifacts e) (fun _ => artifacts e)
    (fun _ _ => True).
Proof.
  unfold write_artifacts.
  pose (A1 := fun s : sys =>
    (forall x, fault e at_write_db_connection = Some x ->
               In (db_connection_warning x) (stdout s))
    /\ (fault e at_write_db_connection = None ->
        files s !! "db_connection.txt" = Some (db_connection_txt e))).
  assert (A1e : forall l s, A1 s -> A1 (emit l s)).
  { intros l s [W F]. split; simpl; auto.
    intros x Hx. apply in_or_app. left. auto. }
  eapply triple_bind; [apply (getcwd_result (fun _ => True))|].
  intros current_dir. apply triple_pure. intros ->.
  eapply triple_bind with (R := fun _ => A1).
  { eapply triple_try
      with (R := fun x _ => fault e at_write_db_connection = Some x).
    - eapply triple_bind
        with (R := fun _ s =>
                fault e at_write_db_connection = None
                /\ files s !! "db_connection.txt" = Some (db_connection_txt e)).
      + unfold write_file.
        eapply triple_seq; [apply triple_may_fail| |].
        * now intros x s [H _].
        * intros u. apply triple_act. intros s [H _]. split; [exact H|].
          simpl. apply lookup_insert_eq.
      + intros u. apply triple_print. intros s [H F]. split; simpl; auto.
        intros x Hx. congruence.
    - intros x. apply triple_print. intros s Hx. split; simpl.
      + intros y Hy. apply in_or_app. right. left.
        unfold db_connection_warning. congruence.
      + intros Hn. congruence. }
  intros u.
  eapply triple_bind; [apply (abspath_result A1)|].
  intros db_path. apply triple_pure. intros ->.
  eapply triple_bind with (R := fun _ => A1).
  { intros s Hs. exact Hs. }
  intros there.
  eapply triple_bind with (R := fun _ => A1).
  { assert (K : keeps A1
      (if negb there
       then os_makedirs e "db_visualizer";;
            print "Created db_visualizer directory"
       else mret tt)) by (keeps_tac; auto).
    eapply triple_conseq; [apply K| | |]; auto. }
  intros v.
  eapply triple_bind with (R := fun _ => artifacts e);
    [|intros w; now apply triple_ret].
  eapply triple_try
    with (R := fun x s => fault e at_write_sqlite_env = Some x /\ A1 s).
  - eapply triple_bind
      with (R := fun _ s =>
              fault e at_write_sqlite_env = None /\ A1 s
              /\ files s !! "db_visualizer/sqlite.env" = Some (sqlite_env e)).
    + unfold write_file.
      eapply triple_seq; [apply triple_may_fail| |].
      * intros x s H. exact H.
      * intros w. apply triple_act. intros s [H [W F]].
        split; [exact H|]. split; [split|]; simpl; auto.
        -- intros Hn. rewrite lookup_insert_ne by discriminate. auto.
        -- apply lookup_insert_eq.
    + intros w. apply triple_print. intros s (H & [W F] & F2).
      repeat split; simpl; auto.
      * intros x Hx. apply in_or_app. left. auto.
      * intros x Hx. congruence.
  - intros x. apply triple_print. intros s [Hx [W F]].
    repeat split; simpl; auto.
    + intros y Hy. apply in_or_app. left. auto.
    + intros y Hy. apply in_or_app. right. left.
      unfold sqlite_env_warning. congruence.
    + intros Hn. congruence.
Qed.

(** A script that exits normally has left the two files or the
    warnings. *)
Lemma main_artifacts :
  triple (fun _ => True) (main e) (fun _ => artifacts e) (fun _ _ => True).
Proof.
  unfold main.
  eapply triple_bind with (R := fun _ _ => True); [apply triple_any|].
  intros u.
  eapply triple_bind with (R := fun _ _ => True); [apply triple_any|].
  intros v.
  eapply triple_bind with (R := fun _ _ => True); [apply triple_any|].
  intros counts.
  eapply triple_bind; [apply write_artifacts_effects|].
  intros [a b].
  eapply triple_conseq; [apply (report_triple e (artifacts e))| | |]; auto.
  apply artifacts_emit.
Qed.

(** The warning of the probe stays in the output to the end. *)
Lemma main_probe_warning :
  triple (fun s => is_Some (disk s)) (main e)
    (fun _ s' => forall x, probe_fault e = Some x ->
                           In (probe_warning x) (stdout s'))
    (fun _ _ => True).
Proof.
  pose (W := fun s : sys => forall x, probe_fault e = Some x ->
                                      In (probe_warning x) (stdout s)).
  assert (We : forall l s, W s -> W (emit l s)).
  { intros l s H x Hx. simpl. apply in_or_app. left. auto. }
  unfold main.
  eapply triple_bind with (R := fun _ s => is_Some (disk s)).
  { apply triple_print. auto. }
  intros u.
  eapply triple_bind with (R := fun _ => W).
  { eapply triple_conseq; [apply probe_warns| | |]; auto. }
  intros v.
  eapply triple_bind with (R := fun _ => W).
  { eapply triple_conseq; [apply (provision_db_keeps W)| | |]; auto. }
  intros counts.
  eapply triple_bind with (R := fun _ => W).
  { eapply triple_conseq; [apply (write_artifacts_triple e W)| | |]; auto. }
  intros [a b].
  eapply triple_conseq; [apply (report_triple e W)| | |]; auto.
Qed.

End Effects.

(* ===================================================================== *)
(** ** Paths *)
(* ===================================================================== *)

Section Paths.
Import PyStr PosixPath.

Lemma append_cons (x : ascii) (a b : string) :
  String x a +:+ b = String x (a +:+ b).
Proof. reflexivity. Qed.

Lemma append_nil (b : string) : EmptyString +:+ b = b.
Proof. reflexivity. Qed.

Lemma append_assoc (a b c : string) : (a +:+ b) +:+ c = a +:+ (b +:+ c).
Proof.
  induction a as [|x a IH]; [reflexivity|].
  rewrite !append_cons. f_equal. exact IH.
Qed.

Lemma append_empty_r (a : string) : a +:+ EmptyString = a.
Proof.
  induction a as [|x a IH]; [reflexivity|].
  rewrite append_cons. f_equal. exact IH.
Qed.

Lemma split_nonempty (s : string) : split sep s <> [].
Proof.
  induction s as [|c s IH]; simpl; [discriminate|].
  destruct (Ascii.eqb c sep); [discriminate|].
  destruct (split sep s); [contradiction|discriminate].
Qed.

(** Splitting around a separator. *)
Lemma split_app_sep (a b : string) :
  split sep (a +:+ String sep b) = (split sep a ++ split sep b)%list.
Proof.
  induction a as [|c a IH]; [reflexivity|].
  rewrite append_cons. simpl.
  - destruct (Ascii.eqb c sep); simpl; [now rewrite IH|].
    rewrite IH. destruct (split sep a) eqn:E; [|reflexivity].
    now apply split_nonempty in E.
Qed.

Lemma split_no_sep (s : string) : no_sep s = true -> split sep s = [s].
Proof.
  induction s as [|c s IH]; simpl; [reflexivity|].
  intros H. apply andb_true_iff in H as [Hc Hs].
  apply negb_true_iff in Hc. rewrite Hc, (IH Hs). reflexivity.
Qed.

Lemma split_all_no_sep (s : string) :
  Forall (fun c => no_sep c = true) (split sep s).
Proof.
  induction s as [|c s IH]; simpl; [repeat constructor|].
  destruct (Ascii.eqb c sep) eqn:E; [constructor; [reflexivity|exact IH]|].
  destruct (split sep s) as [|h t]; [repeat constructor; simpl; now rewrite E|].
  inversion IH; subst. constructor; [|assumption]. simpl. now rewrite E.
Qed.

Lemma walk_app (d : list string) (l1 l2 : list string) :
  walk d (l1 ++ l2) = walk (walk d l1) l2.
Proof.
  revert d. induction l1 as [|c l1 IH]; intros d; simpl; [reflexivity|].
  destruct (String.eqb c EmptyString || String.eqb c "."); [apply IH|].
  destruct (String.eqb c ".."); apply IH.
Qed.

Lemma walk_entry (d : list string) (c : string) (l : list string) :
  entry_name c -> walk d (c :: l) = walk (d ++ [c]) l.
Proof.
  intros (H1 & H2 & H3 & _). simpl.
  apply String.eqb_neq in H1, H2, H3. now rewrite H1, H2, H3.
Qed.

Lemma walk_entries (d l : list string) :
  Forall entry_name l -> walk d l = (d ++ l)%list.
Proof.
  intros H. revert d. induction H as [|c l Hc Hl IH]; intros d.
  - simpl. now rewrite app_nil_r.
  - rewrite walk_entry by exact Hc. rewrite IH, <- app_assoc. reflexivity.
Qed.

Lemma removelast_Forall {T : Type} (P : T -> Prop) (l : list T) :
  Forall P l -> Forall P (removelast l).
Proof.
  induction 1 as [|x l Hx Hl IH]; simpl; [constructor|].
  destruct l; [constructor|]. constructor; assumption.
Qed.

(** Walking yields entry names. *)
Lemma walk_names (d l : list string) :
  Forall entry_name d -> Forall (fun c => no_sep c = true) l ->
  Forall entry_name (walk d l).
Proof.
  intros Hd Hl. revert d Hd. induction Hl as [|c l Hc Hl IH]; intros d Hd;
    simpl; [exact Hd|].
  destruct (String.eqb c EmptyString) eqn:E1; simpl; [now apply IH|].
  destruct (String.eqb c ".") eqn:E2; simpl; [now apply IH|].
  destruct (String.eqb c "..") eqn:E3.
  - apply IH. now apply removelast_Forall.
  - apply IH. apply Forall_app. split; [exact Hd|].
    constructor; [|constructor].
    apply String.eqb_neq in E1, E2, E3. now repeat split.
Qed.

(** On an absolute path the loop of [normpath] is the walk. *)
Lemma norm_step_walk (n : nat) (l d : list string) :
  n <> 0%nat -> Forall (fun c => no_sep c = true) l -> Forall entry_name d ->
  fold_left (norm_step n) l d = walk d l.
Proof.
  intros Hn Hl. revert d. induction Hl as [|c l Hc Hl IH]; intros d Hd; simpl;
    [reflexivity|].
  unfold norm_step at 2.
  destruct (String.eqb c EmptyString || String.eqb c ".") eqn:E0;
    [now apply IH|].
  destruct (String.eqb c "..") eqn:E3; cbn [negb orb].
  - assert (Hz : Nat.eqb n 0 = false) by now apply Nat.eqb_neq.
    rewrite Hz. cbn [andb orb].
    assert (Hlast : bool_decide (last d = Some "..") = false).
    { apply bool_decide_eq_false. intros Hlast.
      apply last_Some in Hlast as [d' ->].
      apply Forall_app in Hd as [_ Hd]. inversion Hd as [|? ? Hx]; subst.
      now destruct Hx as (_ & _ & Hx & _). }
    rewrite Hlast. apply IH. now apply removelast_Forall.
  - apply IH. apply Forall_app. split; [exact Hd|].
    constructor; [|constructor].
    apply orb_false_iff in E0 as [E1 E2].
    apply String.eqb_neq in E1, E2, E3.
    repeat split; auto.
Qed.

Lemma walk_split_join (d comps : list string) :
  Forall entry_name comps ->
  walk d (split sep (PyStr.join "/" comps)) = (d ++ comps)%list.
Proof.
  intros H. revert d. induction H as [|x l Hx Hl IH]; intros d.
  - simpl. now rewrite app_nil_r.
  - destruct l as [|y r].
    + simpl. rewrite split_no_sep by apply Hx. now apply walk_entry.
    + change (PyStr.join "/" (x :: y :: r))
        with (x +:+ String sep (PyStr.join "/" (y :: r))).
      rewrite split_app_sep, walk_app, split_no_sep by apply Hx.
      rewrite walk_entry by exact Hx. cbn [walk].
      rewrite IH, <- app_assoc. reflexivity.
Qed.

Lemma walk_split_slashes (n : nat) (s : string) (d : list string) :
  walk d (split sep (slashes n +:+ s)) = walk d (split sep s).
Proof.
  induction n as [|n IH]; [reflexivity|].
  change (slashes (S n) +:+ s) with (String sep (slashes n +:+ s)).
  exact IH.
Qed.

Lemma prefix_empty (r : string) : String.prefix EmptyString r = true.
Proof. now destruct r. Qed.

Lemma prefix_sep (r : string) : String.prefix "/" (String sep r) = true.
Proof.
  cbn [String.prefix]. destruct (ascii_dec "/" sep); [|contradiction].
  apply prefix_empty.
Qed.

Lemma isabs_cons (r : string) : isabs (String sep r) = true.
Proof. apply prefix_sep. Qed.

Lemma isabs_inv (p : string) : isabs p = true -> exists r, p = String sep r.
Proof.
  unfold isabs, startswith. destruct p as [|c r]; cbn [String.prefix];
    [discriminate|].
  destruct (ascii_dec "/" c) as [<-|]; [eauto|discriminate].
Qed.

(** [normpath] does not change what an absolute path names. *)
Lemma resolve_normpath (p : string) :
  isabs p = true -> resolve (normpath p) = resolve p.
Proof.
  intros Hp. destruct (isabs_inv p Hp) as [r ->].
  unfold normpath. cbn [String.eqb].
  set (n := initial_slashes (String sep r)).
  assert (Hn : exists k, n = S k).
  { unfold n, initial_slashes, startswith. rewrite prefix_sep.
    destruct (_ && _); eauto. }
  destruct Hn as [k Hk].
  rewrite norm_step_walk;
    [|lia|apply split_all_no_sep|constructor].
  set (comps := walk [] (split sep (String sep r))).
  assert (Hc : Forall entry_name comps)
    by (apply walk_names; [constructor|apply split_all_no_sep]).
  rewrite Hk. change (slashes (S k)) with (String sep (slashes k)).
  rewrite append_cons. cbn [String.eqb].
  unfold resolve. rewrite !isabs_cons.
  f_equal.
  change (String sep (slashes k +:+ PyStr.join "/" comps))
    with (slashes (S k) +:+ PyStr.join "/" comps).
  rewrite walk_split_slashes, walk_split_join by exact Hc. reflexivity.
Qed.

Lemma endswith_inv (s : string) :
  endswith_char sep s = true -> exists r, s = r +:+ String sep EmptyString.
Proof.
  induction s as [|c s IH]; cbn [endswith_char]; [discriminate|].
  destruct s as [|c' s'].
  - intros H. apply Ascii.eqb_eq in H. subst c. now exists EmptyString.
  - intros H. destruct (IH H) as [r Hr]. exists (String c r).
    rewrite append_cons. now rewrite <- Hr.
Qed.

(** Joining a directory and a name names the entry of that name in the
    directory. *)
Lemma walk_join (d : list string) (dir name : string) :
  dir <> EmptyString -> entry_name name ->
  walk d (split sep (join dir name))
  = (walk d (split sep dir) ++ [name])%list.
Proof.
  intros Hd Hn. unfold join, startswith.
  assert (H1 : String.prefix "/" name = false).
  { destruct name as [|c r]; [reflexivity|]. cbn [String.prefix].
    destruct (ascii_dec "/" c) as [<-|]; [|reflexivity].
    destruct Hn as (_ & _ & _ & Hs). discriminate Hs. }
  rewrite H1.
  assert (H2 : String.eqb dir EmptyString = false) by now apply String.eqb_neq.
  rewrite H2. cbn [orb].
  assert (Hname : walk (walk d (split sep dir)) (split sep name)
                  = (walk d (split sep dir) ++ [name])%list).
  { rewrite (split_no_sep name) by apply Hn. now apply walk_entry. }
  destruct (endswith_char sep dir) eqn:He.
  - apply endswith_inv in He as [r ->].
    rewrite append_assoc, append_cons, append_nil.
    rewrite !split_app_sep, !walk_app in *.
    exact Hname.
  - change (dir +:+ "/" +:+ name) with (dir +:+ String sep name).
    rewrite split_app_sep, walk_app. exact Hname.
Qed.

Lemma myapp_db_entry : entry_name Script.DB_NAME.
Proof. repeat split; discriminate. Qed.

(** The path written to db_connection.txt names the database file. *)
Lemma resolve_db_abs_path (cwd : string) :
  isabs cwd = true ->
  resolve (cwd +:+ "/" +:+ Script.DB_NAME) = resolve_from cwd Script.DB_NAME.
Proof.
  intros Hc. unfold resolve_from, resolve. rewrite Hc.
  destruct (isabs_inv cwd Hc) as [r ->].
  change (String sep r +:+ "/" +:+ Script.DB_NAME)
    with (String sep (r +:+ String sep Script.DB_NAME)).
  rewrite isabs_cons. cbn [isabs startswith String.prefix Script.DB_NAME].
  destruct (ascii_dec "/" "m"); [discriminate|].
  f_equal.
  rewrite <- append_cons, split_app_sep, walk_app. reflexivity.
Qed.

(** So does the path written to sqlite.env. *)
Lemma resolve_abspath (cwd : string) :
  isabs cwd = true ->
  resolve (abspath cwd Script.DB_NAME) = resolve_from cwd Script.DB_NAME.
Proof.
  intros Hc. unfold abspath.
  assert (Hrel : isabs Script.DB_NAME = false) by reflexivity.
  rewrite Hrel.
  assert (Hne : cwd <> EmptyString)
    by (destruct (isabs_inv cwd Hc) as [r ->]; discriminate).
  assert (Ha : isabs (join cwd Script.DB_NAME) = true).
  { destruct (isabs_inv cwd Hc) as [r ->]. unfold join.
    change (startswith "/" Script.DB_NAME) with false. cbn iota.
    destruct (_ || _); rewrite append_cons; apply isabs_cons. }
  rewrite resolve_normpath by exact Ha.
  unfold resolve_from, resolve. rewrite Ha, Hc, Hrel. f_equal.
  rewrite (walk_join [] cwd Script.DB_NAME Hne myapp_db_entry).
  reflexivity.
Qed.

End Paths.

Section Contains.
Import PyStr.

Lemma contains_refl (s : string) : contains s s.
Proof. exists EmptyString, EmptyString. now rewrite append_empty_r. Qed.

Lemma contains_skip (x y s : string) : contains y s -> contains (x +:+ y) s.
Proof.
  intros (a & b & ->). exists (x +:+ a), b. now rewrite append_assoc.
Qed.

Lemma contains_here (x y s : string) : contains x s -> contains (x +:+ y) s.
Proof.
  intros (a & b & ->). exists a, (b +:+ y). now rewrite !append_assoc.
Qed.

End Contains.

Lemma resolve_from_entry (cwd : string) :
  PosixPath.isabs cwd = true ->
  exists dir, PosixPath.resolve cwd = Some dir
              /\ PosixPath.resolve_from cwd Script.DB_NAME
                 = Some (dir ++ [Script.DB_NAME])%list.
Proof.
  intros Hc. unfold PosixPath.resolve_from, PosixPath.resolve. rewrite Hc.
  change (PosixPath.isabs Script.DB_NAME) with false. cbn iota.
  eexists. split; reflexivity.
Qed.

(* ===================================================================== *)
(** ** Strings and the seed toggle *)
(* ===================================================================== *)

Section StringFacts.
Import PyStr Toggle.

Lemma isspace_lower_char (c : ascii) : isspace (lower_char c) = isspace c.
Proof. destruct c as [[] [] [] [] [] [] [] []]; reflexivity. Qed.

Lemma no_space_lower (s : string) : no_space (lower s) = no_space s.
Proof.
  induction s as [|c r IH]; simpl; [reflexivity|].
  now rewrite isspace_lower_char, IH.
Qed.

Lemma all_space_cons (c : ascii) (s : string) :
  all_space (String c s) <-> isspace c = true /\ all_space s.
Proof.
  unfold all_space; simpl. split.
  - inversion 1; auto.
  - intros []; constructor; auto.
Qed.

Lemma lstrip_app_space (l x : string) :
  all_space l -> lstrip (l +:+ x) = lstrip x.
Proof.
  induction l as [|c l IH]; simpl; intros H; [reflexivity|].
  apply all_space_cons in H as [Hc Hl]. rewrite Hc. auto.
Qed.

Lemma lstrip_no_space (w x : string) :
  no_space w = true -> w <> EmptyString -> lstrip (w +:+ x) = w +:+ x.
Proof.
  destruct w as [|c w]; [congruence|]; simpl; intros H _.
  apply andb_true_iff in H as [Hc _].
  apply negb_true_iff in Hc. now rewrite Hc.
Qed.

Lemma rstrip_all_space (r : string) : all_space r -> rstrip r = EmptyString.
Proof.
  induction r as [|c r IH]; simpl; intros H; [reflexivity|].
  apply all_space_cons in H as [Hc Hr]. now rewrite IH, Hc.
Qed.

Lemma rstrip_no_space_app (w r : string) :
  no_space w = true -> all_space r -> rstrip (w +:+ r) = w.
Proof.
  intros Hw Hr. induction w as [|c w IH]; simpl in *.
  - now apply rstrip_all_space.
  - apply andb_true_iff in Hw as [Hc Hw]. apply negb_true_iff in Hc.
    rewrite (IH Hw), Hc. now destruct w.
Qed.

(** A word without whitespace survives [strip] whatever whitespace is
    put around it. *)
Lemma strip_padded (l w r : string) :
  all_space l -> all_space r -> no_space w = true -> w <> EmptyString ->
  strip (l +:+ w +:+ r) = w.
Proof.
  intros Hl Hr Hw Hne. unfold strip.
  rewrite lstrip_app_space by assumption.
  rewrite lstrip_no_space by assumption.
  now apply rstrip_no_space_app.
Qed.

Lemma eq_nocase_lower (a b : string) :
  eq_nocase a b = String.eqb (lower a) (lower b).
Proof.
  revert b; induction a as [|x a IH]; intros [|y b]; simpl; try reflexivity.
  rewrite IH. now destruct (Ascii.eqb (lower_char x) (lower_char y)).
Qed.

Lemma truthy_lower (t : string) : In t truthy -> lower t = t.
Proof.
  unfold truthy; simpl.
  intros [<-|[<-|[<-|[<-|[]]]]]; reflexivity.
Qed.

(** Membership after [lower] is membership up to case. *)
Lemma str_in_lower (x : string) :
  str_in (lower x) truthy = is_truthy_word x.
Proof.
  unfold str_in, is_truthy_word, truthy; simpl.
  now rewrite !eq_nocase_lower.
Qed.

Lemma truthy_word_shape (w : string) :
  is_truthy_word w = true -> no_space w = true /\ w <> EmptyString.
Proof.
  rewrite <- str_in_lower, <- no_space_lower.
  unfold str_in, truthy; simpl. rewrite !orb_true_iff.
  intros H; split.
  - destruct H as [H|[H|[H|[H|H]]]]; try discriminate;
      apply String.eqb_eq in H; rewrite H; reflexivity.
  - intros ->. simpl in H. intuition discriminate.
Qed.

End StringFacts.

(** The toggle, in the words of the specification plus the [strip]. *)
Lemma seed_flag_spec (v : option string) :
  Toggle.seed_flag v = true
  <-> exists s, v = Some s /\ Toggle.is_truthy_word (PyStr.strip s) = true.
Proof.
  unfold Toggle.seed_flag. rewrite str_in_lower. split.
  - destruct v as [s|]; simpl; [eauto|discriminate].
  - now intros (s & -> & H).
Qed.

(** C5, as stated, fails: a value padded with blanks is not one of the
    four words, whatever the case, and still enables seeding. *)
Lemma C5_padded_value_enables :
  Toggle.seed_flag (Some " true ") = true
  /\ Toggle.is_truthy_word " true " = false.
Proof. split; reflexivity. Qed.

(** C5, amended: the toggle is on exactly when the variable is set and its
    value, once leading and trailing whitespace is removed, is one of 1,
    true, yes, y up to case; unset, or any other value, is off. *)
Theorem C5_seed_flag_iff (v : option string) :
  Toggle.seed_flag v = true
  <-> exists s, v = Some s /\ Toggle.is_truthy_word (PyStr.strip s) = true.
Proof. apply seed_flag_spec. Qed.

(** C10: whitespace around a truthy word is stripped before the
    comparison, so the padded value enables seeding. *)
Theorem C10_padded_truthy_enables (l w r : string) :
  PyStr.all_space l -> PyStr.all_space r ->
  Toggle.is_truthy_word w = true ->
  Toggle.seed_flag (Some (l +:+ w +:+ r)) = true.
Proof.
  intros Hl Hr Hw. apply seed_flag_spec. eexists; split; [reflexivity|].
  destruct (truthy_word_shape w Hw) as [Hns Hne].
  now rewrite strip_padded.
Qed.

Lemma C10_witness :
  Toggle.seed_flag (Some ("  " +:+ "TRUE" +:+ " ")) = true.
Proof.
  apply C10_padded_truthy_enables.
  - repeat constructor.
  - repeat constructor.
  - reflexivity.
Defined.

(* ===================================================================== *)
(** ** Runs and the database *)
(* ===================================================================== *)

Section Runs.
Import Sqlite Script.
Context (e : environ) (m : machine).

(** A run that exits normally has committed what [txn_after] computes. *)
Lemma run_ok_txn :
  exit (run e m) = Ok tt ->
  txn_after e (db_of m) = Ok (db_of (after (run e m))).
Proof.
  intros H. apply run_ok in H as (d & Hd & Hm).
  apply db_after_txn in Hd. unfold db_of at 2. now rewrite Hm.
Qed.

(** However a run ends, the rows of todos it found are still there, in
    front of what it added; it adds nothing unless it seeds. *)
Lemma run_todos :
  exists new,
    rows_of (todos (db_of (after (run e m))))
    = (rows_of (todos (db_of m)) ++ new)%list
    /\ (seeding e (db_of m) = false -> new = []).
Proof.
  assert (K : forall d, txn_after e (db_of m) = Ok d ->
            exists new, rows_of (todos d)
                        = (rows_of (todos (db_of m)) ++ new)%list
                        /\ (seeding e (db_of m) = false -> new = [])).
  { intros d Hd. apply txn_after_result in Hd as (_ & _ & _ & new & R & Hn).
    exists new. split; [exact R|]. intros Hs. now rewrite Hs in Hn. }
  destruct (exit (run e m)) as [[]|x] eqn:Hx.
  - apply K. now apply run_ok_txn.
  - apply run_raise in Hx as [[_ [H|H]]|[(d & Hd & Hm) _]].
    + exists []. rewrite app_nil_r. auto.
    + apply K, H.
    + apply db_after_txn in Hd. unfold db_of at 1. rewrite Hm. apply K, Hd.
Qed.

End Runs.

(* ===================================================================== *)
(** ** Claims about the database *)
(* ===================================================================== *)

(** C1, as stated, fails: the second run replaces the four rows of
    app_info by new rows, with new ids; the table does not hold the same
    rows after the first and after the second run. *)
Lemma C1_second_run_renumbers_app_info :
  let o1 := Script.run Examples.calm Script.fresh in
  let o2 := Script.run Examples.calm (Script.after o1) in
  Script.exit o1 = Ok tt /\ Script.exit o2 = Ok tt
  /\ map Sqlite.ai_id (Sqlite.rows_of (Sqlite.app_info (db_of (Script.after o1))))
     = [1; 2; 3; 4]
  /\ map Sqlite.ai_id (Sqlite.rows_of (Sqlite.app_info (db_of (Script.after o2))))
     = [5; 6; 7; 8]
  /\ Sqlite.rows_of (Sqlite.app_info (db_of (Script.after o1)))
     <> Sqlite.rows_of (Sqlite.app_info (db_of (Script.after o2))).
Proof.
  vm_compute. repeat split. discriminate.
Qed.

(** C1, amended: two runs in succession on a fresh machine, both exiting
    normally, leave the same schema and the same key/value pairs in
    app_info (the ids and created_at of the four rows are those of the
    latest run). *)
Theorem C1_two_runs_same_schema_and_pairs (e1 e2 : Script.environ) :
  let o1 := Script.run e1 Script.fresh in
  let o2 := Script.run e2 (Script.after o1) in
  Script.exit o1 = Ok tt -> Script.exit o2 = Ok tt ->
  Sqlite.schema (db_of (Script.after o1)) = Sqlite.schema (db_of (Script.after o2))
  /\ map key_value (Sqlite.rows_of (Sqlite.app_info (db_of (Script.after o1))))
     = map key_value (Sqlite.rows_of (Sqlite.app_info (db_of (Script.after o2)))).
Proof.
  intros o1 o2 H1 H2.
  apply run_ok_txn, txn_after_result in H1 as (S1 & (a1 & a2 & a3 & a4 & R1) & _).
  apply run_ok_txn, txn_after_result in H2 as (S2 & (b1 & b2 & b3 & b4 & R2) & _).
  subst o1 o2. rewrite S1, S2. split; [reflexivity|].
  rewrite R2, R1. reflexivity.
Qed.

Lemma C1_witness :
  let o1 := Script.run Examples.calm Script.fresh in
  let o2 := Script.run Examples.seeding_env (Script.after o1) in
  Sqlite.schema (db_of (Script.after o1)) = Sqlite.schema (db_of (Script.after o2))
  /\ map key_value (Sqlite.rows_of (Sqlite.app_info (db_of (Script.after o1))))
     = map key_value (Sqlite.rows_of (Sqlite.app_info (db_of (Script.after o2)))).
Proof.
  apply (C1_two_runs_same_schema_and_pairs Examples.calm Examples.seeding_env);
    vm_compute; reflexivity.
Defined.

(** C2, as stated, fails on a database that already has rows: a key the
    script does not know stays in the table, so the keys are not exactly
    the four; and the row that held version (id 1) is gone, a new row
    (id 4) stands for the key. *)
Lemma C2_other_keys_stay_old_rows_go :
  let o := Script.run Examples.calm Examples.stale in
  Script.exit o = Ok tt
  /\ map Sqlite.ai_id (Sqlite.rows_of (Sqlite.app_info (db_of Examples.stale)))
     = [1; 2]
  /\ map (fun r => (Sqlite.ai_id r, Sqlite.ai_key r))
       (Sqlite.rows_of (Sqlite.app_info (db_of (Script.after o))))
     = [ (2, "theme"); (3, "project_name"); (4, "version"); (5, "author");
         (6, "description") ].
Proof. vm_compute. repeat split. Qed.

(** C2, amended: after a run that exits normally, app_info holds the rows
    it had under other keys, untouched and in their order, followed by
    exactly one row for each of project_name, version, author and
    description with the specified value, whatever rows these keys had
    before; such earlier rows are replaced by the new ones.  When the
    table held no other key, the four pairs are all it holds. *)
Theorem C2_app_info_after_run (e : Script.environ) (m : Script.machine) :
  Script.exit (Script.run e m) = Ok tt ->
  let before := Sqlite.rows_of (Sqlite.app_info (db_of m)) in
  let after := Sqlite.rows_of
                 (Sqlite.app_info (db_of (Script.after (Script.run e m)))) in
  (exists new,
     after = (List.filter foreign_key before ++ new)%list
     /\ map key_value new = app_info_defaults)
  /\ (forallb (fun r => negb (foreign_key r)) before = true ->
      map key_value after = app_info_defaults).
Proof.
  intros H before after.
  apply run_ok_txn, txn_after_result in H as (_ & (i1 & i2 & i3 & i4 & R) & _).
  fold before after in R.
  assert (K : exists new,
            after = (List.filter foreign_key before ++ new)%list
            /\ map key_value new = app_info_defaults).
  { eexists. split; [exact R|reflexivity]. }
  split; [exact K|]. intros Hb.
  destruct K as (new & -> & Hn).
  assert (E : List.filter foreign_key before = []).
  { clear -Hb. induction before as [|r l IH]; [reflexivity|]. simpl in *.
    apply andb_true_iff in Hb as [Hr Hl].
    apply negb_true_iff in Hr. rewrite Hr. auto. }
  rewrite E. exact Hn.
Qed.

Lemma C2_witness :
  let before := Sqlite.rows_of (Sqlite.app_info (db_of Examples.stale)) in
  let after := Sqlite.rows_of
                 (Sqlite.app_info
                    (db_of (Script.after
                              (Script.run Examples.calm Examples.stale)))) in
  (exists new,
     after = (List.filter foreign_key before ++ new)%list
     /\ map key_value new = app_info_defaults)
  /\ (forallb (fun r => negb (foreign_key r)) before = true ->
      map key_value after = app_info_defaults).
Proof.
  apply (C2_app_info_after_run Examples.calm Examples.stale).
  vm_compute. reflexivity.
Defined.

(** C3: a run that exits normally inserts into todos exactly the three
    sample rows, each with completed = 0, when the toggle is on and the
    table was empty, and no row at all in every other case. *)
Theorem C3_rows_seeded (e : Script.environ) (m : Script.machine) :
  Script.exit (Script.run e m) = Ok tt ->
  let before := Sqlite.rows_of (Sqlite.todos (db_of m)) in
  let after := Sqlite.rows_of
                 (Sqlite.todos (db_of (Script.after (Script.run e m)))) in
  exists new,
    after = (before ++ new)%list
    /\ (Script.seed_flag e = true -> before = [] ->
        length new = 3%nat
        /\ map sample_of new = Script.sample_todos
        /\ Forall (fun r => Sqlite.td_completed r = 0) new)
    /\ (Script.seed_flag e = false \/ before <> [] -> new = []).
Proof.
  intros H before after.
  apply run_ok_txn, txn_after_result in H as (_ & _ & _ & new & R & Hn).
  fold before after in R. exists new. split; [exact R|].
  unfold seeding in Hn. fold before in Hn. split.
  - intros Hf Hb. rewrite Hf, Hb in Hn. simpl in Hn.
    assert (L : length new = 3%nat)
      by (rewrite <- (length_map sample_of), Hn; reflexivity).
    split; [exact L|]. split; [exact Hn|].
    assert (F : Forall (fun p : string * string * Z => p.2 = 0)
                  (map sample_of new))
      by (rewrite Hn; repeat constructor).
    apply List.Forall_map in F. exact F.
  - intros [Hf|Hb].
    + now rewrite Hf in Hn.
    + destruct before; [contradiction|].
      now rewrite andb_false_r in Hn.
Qed.

Lemma C3_witness :
  let e := Examples.seeding_env in
  let m := Script.fresh in
  let before := Sqlite.rows_of (Sqlite.todos (db_of m)) in
  let after := Sqlite.rows_of
                 (Sqlite.todos (db_of (Script.after (Script.run e m)))) in
  exists new,
    after = (before ++ new)%list
    /\ (Script.seed_flag e = true -> before = [] ->
        length new = 3%nat
        /\ map sample_of new = Script.sample_todos
        /\ Forall (fun r => Sqlite.td_completed r = 0) new)
    /\ (Script.seed_flag e = false \/ before <> [] -> new = []).
Proof.
  apply (C3_rows_seeded Examples.seeding_env Script.fresh).
  vm_compute. reflexivity.
Defined.

(** C4: whatever the database held and however the run ends, the rows
    todos had are all still there, unchanged and in their order, in front
    of the rows the run added; when no seeding takes place the table is
    exactly as it was. *)
Theorem C4_todos_rows_preserved (e : Script.environ) (m : Script.machine) :
  let before := Sqlite.rows_of (Sqlite.todos (db_of m)) in
  let after := Sqlite.rows_of
                 (Sqlite.todos (db_of (Script.after (Script.run e m)))) in
  (exists new, after = (before ++ new)%list)
  /\ (Script.seed_flag e = false \/ before <> [] -> after = before).
Proof.
  intros before after.
  destruct (run_todos e m) as (new & R & Hn). fold before after in R.
  split; [eauto|]. intros Hc.
  rewrite R, Hn, app_nil_r; [reflexivity|].
  unfold seeding. fold before. destruct Hc as [->|Hb]; [reflexivity|].
  destruct before; [contradiction|]. apply andb_false_r.
Qed.

(** C6: in a database provisioned by a run that exited normally, every
    UPDATE of todos, issued at the clock reading [now], goes through and
    leaves each row it selected with updated_at = [now], hence not earlier
    than the update, whether or not the statement assigned updated_at
    itself: the trigger created by the script sees to it. *)
Theorem C6_trigger_stamps_updates (e : Script.environ) (m : Script.machine)
    (now : Z) (u : Sqlite.update) :
  Script.exit (Script.run e m) = Ok tt ->
  let db := db_of (Script.after (Script.run e m)) in
  Sqlite.trg_todos_updated_at db = true
  /\ exists db',
       Sqlite.exec_update now u db = Ok db'
       /\ forall r,
            In r (Sqlite.rows_of (Sqlite.todos db)) ->
            Sqlite.upd_where u r = true ->
            (exists r', In r' (Sqlite.rows_of (Sqlite.todos db'))
                        /\ Sqlite.td_id r' = Sqlite.td_id r)
            /\ forall r', In r' (Sqlite.rows_of (Sqlite.todos db')) ->
                          Sqlite.td_id r' = Sqlite.td_id r ->
                          Sqlite.td_updated_at r' = now
                          /\ now <= Sqlite.td_updated_at r'.
Proof.
  intros H db.
  apply run_ok_txn, txn_after_result in H as (S & _). fold db in S.
  assert (G : Sqlite.trg_todos_updated_at db = true /\ exists t, Sqlite.todos db = Some t).
  { unfold Sqlite.schema in S.
    destruct (Sqlite.app_info db), (Sqlite.users db), (Sqlite.todos db),
      (Sqlite.trg_todos_updated_at db); try discriminate S; eauto. }
  destruct G as [G [t Ht]]. split; [exact G|].
  destruct (exec_update_stamps now u db t Ht G) as (db' & Hu & K).
  exists db'. split; [exact Hu|]. rewrite Ht. cbn [Sqlite.rows_of].
  intros r Hr Hw. destruct (K r Hr Hw) as [K1 K2]. split; [exact K1|].
  intros r' Hr' Hi. rewrite (K2 r' Hr' Hi). split; [reflexivity|lia].
Qed.

(* ===================================================================== *)
(** ** Runs: connections, output, files *)
(* ===================================================================== *)

Section RunEffects.
Import Sqlite Script.
Context (e : environ) (m : machine).

Lemma run_tidy (c : nat) :
  pragma_first_or_probe (stmts_on c (calls (run e m))) = true.
Proof.
  assert (H0 : tidy (boot m)) by (split; intros; reflexivity).
  pose proof (keeps_run tidy (main e) (boot m) (main_tidy e) H0) as [H _].
  unfold run. destruct (main e (boot m)) as [r s]. apply H.
Qed.

Lemma run_artifacts :
  exit (run e m) = Ok tt ->
  (forall x, fault e at_write_db_connection = Some x ->
             In (db_connection_warning x) (printed (run e m)))
  /\ (forall x, fault e at_write_sqlite_env = Some x ->
                In (sqlite_env_warning x) (printed (run e m)))
  /\ (fault e at_write_db_connection = None ->
      m_files (after (run e m)) !! "db_connection.txt"
      = Some (db_connection_txt e))
  /\ (fault e at_write_sqlite_env = None ->
      m_files (after (run e m)) !! "db_visualizer/sqlite.env"
      = Some (sqlite_env e)).
Proof.
  pose proof (main_artifacts e (boot m) I) as H.
  unfold run. destruct (main e (boot m)) as [[u|x] s]; simpl; [|discriminate].
  intros _. exact H.
Qed.

Lemma run_probe_warning (x : string) :
  is_Some (m_disk m) -> exit (run e m) = Ok tt ->
  probe_fault e = Some x -> In (probe_warning x) (printed (run e m)).
Proof.
  intros Hd. pose proof (main_probe_warning e (boot m) Hd) as H.
  unfold run. destruct (main e (boot m)) as [[u|y] s]; simpl; [|discriminate].
  intros _. apply H.
Qed.

End RunEffects.

(* ===================================================================== *)
(** ** Claims about connections and failures *)
(* ===================================================================== *)

(** C7, as stated, fails: when the file exists, the first connection the
    script opens sends SELECT 1 and is closed; it never sets the
    pragma. *)
Lemma C7_probe_connection_sets_no_pragma :
  let o := Script.run Examples.calm Examples.stale in
  connections (Script.calls o) = [0%nat; 1%nat]
  /\ stmts_on 0 (Script.calls o) = [Sqlite.SELECT_1]
  /\ forallb (fun c => pragma_first (stmts_on c (Script.calls o)))
       (connections (Script.calls o)) = false.
Proof. vm_compute. repeat split. Qed.

(** C7, amended: on every connection a run opens, the pragma is the first
    statement, except on a connection that sends SELECT 1 and nothing
    else (the probe).  So whatever connection creates a table or the
    trigger, or writes or counts rows, has set the pragma first. *)
Theorem C7_pragma_first_but_on_the_probe (e : Script.environ)
    (m : Script.machine) (c : nat) :
  pragma_first_or_probe (stmts_on c (Script.calls (Script.run e m))) = true
  /\ forall q, In q (stmts_on c (Script.calls (Script.run e m))) ->
               q <> Sqlite.SELECT_1 ->
               exists rest, stmts_on c (Script.calls (Script.run e m))
                            = Sqlite.PRAGMA_foreign_keys_ON :: rest.
Proof.
  pose proof (run_tidy e m c) as H. split; [exact H|].
  intros q Hq Hne.
  destruct (stmts_on c (Script.calls (Script.run e m))) as [|q1 l];
    [destruct Hq|].
  destruct q1; try discriminate H; eauto.
  destruct l; [|discriminate H].
  destruct Hq as [<-|[]]. contradiction.
Qed.

(** C9: (a) with faults only in the probe and in the two file writes,
    and row ids left in the tables, the run exits normally, and each of
    these faults shows as a warning with the message of the exception;
    (b) a fault in [sqlite3.connect], in one of the CREATE statements or
    in one of the INSERT statements (those of app_info, and those of
    todos when seeding takes place) ends the run with an exception. *)
Theorem C9_caught_and_uncaught (e : Script.environ) (m : Script.machine) :
  ((forall st, caught st = false -> Script.fault e st = None) ->
   room (db_of m) ->
   Script.exit (Script.run e m) = Ok tt
   /\ (forall x, is_Some (Script.m_disk m) -> probe_fault e = Some x ->
                 In (probe_warning x) (Script.printed (Script.run e m)))
   /\ (forall x, Script.fault e Script.at_write_db_connection = Some x ->
                 In (db_connection_warning x)
                    (Script.printed (Script.run e m)))
   /\ (forall x, Script.fault e Script.at_write_sqlite_env = Some x ->
                 In (sqlite_env_warning x) (Script.printed (Script.run e m))))
  /\ (forall st x,
        Script.fault e st = Some x ->
        always_fatal st = true
        \/ (seeding e (db_of m) = true
            /\ exists i, (i < 3)%nat /\ st = Script.at_seed_insert i) ->
        exists y, Script.exit (Script.run e m) = Raise y).
Proof.
  split.
  - intros Hf Hr.
    assert (Hx : Script.exit (Script.run e m) = Ok tt).
    { destruct (db_after_progress e Hf (db_of m) Hr) as [d Hd].
      destruct (Script.exit (Script.run e m)) as [[]|x] eqn:Hx; [reflexivity|].
      apply run_raise in Hx as [[Hx _]|[_ [H|[H|H]]]];
        [congruence| | |]; rewrite Hf in H by reflexivity; discriminate. }
    split; [exact Hx|].
    destruct (run_artifacts e m Hx) as (W1 & W2 & _).
    split; [|split]; auto.
    intros x Hd Hp. now apply run_probe_warning.
  - intros st x Hst Hc.
    destruct (Script.exit (Script.run e m)) as [[]|y] eqn:Hx; [|eauto].
    exfalso. apply run_ok in Hx as (d & Hd & _).
    apply db_after_faults in Hd as [F1 F2].
    destruct Hc as [Hc|(Hs & i & Hi & ->)].
    + rewrite (F1 st Hc) in Hst. discriminate.
    + rewrite (F2 Hs i Hi) in Hst. discriminate.
Qed.

(** A run of each kind: the probe and one write fail, the run goes on and
    prints the two warnings; the creation of the trigger fails, the run
    ends there. *)
Example rough_run_warns :
  let o := Script.run Examples.rough Examples.stale in
  Script.exit o = Ok tt
  /\ In (probe_warning "database is locked") (Script.printed o)
  /\ In (sqlite_env_warning "Permission denied") (Script.printed o)
  /\ Script.m_files (Script.after o) !! "db_visualizer/sqlite.env" = None.
Proof.
  vm_compute. repeat split; auto 20.
Qed.

Example full_disk_run_raises :
  Script.exit (Script.run Examples.full_disk Script.fresh)
  = Raise "database or disk is full".
Proof. vm_compute. reflexivity. Qed.

Lemma C6_witness :
  let db := db_of (Script.after (Script.run Examples.seeding_env Script.fresh)) in
  Sqlite.trg_todos_updated_at db = true
  /\ exists db',
       Sqlite.exec_update 200 Examples.complete_second db = Ok db'
       /\ forall r,
            In r (Sqlite.rows_of (Sqlite.todos db)) ->
            Sqlite.upd_where Examples.complete_second r = true ->
            (exists r', In r' (Sqlite.rows_of (Sqlite.todos db'))
                        /\ Sqlite.td_id r' = Sqlite.td_id r)
            /\ forall r', In r' (Sqlite.rows_of (Sqlite.todos db')) ->
                          Sqlite.td_id r' = Sqlite.td_id r ->
                          Sqlite.td_updated_at r' = 200
                          /\ 200 <= Sqlite.td_updated_at r'.
Proof.
  apply (C6_trigger_stamps_updates Examples.seeding_env Script.fresh 200
           Examples.complete_second).
  vm_compute. reflexivity.
Defined.

(** The update of the witness, evaluated: the row with id 2 is completed
    and stamped 200 although the statement wrote 0; the others are as
    they were. *)
Example complete_second_evaluated :
  let db := db_of (Script.after (Script.run Examples.seeding_env Script.fresh)) in
  match Sqlite.exec_update 200 Examples.complete_second db with
  | Ok db' =>
      map (fun r => (Sqlite.td_id r, Sqlite.td_completed r,
                     Sqlite.td_updated_at r))
        (Sqlite.rows_of (Sqlite.todos db'))
      = [ (1, 0, 100); (2, 1, 200); (3, 0, 100) ]
  | Raise _ => False
  end.
Proof. vm_compute. reflexivity. Qed.

(** Without the trigger the same statement leaves the 0 it wrote. *)
Example complete_second_without_trigger :
  let db := Sqlite.set_trigger false
              (db_of (Script.after
                        (Script.run Examples.seeding_env Script.fresh))) in
  match Sqlite.exec_update 200 Examples.complete_second db with
  | Ok db' =>
      map (fun r => (Sqlite.td_id r, Sqlite.td_completed r,
                     Sqlite.td_updated_at r))
        (Sqlite.rows_of (Sqlite.todos db'))
      = [ (1, 0, 100); (2, 1, 0); (3, 0, 100) ]
  | Raise _ => False
  end.
Proof. vm_compute. reflexivity. Qed.

(* ===================================================================== *)
(** ** Claim about the two files *)
(* ===================================================================== *)

(** C8: when the working directory is given by an absolute path and the
    run exits normally, each of the two files it wrote holds a path that
    names, entry by entry from the root, the file myapp.db of the working
    directory (the two strings may differ, as they do in the root
    directory); db_connection.txt also holds sqlite:/// followed by its
    path. *)
Theorem C8_files_name_the_database (e : Script.environ) (m : Script.machine) :
  PosixPath.isabs (Script.cwd e) = true ->
  Script.exit (Script.run e m) = Ok tt ->
  exists dir,
    PosixPath.resolve (Script.cwd e) = Some dir
    /\ (Script.fault e Script.at_write_db_connection = None ->
        exists content p,
          Script.m_files (Script.after (Script.run e m)) !! "db_connection.txt"
          = Some content
          /\ PyStr.contains content ("# File path: " +:+ p +:+ PyStr.nl)
          /\ PyStr.contains content ("sqlite:///" +:+ p)
          /\ PosixPath.resolve p = Some (dir ++ [Script.DB_NAME])%list)
    /\ (Script.fault e Script.at_write_sqlite_env = None ->
        exists content p,
          Script.m_files (Script.after (Script.run e m))
            !! "db_visualizer/sqlite.env" = Some content
          /\ PyStr.contains content p
          /\ PosixPath.resolve p = Some (dir ++ [Script.DB_NAME])%list).
Proof.
  intros Hc Hx.
  destruct (resolve_from_entry _ Hc) as (dir & Hd & Hl).
  destruct (run_artifacts e m Hx) as (_ & _ & F1 & F2).
  exists dir. split; [exact Hd|]. split.
  - intros Hf. exists (db_connection_txt e),
      (Script.cwd e +:+ "/" +:+ Script.DB_NAME).
    split; [exact (F1 Hf)|].
    unfold db_connection_txt, Script.db_connection_writes.
    cbn [String.concat]. split; [|split].
    + do 6 apply contains_skip. apply contains_here, contains_refl.
    + do 4 apply contains_skip. apply contains_here.
      apply contains_skip, contains_here, contains_refl.
    + rewrite <- Hl. now apply resolve_db_abs_path.
  - intros Hf. exists (sqlite_env e),
      (PosixPath.abspath (Script.cwd e) Script.DB_NAME).
    split; [exact (F2 Hf)|]. split.
    + unfold sqlite_env, Script.sqlite_env_writes. cbn [String.concat].
      do 2 apply contains_skip. apply contains_here, contains_refl.
    + rewrite <- Hl. now apply resolve_abspath.
Qed.

(** In the root directory the two files hold different strings for the
    same file. *)
Example root_directory_paths :
  let e := Script.quiet None "/" 100 in
  let o := Script.run e Script.fresh in
  Script.exit o = Ok tt
  /\ Script.m_files (Script.after o) !! "db_visualizer/sqlite.env"
     = Some ("export SQLITE_DB=" +:+ PyStr.dquote +:+ "/myapp.db"
             +:+ PyStr.dquote +:+ PyStr.nl)
  /\ PyStr.contains (db_connection_txt e) ("# File path: //myapp.db" +:+ PyStr.nl)
  /\ PosixPath.resolve "//myapp.db" = Some ["myapp.db"]
  /\ PosixPath.resolve "/myapp.db" = Some ["myapp.db"].
Proof.
  split; [vm_compute; reflexivity|].
  split; [vm_compute; reflexivity|].
  split; [|split; vm_compute; reflexivity].
  unfold db_connection_txt, Script.db_connection_writes.
  cbn [String.concat].
  do 6 apply contains_skip. apply contains_here, contains_refl.
Qed.

Lemma C8_witness :
  exists dir,
    PosixPath.resolve (Script.cwd Examples.calm) = Some dir
    /\ (Script.fault Examples.calm Script.at_write_db_connection = None ->
        exists content p,
          Script.m_files (Script.after (Script.run Examples.calm Script.fresh))
            !! "db_connection.txt" = Some content
          /\ PyStr.contains content ("# File path: " +:+ p +:+ PyStr.nl)
          /\ PyStr.contains content ("sqlite:///" +:+ p)
          /\ PosixPath.resolve p = Some (dir ++ [Script.DB_NAME])%list)
    /\ (Script.fault Examples.calm Script.at_write_sqlite_env = None ->
        exists content p,
          Script.m_files (Script.after (Script.run Examples.calm Script.fresh))
            !! "db_visualizer/sqlite.env" = Some content
          /\ PyStr.contains content p
          /\ PosixPath.resolve p = Some (dir ++ [Script.DB_NAME])%list).
Proof.
  apply (C8_files_name_the_database Examples.calm Script.fresh);
    vm_compute; reflexivity.
Defined.

(* ===================================================================== *)
(** ** More on the toggle *)
(* ===================================================================== *)

Section ToggleMore.
Import PyStr Toggle.

Lemma str_append_cons (x : ascii) (a b : string) :
  String x a +:+ b = String x (a +:+ b).
Proof. reflexivity. Qed.

Lemma lstrip_app (w r : string) :
  lstrip (w +:+ r)
  = match lstrip w with
    | EmptyString => lstrip r
    | x => x +:+ r
    end.
Proof.
  induction w as [|c w IH]; [reflexivity|].
  rewrite str_append_cons. cbn [lstrip].
  destruct (isspace c); [exact IH|reflexivity].
Qed.

Lemma rstrip_app_space (x r : string) :
  all_space r -> rstrip (x +:+ r) = rstrip x.
Proof.
  intros Hr. induction x as [|c x IH].
  - now apply rstrip_all_space.
  - rewrite str_append_cons. cbn [rstrip]. now rewrite IH.
Qed.

Lemma lstrip_all_space (r : string) : all_space r -> lstrip r = EmptyString.
Proof.
  induction r as [|c r IH]; simpl; intros H; [reflexivity|].
  apply all_space_cons in H as [Hc Hr]. rewrite Hc. auto.
Qed.

(** [strip] does not see whitespace put around its argument. *)
Lemma strip_padded_any (l w r : string) :
  all_space l -> all_space r -> strip (l +:+ w +:+ r) = strip w.
Proof.
  intros Hl Hr. unfold strip.
  rewrite lstrip_app_space by exact Hl. rewrite lstrip_app.
  destruct (lstrip w) as [|c x] eqn:E.
  - now rewrite (lstrip_all_space r Hr).
  - now apply rstrip_app_space.
Qed.

Lemma lower_lstrip (s : string) : lower (lstrip s) = lstrip (lower s).
Proof.
  induction s as [|c s IH]; [reflexivity|]. cbn [lstrip lower].
  rewrite isspace_lower_char. destruct (isspace c); [exact IH|reflexivity].
Qed.

Lemma lower_rstrip (s : string) : lower (rstrip s) = rstrip (lower s).
Proof.
  induction s as [|c s IH]; [reflexivity|]. cbn [rstrip lower].
  rewrite <- IH, isspace_lower_char.
  destruct (rstrip s); [destruct (isspace c)|]; reflexivity.
Qed.

(** [lower] and [strip] commute. *)
Lemma lower_strip (s : string) : lower (strip s) = strip (lower s).
Proof. unfold strip. now rewrite lower_rstrip, lower_lstrip. Qed.

End ToggleMore.

(** X1: the toggle depends on the value of SEED_TODOS only up to the case
    of its letters and the whitespace around it: two values that are the
    same up to case, one of them padded with whitespace on either side,
    give the same toggle, be it on or off. *)
Theorem X1_toggle_up_to_case_and_padding (l w w' r : string) :
  PyStr.all_space l -> PyStr.all_space r ->
  Toggle.eq_nocase w w' = true ->
  Toggle.seed_flag (Some (l +:+ w +:+ r)) = Toggle.seed_flag (Some w').
Proof.
  intros Hl Hr Hw. unfold Toggle.seed_flag. cbn [default from_option id].
  rewrite strip_padded_any by assumption.
  rewrite eq_nocase_lower in Hw. apply String.eqb_eq in Hw.
  now rewrite !lower_strip, Hw.
Qed.

Lemma X1_witness :
  Toggle.seed_flag (Some (" " +:+ "No" +:+ "  ")) = Toggle.seed_flag (Some "nO")
  /\ Toggle.seed_flag (Some (" " +:+ "YES" +:+ "  "))
     = Toggle.seed_flag (Some "yes").
Proof.
  split; apply X1_toggle_up_to_case_and_padding;
    first [reflexivity | repeat constructor].
Defined.

(* ===================================================================== *)
(** ** Properties of the database that every run keeps *)
(* ===================================================================== *)

Section Views.
Import Sqlite Script.
Context (e : environ) (R : database -> Prop).
Hypothesis HR : statement_proof R.

Lemma views_emit (l : string) (s : sys) :
  all_views R s -> all_views R (emit l s).
Proof. intros H. exact H. Qed.

Lemma views_connect (st : site) : keeps (all_views R) (sqlite3_connect e st).
Proof.
  apply connect_moves. intros s [H1 H2]. split.
  - exact H1.
  - simpl. intros i k d Hi Hk.
    apply lookup_app_Some in Hi as [Hi|[_ Hi]]; [eauto|].
    destruct (i - length (conns s))%nat; [|discriminate Hi].
    inversion Hi; subst. discriminate Hk.
Qed.

Lemma views_execute (st : site) (c : nat) (q : sql) :
  keeps (all_views R) (execute e st c q).
Proof.
  intros s [H1 H2].
  assert (H0 : all_views R (log (Execute c q) s)) by (split; assumption).
  unfold execute.
  change ((act ?f ≫= ?g) s) with (bind (act f) g s).
  unfold bind, act at 1.
  change ((may_fail e st ≫= ?g) ?s1) with (bind (may_fail e st) g s1).
  unfold bind, may_fail.
  destruct (fault e st) as [x|]; [exact H0|]. unfold act. cbn [ret mret M_ret].
  change (conns (log (Execute c q) s)) with (conns s).
  destruct (conns s !! c) as [k|] eqn:Hc; [|exact H0].
  destruct (negb (is_open k)); [exact H0|].
  assert (Hv : R (view (log (Execute c q) s) k)).
  { unfold view. destruct (txn k) as [d|] eqn:Hk; [eauto|exact H1]. }
  destruct (Sqlite.exec _ _ _) as [[d r]|x] eqn:Hq; [|exact H0].
  assert (Hd : R d) by (eapply HR; eauto).
  destruct (is_dml q || _); split; simpl.
  - exact H1.
  - intros i k' d' Hi Hk'.
    apply list_lookup_insert_Some in Hi as [(-> & <- & _)|[_ Hi]]; [|eauto].
    simpl in Hk'. now inversion Hk'; subst.
  - exact Hd.
  - intros i k' d' Hi Hk'.
    apply list_lookup_insert_Some in Hi as [(-> & <- & _)|[_ Hi]]; [|eauto].
    discriminate Hk'.
Qed.

Lemma views_commit (st : site) (c : nat) :
  keeps (all_views R) (conn_commit e st c).
Proof.
  intros s [H1 H2].
  assert (H0 : all_views R (log (Commit c) s)) by (split; assumption).
  unfold conn_commit.
  change ((act ?f ≫= ?g) s) with (bind (act f) g s).
  unfold bind, act at 1.
  change ((may_fail e st ≫= ?g) ?s1) with (bind (may_fail e st) g s1).
  unfold bind, may_fail.
  destruct (fault e st) as [x|]; [exact H0|]. unfold act. cbn [ret mret M_ret].
  change (conns (log (Commit c) s)) with (conns s).
  destruct (conns s !! c) as [k|] eqn:Hc; [|exact H0].
  destruct (negb (is_open k)); [exact H0|].
  destruct (txn k) as [d|] eqn:Hk; [|exact H0].
  split; simpl.
  - eauto.
  - intros i k' d' Hi Hk'.
    apply list_lookup_insert_Some in Hi as [(-> & <- & _)|[_ Hi]]; [|eauto].
    discriminate Hk'.
Qed.

Lemma views_close (st : site) (c : nat) :
  keeps (all_views R) (conn_close e st c).
Proof.
  intros s [H1 H2].
  assert (H0 : all_views R (log (Close c) s)) by (split; assumption).
  unfold conn_close.
  change ((act ?f ≫= ?g) s) with (bind (act f) g s).
  unfold bind, act at 1.
  change ((may_fail e st ≫= ?g) ?s1) with (bind (may_fail e st) g s1).
  unfold bind, may_fail.
  destruct (fault e st) as [x|]; [exact H0|]. unfold act. cbn [ret mret M_ret].
  change (conns (log (Close c) s)) with (conns s).
  destruct (conns s !! c) as [k|] eqn:Hc; [|exact H0].
  split; simpl.
  - exact H1.
  - intros i k' d' Hi Hk'.
    apply list_lookup_insert_Some in Hi as [(-> & <- & _)|[_ Hi]]; [|eauto].
    discriminate Hk'.
Qed.

End Views.

(** As [keeps_step], with the calls on connections taken for what they do
    to the database. *)
Ltac views_step HR :=
  match goal with
  | |- keeps _ (Script.sqlite3_connect _ _) => apply views_connect
  | |- keeps _ (Script.execute _ _ _ _) => apply views_execute; exact HR
  | |- keeps _ (Script.conn_commit _ _ _) => apply views_commit
  | |- keeps _ (Script.conn_close _ _ _) => apply views_close
  | _ => keeps_step
  end.

Section ViewsRun.
Import Sqlite Script.
Context (e : environ) (R : database -> Prop).
Hypothesis HR : statement_proof R.

Lemma main_views : keeps (all_views R) (main e).
Proof.
  unfold main, probe, provision_db, create_schema, upsert_app_info,
    seed_todos, commit_and_count, write_artifacts, report.
  repeat views_step HR; auto.
Qed.

(** A property of the database that no single statement breaks holds
    after a run if it held before, however the run ends. *)
Lemma run_views (m : machine) :
  R (db_of m) -> R (db_of (after (run e m))).
Proof.
  intros H.
  assert (H0 : all_views R (boot m)).
  { split; [exact H|]. intros i k d Hi. discriminate Hi. }
  pose proof (keeps_run _ (main e) (boot m) main_views H0) as [H1 _].
  unfold run. destruct (main e (boot m)) as [r s]. exact H1.
Qed.

End ViewsRun.

(* ===================================================================== *)
(** ** Tables a run leaves alone, objects it never drops *)
(* ===================================================================== *)

Section Tables.
Import Sqlite Script.

(** Unfolds one statement on a database given by its four fields. *)
Ltac exec_cases H :=
  simpl in H; unfold insert_or_replace_app_info, insert_todos in H;
  simpl in H;
  repeat match type of H with
         | context [new_rowid ?a ?b] => destruct (new_rowid a b)
         | context [if ?b then _ else _] => destruct b
         end;
  try discriminate H; inversion H; subst; clear H.

Lemma exec_keeps_users (U : list users_row) :
  statement_proof (fun d => rows_of (users d) = U).
Proof.
  intros now q [a u t g] d' r HU H.
  destruct q; destruct a, u, t; exec_cases H; simpl in *;
    first [assumption | reflexivity].
Qed.

Lemma exec_keeps_objects (d0 : database) :
  statement_proof (objects_kept d0).
Proof.
  intros now q [a u t g] d' r (Ha & Hu & Ht & Hg) H. simpl in *.
  destruct q; destruct a, u, t; exec_cases H;
    repeat split; simpl; auto.
Qed.

End Tables.

(** X2: a run never inserts into, changes or deletes from users: the
    table holds the same rows afterwards, whatever the environment does
    and however the run ends. *)
Theorem X2_users_untouched (e : Script.environ) (m : Script.machine) :
  Sqlite.rows_of (Sqlite.users (db_of (Script.after (Script.run e m))))
  = Sqlite.rows_of (Sqlite.users (db_of m)).
Proof.
  apply (run_views e (fun d => Sqlite.rows_of (Sqlite.users d)
                               = Sqlite.rows_of (Sqlite.users (db_of m)))).
  - apply exec_keeps_users.
  - reflexivity.
Qed.

(** X3: a run never drops anything: a table or trigger that was in the
    file is in the file afterwards, however the run ends. *)
Theorem X3_no_object_dropped (e : Script.environ) (m : Script.machine) :
  objects_kept (db_of m) (db_of (Script.after (Script.run e m))).
Proof.
  apply (run_views e (objects_kept (db_of m))).
  - apply exec_keeps_objects.
  - repeat split; auto.
Qed.

(** X4: whatever the file held, a run that exits normally leaves the
    three tables and the trigger in it; the CREATE .. IF NOT EXISTS
    statements supply exactly what was missing. *)
Theorem X4_schema_complete (e : Script.environ) (m : Script.machine) :
  Script.exit (Script.run e m) = Ok tt ->
  Sqlite.schema (db_of (Script.after (Script.run e m)))
  = [ Sqlite.TABLE_app_info; Sqlite.TABLE_users; Sqlite.TABLE_todos;
      Sqlite.TRIGGER_trg_todos_updated_at ].
Proof.
  intros H. now apply run_ok_txn, txn_after_result in H as (S & _).
Qed.

Lemma X4_witness :
  Sqlite.schema
    (db_of (Script.after (Script.run Examples.calm Examples.stale)))
  = [ Sqlite.TABLE_app_info; Sqlite.TABLE_users; Sqlite.TABLE_todos;
      Sqlite.TRIGGER_trg_todos_updated_at ].
Proof.
  apply (X4_schema_complete Examples.calm Examples.stale).
  vm_compute. reflexivity.
Defined.

(* ===================================================================== *)
(** ** Row ids *)
(* ===================================================================== *)

Section RowIds.
Import Sqlite Script.
Context (e : environ).

Lemma new_rowid_inv (sq : Z) (ids : list Z) (i : Z) :
  new_rowid sq ids = Ok i ->
  i = Z.max sq (max_id ids) + 1 /\ Z.max sq (max_id ids) < MAX_ROWID.
Proof.
  unfold new_rowid. destruct (Z.ltb_spec (Z.max sq (max_id ids)) MAX_ROWID);
    [|discriminate].
  intros [= <-]. auto.
Qed.

Lemma max_id_bound (ids : list Z) (x : Z) : In x ids -> x <= max_id ids.
Proof.
  induction ids as [|y ids IH]; simpl; [contradiction|].
  intros [->|H]; [lia|]. specialize (IH H). lia.
Qed.

Lemma top_replaced (t : table app_info_row) (key value : string) (now : Z) :
  top ai_id (Some (replaced t (top ai_id (Some t) + 1) key value now))
  = top ai_id (Some t) + 1.
Proof.
  unfold replaced, top. cbn [seq rows]. rewrite map_app, max_id_app.
  cbn [map max_id fold_right ai_id app_info_row_of].
  pose proof (max_id_filter ai_id
                (fun r => negb (String.eqb (ai_key r) key)) (rows t)).
  pose proof (max_id_nonneg (map ai_id (rows t))).
  pose proof (max_id_nonneg
                (map ai_id
                   (List.filter (fun r => negb (String.eqb (ai_key r) key))
                      (rows t)))).
  lia.
Qed.

(** One REPLACE: the new row takes the id after the largest the table
    ever held. *)
Lemma upsert_step (st : site) (key value : string) (d d' : database)
    (r : option Z) (t : table app_info_row) :
  stmt e st (INSERT_OR_REPLACE_INTO_app_info key value)
    (set_app_info (Some t) d) = Ok (d', r) ->
  d' = set_app_info
         (Some (replaced t (top ai_id (Some t) + 1) key value (clock e st))) d
  /\ top ai_id (Some t) < MAX_ROWID.
Proof.
  intros H. apply stmt_ok in H as [_ H]. simpl in H.
  unfold insert_or_replace_app_info in H. cbn [app_info set_app_info] in H.
  destruct (new_rowid _ _) as [i|x] eqn:Hi; [|discriminate].
  apply new_rowid_inv in Hi as [-> Hlt]. inversion H; subst.
  split; [reflexivity|exact Hlt].
Qed.

Lemma set_app_info_same (d : database) (t : table app_info_row) :
  app_info d = Some t -> set_app_info (Some t) d = d.
Proof. destruct d; simpl; now intros ->. Qed.

(** The four REPLACE statements hand out four consecutive ids. *)
Lemma upsert_stmts_ids (d d' : database) (t : table app_info_row) :
  app_info d = Some t ->
  stmts e upsert_stmts d = Ok d' ->
  let T := top ai_id (Some t) in
  T + 4 <= MAX_ROWID
  /\ rows_of (app_info d')
     = (List.filter foreign_key (rows t)
        ++ [ app_info_row_of (T + 1) "project_name" "database"
               (clock e at_upsert_project_name);
             app_info_row_of (T + 2) "version" "0.1.0"
               (clock e at_upsert_version);
             app_info_row_of (T + 3) "author" "John Doe"
               (clock e at_upsert_author);
             app_info_row_of (T + 4) "description" EmptyString
               (clock e at_upsert_description) ])%list.
Proof.
  intros Ht H T. rewrite <- (set_app_info_same d t Ht) in H.
  unfold upsert_stmts in H.
  apply stmts_cons_ok in H as (d1 & r1 & H1 & H).
  apply upsert_step in H1 as [E1 L1]. fold T in E1, L1. subst d1.
  pose proof (top_replaced t "project_name" "database"
                (clock e at_upsert_project_name)) as T1.
  fold T in T1.
  apply stmts_cons_ok in H as (d2 & r2 & H2 & H).
  apply upsert_step in H2 as [E2 L2]. rewrite T1 in E2, L2. subst d2.
  pose proof (top_replaced
                (replaced t (T + 1) "project_name" "database"
                   (clock e at_upsert_project_name))
                "version" "0.1.0" (clock e at_upsert_version)) as T2.
  rewrite T1 in T2.
  apply stmts_cons_ok in H as (d3 & r3 & H3 & H).
  apply upsert_step in H3 as [E3 L3]. rewrite T2 in E3, L3. subst d3.
  pose proof (top_replaced
                (replaced
                   (replaced t (T + 1) "project_name" "database"
                      (clock e at_upsert_project_name))
                   (T + 1 + 1) "version" "0.1.0" (clock e at_upsert_version))
                "author" "John Doe" (clock e at_upsert_author)) as T3.
  rewrite T2 in T3.
  apply stmts_cons_ok in H as (d4 & r4 & H4 & H).
  apply upsert_step in H4 as [E4 L4]. rewrite T3 in E4, L4. subst d4.
  inversion H; subst d'; clear H.
  split; [lia|].
  cbn [rows_of app_info set_app_info].
  unfold replaced. cbn [rows seq].
  rewrite !List.filter_app.
  cbn [List.filter ai_key app_info_row_of String.eqb Ascii.eqb Bool.eqb
       negb andb].
  rewrite filter_foreign, <- !app_assoc.
  replace (T + 1 + 1) with (T + 2) by lia.
  replace (T + 2 + 1) with (T + 3) by lia.
  replace (T + 3 + 1) with (T + 4) by lia.
  reflexivity.
Qed.

(** The same for a whole run, from the database it found. *)
Lemma txn_after_ids (d0 d : database) :
  txn_after e d0 = Ok d ->
  let T := top ai_id (app_info d0) in
  T + 4 <= MAX_ROWID
  /\ rows_of (app_info d)
     = (List.filter foreign_key (rows_of (app_info d0))
        ++ [ app_info_row_of (T + 1) "project_name" "database"
               (clock e at_upsert_project_name);
             app_info_row_of (T + 2) "version" "0.1.0"
               (clock e at_upsert_version);
             app_info_row_of (T + 3) "author" "John Doe"
               (clock e at_upsert_author);
             app_info_row_of (T + 4) "description" EmptyString
               (clock e at_upsert_description) ])%list.
Proof.
  unfold txn_after. intros H.
  apply and_then_ok in H as ([] & _ & H).
  apply and_then_ok in H as (d0' & H0 & H).
  apply and_then_ok in H as (d1 & H1 & H).
  apply and_then_ok in H as (d2 & H2 & H).
  assert (Hs : stmts e (pragma_stmts ++ schema_stmts) d0 = Ok d1)
    by (apply stmts_app_ok; eauto).
  apply schema_stmts_result in Hs. subst d1.
  eapply upsert_stmts_ids in H2; [|reflexivity].
  apply seed_after_result in H as (A & _).
  rewrite A.
  destruct (app_info d0) as [t|]; exact H2.
Qed.

End RowIds.

(** X5: in a run that exits normally the four rows of app_info get the
    four ids that follow the largest id the table ever held (the larger
    of its sqlite_sequence entry and its row ids), in the order
    project_name, version, author, description, and the clock reading of
    their statement as created_at; no id the table held before is used
    again. *)
Theorem X5_app_info_ids (e : Script.environ) (m : Script.machine) :
  Script.exit (Script.run e m) = Ok tt ->
  let before := Sqlite.rows_of (Sqlite.app_info (db_of m)) in
  let after := Sqlite.rows_of
                 (Sqlite.app_info (db_of (Script.after (Script.run e m)))) in
  let T := top Sqlite.ai_id (Sqlite.app_info (db_of m)) in
  Forall (fun r => Sqlite.ai_id r <= T) before
  /\ after
     = (List.filter foreign_key before
        ++ [ app_info_row_of (T + 1) "project_name" "database"
               (Script.clock e Script.at_upsert_project_name);
             app_info_row_of (T + 2) "version" "0.1.0"
               (Script.clock e Script.at_upsert_version);
             app_info_row_of (T + 3) "author" "John Doe"
               (Script.clock e Script.at_upsert_author);
             app_info_row_of (T + 4) "description" EmptyString
               (Script.clock e Script.at_upsert_description) ])%list.
Proof.
  intros H before after T.
  apply run_ok_txn, txn_after_ids in H as [_ H]. split; [|exact H].
  apply List.Forall_forall. intros r Hr. unfold T, before in *.
  destruct (Sqlite.app_info (db_of m)) as [t|]; [|destruct Hr].
  cbn [top Sqlite.rows_of] in *.
  pose proof (max_id_bound (map Sqlite.ai_id (Sqlite.rows t))
                (Sqlite.ai_id r) (in_map _ _ _ Hr)).
  lia.
Qed.

Lemma X5_witness :
  let e := Examples.calm in
  let m := Examples.stale in
  let before := Sqlite.rows_of (Sqlite.app_info (db_of m)) in
  let after := Sqlite.rows_of
                 (Sqlite.app_info (db_of (Script.after (Script.run e m)))) in
  let T := top Sqlite.ai_id (Sqlite.app_info (db_of m)) in
  Forall (fun r => Sqlite.ai_id r <= T) before
  /\ after
     = (List.filter foreign_key before
        ++ [ app_info_row_of (T + 1) "project_name" "database"
               (Script.clock e Script.at_upsert_project_name);
             app_info_row_of (T + 2) "version" "0.1.0"
               (Script.clock e Script.at_upsert_version);
             app_info_row_of (T + 3) "author" "John Doe"
               (Script.clock e Script.at_upsert_author);
             app_info_row_of (T + 4) "description" EmptyString
               (Script.clock e Script.at_upsert_description) ])%list.
Proof.
  apply (X5_app_info_ids Examples.calm Examples.stale).
  vm_compute. reflexivity.
Defined.

(* ===================================================================== *)
(** ** Keys stay unique; the rows of the seeding step *)
(* ===================================================================== *)

Section Unique.
Import Sqlite Script.
Context (e : environ).

Lemma NoDup_map_filter {A B : Type} (f : A -> B) (p : A -> bool)
    (l : list A) :
  List.NoDup (map f l) -> List.NoDup (map f (List.filter p l)).
Proof.
  induction l as [|x l IH]; simpl; [auto|].
  intros H. apply List.NoDup_cons_iff in H as [Hx Hl].
  destruct (p x); simpl; [|auto].
  apply List.NoDup_cons; [|auto].
  intros Hin. apply Hx. apply in_map_iff in Hin as (y & Hy & Hin).
  apply filter_In in Hin as [Hin _]. rewrite <- Hy. now apply in_map.
Qed.

Lemma rows_below_top (t : option (table app_info_row)) (r : app_info_row) :
  In r (rows_of t) -> ai_id r <= top ai_id t.
Proof.
  destruct t as [t|]; [|intros []]. cbn [top rows_of]. intros Hr.
  pose proof (max_id_bound (map ai_id (rows t)) (ai_id r) (in_map _ _ _ Hr)).
  lia.
Qed.

Lemma todos_below_top (t : option (table todos_row)) (r : todos_row) :
  In r (rows_of t) -> td_id r <= top td_id t.
Proof.
  destruct t as [t|]; [|intros []]. cbn [top rows_of]. intros Hr.
  pose proof (max_id_bound (map td_id (rows t)) (td_id r) (in_map _ _ _ Hr)).
  lia.
Qed.

Lemma foreign_key_not_default (r : app_info_row) :
  foreign_key r = true ->
  ~ In (ai_key r) ["project_name"; "version"; "author"; "description"].
Proof.
  unfold foreign_key, Toggle.str_in. cbn [map fst app_info_defaults existsb].
  intros H Hin. apply negb_true_iff in H.
  repeat (apply orb_false_iff in H as [H1 H]; apply String.eqb_neq in H1;
          destruct Hin as [Hin|Hin]; [congruence|]; clear H1).
  destruct Hin.
Qed.

(** One INSERT into todos: the new row takes the id after the largest
    the table ever held. *)
Lemma insert_step (st : site) (title description : string) (completed : Z)
    (d d' : database) (r : option Z) (t : table todos_row) :
  stmt e st (INSERT_INTO_todos title description completed)
    (set_todos (Some t) d) = Ok (d', r) ->
  d' = set_todos
         (Some (inserted t (todos_row_of (top td_id (Some t) + 1) title
                              description completed (clock e st)))) d
  /\ top td_id (Some t) < MAX_ROWID.
Proof.
  intros H. apply stmt_ok in H as [_ H]. simpl in H.
  unfold insert_todos in H. cbn [todos set_todos] in H.
  destruct (new_rowid _ _) as [i|x] eqn:Hi; [|discriminate].
  apply new_rowid_inv in Hi as [-> Hlt]. inversion H; subst.
  split; [reflexivity|exact Hlt].
Qed.

Lemma top_inserted (t : table todos_row) (r : todos_row) :
  td_id r = top td_id (Some t) + 1 ->
  top td_id (Some (inserted t r)) = top td_id (Some t) + 1.
Proof.
  intros Hr. unfold inserted, top. cbn [seq rows].
  rewrite map_app, max_id_app. cbn [map max_id fold_right].
  unfold top in Hr. cbn [seq rows] in Hr.
  pose proof (max_id_nonneg (map td_id (rows t))). lia.
Qed.

Lemma set_todos_same (d : database) (t : table todos_row) :
  todos d = Some t -> set_todos (Some t) d = d.
Proof. destruct d; simpl; now intros ->. Qed.

(** The three INSERTs of the seeding step. *)
Lemma seed_stmts_rows (d d' : database) (t : table todos_row) :
  todos d = Some t ->
  stmts e seed_stmts d = Ok d' ->
  rows_of (todos d')
  = (rows t ++ seeded_rows (clock e) (top td_id (Some t)))%list.
Proof.
  intros Ht H. rewrite <- (set_todos_same d t Ht) in H.
  set (T := top td_id (Some t)).
  unfold seed_stmts in H. cbn [seed_stmts_from sample_todos] in H.
  apply stmts_cons_ok in H as (d1 & r1 & H1 & H).
  apply insert_step in H1 as [E1 _]. fold T in E1. subst d1.
  pose proof (top_inserted t
                (todos_row_of (T + 1) "Buy groceries" "Milk, eggs, bread" 0
                   (clock e (at_seed_insert 0))) eq_refl) as T1.
  fold T in T1.
  apply stmts_cons_ok in H as (d2 & r2 & H2 & H).
  apply insert_step in H2 as [E2 _]. rewrite T1 in E2. subst d2.
  apply stmts_cons_ok in H as (d3 & r3 & H3 & H).
  apply insert_step in H3 as [E3 _].
  rewrite top_inserted in E3
    by (cbn [td_id todos_row_of]; rewrite T1; reflexivity).
  rewrite T1 in E3. subst d3.
  inversion H; subst d'; clear H.
  cbn [rows_of todos set_todos]. unfold inserted. cbn [rows seq].
  rewrite <- !app_assoc. unfold seeded_rows. cbn [app].
  replace (T + 1 + 1) with (T + 2) by lia.
  replace (T + 2 + 1) with (T + 3) by lia.
  reflexivity.
Qed.

(** The rows of todos when the main connection reaches the commit. *)
Lemma txn_after_todos (d0 d : database) :
  txn_after e d0 = Ok d ->
  rows_of (todos d)
  = (rows_of (todos d0)
     ++ if seeding e d0
        then seeded_rows (clock e) (top td_id (todos d0))
        else [])%list.
Proof.
  unfold txn_after. intros H.
  apply and_then_ok in H as ([] & _ & H).
  apply and_then_ok in H as (d0' & H0 & H).
  apply and_then_ok in H as (d1 & H1 & H).
  apply and_then_ok in H as (d2 & H2 & H).
  assert (Hs : stmts e (pragma_stmts ++ schema_stmts) d0 = Ok d1)
    by (apply stmts_app_ok; eauto).
  apply schema_stmts_result in Hs. subst d1.
  eapply upsert_stmts_result in H2 as (i1 & i2 & i3 & i4 & E2);
    [|reflexivity]. subst d2.
  assert (Ht : exists t, todos d0 = Some t /\ True
                         \/ todos d0 = None /\ t = empty_table).
  { destruct (todos d0) as [t|]; eauto. }
  unfold seed_after, seeding in *.
  destruct (seed_flag e); cbn [andb];
    [|inversion H; subst; cbn; rewrite app_nil_r; now destruct (todos d0)].
  destruct (stmt e at_seed_count SELECT_COUNT_FROM_todos _)
    as [[dc r]|x] eqn:Hc; [|discriminate].
  destruct (count_todos_result e _ _ _ _ Hc) as [-> ->].
  cbn [todos set_app_info with_schema rows_of] in H.
  replace (rows (default empty_table (todos d0))) with (rows_of (todos d0))
    in H by now destruct (todos d0).
  destruct (Z.of_nat (length (rows_of (todos d0))) =? 0)%Z;
    [|inversion H; subst; cbn; rewrite app_nil_r; now destruct (todos d0)].
  eapply seed_stmts_rows in H; [|reflexivity].
  rewrite H. now destruct (todos d0).
Qed.

End Unique.

(** X6: a run that exits normally keeps the tables well-formed: when no
    two rows of app_info had the same key before the run, none have
    afterwards (the UNIQUE constraint on key holds of what the REPLACE
    statements leave), and likewise for the ids of app_info and for the
    ids of todos (the primary keys). *)
Theorem X6_keys_and_ids_stay_unique (e : Script.environ)
    (m : Script.machine) :
  Script.exit (Script.run e m) = Ok tt ->
  let d := db_of m in
  let d' := db_of (Script.after (Script.run e m)) in
  (List.NoDup (map Sqlite.ai_key (Sqlite.rows_of (Sqlite.app_info d))) ->
   List.NoDup (map Sqlite.ai_key (Sqlite.rows_of (Sqlite.app_info d'))))
  /\ (List.NoDup (map Sqlite.ai_id (Sqlite.rows_of (Sqlite.app_info d))) ->
      List.NoDup (map Sqlite.ai_id (Sqlite.rows_of (Sqlite.app_info d'))))
  /\ (List.NoDup (map Sqlite.td_id (Sqlite.rows_of (Sqlite.todos d))) ->
      List.NoDup (map Sqlite.td_id (Sqlite.rows_of (Sqlite.todos d')))).
Proof.
  intros H d d'. apply run_ok_txn in H. fold d d' in H.
  destruct (txn_after_ids e d d' H) as [_ Ha].
  pose proof (txn_after_todos e d d' H) as Ht.
  rewrite Ha, Ht, !map_app. split; [|split]; intros Hn.
  - apply List.NoDup_app.
    + now apply NoDup_map_filter.
    + cbn. repeat (apply List.NoDup_cons;
                   [cbn; intuition discriminate|]). apply List.NoDup_nil.
    + intros k Hin. apply in_map_iff in Hin as (r & <- & Hr).
      apply filter_In in Hr as [_ Hr]. now apply foreign_key_not_default.
  - apply List.NoDup_app.
    + now apply NoDup_map_filter.
    + cbn. repeat (apply List.NoDup_cons; [cbn; lia|]). apply List.NoDup_nil.
    + intros i Hin. apply in_map_iff in Hin as (r & <- & Hr).
      apply filter_In in Hr as [Hr _].
      apply rows_below_top in Hr. cbn. lia.
  - destruct (seeding e d); [|cbn; now rewrite app_nil_r].
    apply List.NoDup_app.
    + exact Hn.
    + cbn. repeat (apply List.NoDup_cons; [cbn; lia|]). apply List.NoDup_nil.
    + intros i Hin. apply in_map_iff in Hin as (r & <- & Hr).
      apply todos_below_top in Hr. cbn. lia.
Qed.

Lemma X6_witness :
  let d := db_of Examples.stale in
  let d' := db_of (Script.after (Script.run Examples.calm Examples.stale)) in
  (List.NoDup (map Sqlite.ai_key (Sqlite.rows_of (Sqlite.app_info d))) ->
   List.NoDup (map Sqlite.ai_key (Sqlite.rows_of (Sqlite.app_info d'))))
  /\ (List.NoDup (map Sqlite.ai_id (Sqlite.rows_of (Sqlite.app_info d))) ->
      List.NoDup (map Sqlite.ai_id (Sqlite.rows_of (Sqlite.app_info d'))))
  /\ (List.NoDup (map Sqlite.td_id (Sqlite.rows_of (Sqlite.todos d))) ->
      List.NoDup (map Sqlite.td_id (Sqlite.rows_of (Sqlite.todos d')))).
Proof.
  apply (X6_keys_and_ids_stay_unique Examples.calm Examples.stale).
  vm_compute. reflexivity.
Defined.

(** X7: in a run that exits normally and seeds, the three sample rows
    get the three ids that follow the largest id todos ever held (its
    sqlite_sequence entry: not 1, 2, 3 when rows were deleted before),
    the description given, and the clock reading of their INSERT both as
    created_at and as updated_at; a run that does not seed leaves the
    rows of todos as they were. *)
Theorem X7_seeded_rows (e : Script.environ) (m : Script.machine) :
  Script.exit (Script.run e m) = Ok tt ->
  Sqlite.rows_of (Sqlite.todos (db_of (Script.after (Script.run e m))))
  = (Sqlite.rows_of (Sqlite.todos (db_of m))
     ++ if seeding e (db_of m)
        then seeded_rows (Script.clock e)
               (top Sqlite.td_id (Sqlite.todos (db_of m)))
        else [])%list.
Proof. intros H. now apply txn_after_todos, run_ok_txn. Qed.

Lemma X7_witness :
  Sqlite.rows_of
    (Sqlite.todos
       (db_of (Script.after (Script.run Examples.seeding_env
                               Examples.emptied))))
  = (Sqlite.rows_of (Sqlite.todos (db_of Examples.emptied))
     ++ if seeding Examples.seeding_env (db_of Examples.emptied)
        then seeded_rows (Script.clock Examples.seeding_env)
               (top Sqlite.td_id (Sqlite.todos (db_of Examples.emptied)))
        else [])%list.
Proof.
  apply (X7_seeded_rows Examples.seeding_env Examples.emptied).
  vm_compute. reflexivity.
Defined.

(** X8: seeding happens once: after a run that seeded, no later run of
    the script, whatever its environment and however it ends, adds a row
    to todos or changes one. *)
Theorem X8_seeds_once (e e' : Script.environ) (m : Script.machine) :
  Script.exit (Script.run e m) = Ok tt ->
  seeding e (db_of m) = true ->
  let m1 := Script.after (Script.run e m) in
  Sqlite.rows_of (Sqlite.todos (db_of (Script.after (Script.run e' m1))))
  = Sqlite.rows_of (Sqlite.todos (db_of m1)).
Proof.
  intros H Hs m1.
  apply run_ok_txn, txn_after_todos in H. rewrite Hs in H.
  destruct (run_todos e' m1) as (new & Hr & Hn). rewrite Hr.
  rewrite Hn; [now rewrite app_nil_r|].
  unfold seeding. fold m1 in H. rewrite H, length_app.
  cbn [seeded_rows length]. rewrite Nat2Z.inj_add.
  replace (_ =? 0)%Z with false by (symmetry; apply Z.eqb_neq; lia).
  apply andb_false_r.
Qed.

Lemma X8_witness :
  let m1 := Script.after (Script.run Examples.seeding_env Script.fresh) in
  Sqlite.rows_of
    (Sqlite.todos (db_of (Script.after (Script.run Examples.seeding_env m1))))
  = Sqlite.rows_of (Sqlite.todos (db_of m1)).
Proof.
  apply (X8_seeds_once Examples.seeding_env Examples.seeding_env Script.fresh);
    vm_compute; reflexivity.
Defined.

(* ===================================================================== *)
(** ** All or nothing; the statistics *)
(* ===================================================================== *)

Section Atomic.
Import Sqlite Script.
Context (e : environ).

Lemma same_rows_refl (d : database) : same_rows d d.
Proof. repeat split. Qed.

Lemma same_rows_trans (d1 d2 d3 : database) :
  same_rows d1 d2 -> same_rows d2 d3 -> same_rows d1 d3.
Proof.
  intros (A1 & U1 & T1) (A2 & U2 & T2). repeat split; congruence.
Qed.

(** A statement that is neither INSERT nor REPLACE changes no row. *)
Lemma ddl_same_rows (st : site) (q : sql) (d d' : database) (r : option Z) :
  is_dml q = false -> stmt e st q d = Ok (d', r) -> same_rows d d'.
Proof.
  intros Hq H. apply stmt_ok in H as [_ H].
  destruct q; try discriminate Hq; simpl in H;
    try (inversion H; subst; apply same_rows_refl).
  - destruct (app_info d) eqn:Ha; inversion H; subst;
      repeat split; simpl; rewrite ?Ha; reflexivity.
  - destruct (users d) eqn:Hu; inversion H; subst;
      repeat split; simpl; rewrite ?Hu; reflexivity.
  - destruct (todos d) eqn:Ht; inversion H; subst;
      repeat split; simpl; rewrite ?Ht; reflexivity.
  - destruct (trg_todos_updated_at d); [inversion H; apply same_rows_refl|].
    destruct (todos d) eqn:Ht; inversion H; subst;
      repeat split; simpl; rewrite ?Ht; reflexivity.
  - destruct (todos d); inversion H; subst; apply same_rows_refl.
  - destruct (app_info d); inversion H; subst; apply same_rows_refl.
Qed.

Lemma count_exact (st : site) (q : sql) (d d' : database) (r : option Z) :
  is_count q = true -> stmt e st q d = Ok (d', r) ->
  d' = d /\ r = Some (count_of q d).
Proof.
  intros Hq H. apply stmt_ok in H as [_ H].
  destruct q; try discriminate Hq; simpl in H.
  - destruct (todos d) eqn:Ht; inversion H; subst. cbn [count_of].
    now rewrite Ht.
  - inversion H; auto.
  - destruct (app_info d) eqn:Ha; inversion H; subst. cbn [count_of].
    now rewrite Ha.
Qed.

End Atomic.

(** One query of the statistics, with the number it returns. *)
Ltac stat_step e :=
  eapply triple_seq; [apply execute_triple| |];
  [ cbn [seen]; intros x s [-> Hs]; auto
  | let r := fresh "r" in
    let d' := fresh "d" in
    let H := fresh "H" in
    let Hc := fresh "Hc" in
    intros r; apply triple_exists; intros d'; apply triple_pure;
    cbn [seen Sqlite.is_dml is_some orb]; intros H; rewrite H;
    assert (Hc := fun Hq => count_exact e _ _ _ _ _ Hq H);
    destruct (Hc eq_refl) as [-> ->]; clear Hc;
    apply triple_ret_bind ].

Section AtomicRun.
Import Sqlite Script.
Context (e : environ).

(** From the commit to the close: the numbers returned are those of the
    database committed. *)
Lemma commit_and_count_full (c : nat) (d dt : database) :
  triple (Conn c d (Some dt)) (commit_and_count e c)
    (fun counts s' => finish_after e dt = Ok dt /\ disk s' = Some dt
                      /\ counts = stats dt)
    (fun x s' => finish_after e dt = Raise x
                 /\ (on_disk s' = d \/ on_disk s' = dt)).
Proof.
  unfold commit_and_count, finish_after.
  eapply triple_seq; [apply commit_triple| |].
  { cbn [seen]. intros x s [-> Hs]. auto. }
  intros u. apply triple_pure. intros ->. cbn [seen and_then stmts stat_stmts].
  stat_step e. stat_step e. stat_step e.
  eapply triple_seq; [apply close_triple| |].
  { intros x s [-> Hs]. auto. }
  intros v. apply triple_pure. intros ->. apply triple_ret.
  intros s Hs. cbn [and_then]. auto.
Qed.

(** The main connection: when it raises, the file holds the rows it
    held, or (after the commit) the whole transaction. *)
Lemma provision_db_full (d0 : database) :
  triple (fun s => on_disk s = d0) (provision_db e)
    (fun counts s' => exists d, db_after e d0 = Ok d /\ disk s' = Some d
                                /\ counts = stats d)
    (fun x s' => db_after e d0 = Raise x
                 /\ (same_rows d0 (on_disk s')
                     \/ txn_after e d0 = Ok (on_disk s'))).
Proof.
  unfold provision_db, db_after, txn_after.
  eapply triple_seq; [apply connect_triple| |].
  { intros x s [-> <-]. split; [reflexivity|left; apply same_rows_refl]. }
  intros c. apply triple_pure. intros ->. cbn [and_then].
  eapply triple_seq; [apply execute_triple| |].
  { cbn [seen stmts pragma_stmts]. intros x s [-> <-].
    split; [reflexivity|left; apply same_rows_refl]. }
  intros r0. apply triple_exists. intros d0'. apply triple_pure.
  cbn [seen stmts pragma_stmts is_dml is_some orb]. intros H0. rewrite H0.
  cbn [and_then].
  assert (T0 : same_rows d0 d0') by (eapply ddl_same_rows; [|exact H0]; reflexivity).
  change (create_schema e c) with (run_all e c schema_stmts).
  eapply triple_seq; [apply (run_all_auto e (same_rows d0))| |].
  { apply schema_stmts_auto. }
  { repeat first [apply List.Forall_nil | apply List.Forall_cons];
      cbn [fst snd]; intros d1 d2 r Hr Hs;
      (eapply same_rows_trans; [exact Hr|]);
      (eapply ddl_same_rows; [|exact Hs]; reflexivity). }
  { exact T0. }
  { intros x s [-> Hr]. auto. }
  intros u1. apply triple_exists. intros d1.
  eapply triple_conseq with
    (P := fun s => (stmts e schema_stmts d0' = Ok d1
                    /\ same_rows d0 d1) /\ Conn c d1 None s)
    (Q := fun counts s' => exists d,
            and_then (and_then (stmts e schema_stmts d0') (fun d1 =>
                      and_then (stmts e upsert_stmts d1) (fun d2 =>
                      seed_after e d2))) (finish_after e) = Ok d
            /\ disk s' = Some d /\ counts = stats d)
    (E := fun x s' =>
            and_then (and_then (stmts e schema_stmts d0') (fun d1 =>
                      and_then (stmts e upsert_stmts d1) (fun d2 =>
                      seed_after e d2))) (finish_after e) = Raise x
            /\ (same_rows d0 (on_disk s')
                \/ and_then (stmts e schema_stmts d0') (fun d1 =>
                   and_then (stmts e upsert_stmts d1) (fun d2 =>
                   seed_after e d2)) = Ok (on_disk s'))); auto.
  2:{ intros s [H1 HC]. split; [|exact HC]. split; [exact H1|].
      revert H1. clear -T0. intros H1.
      assert (K : forall l d d', Forall (fun p : site * sql => is_dml p.2 = false) l ->
                  stmts e l d = Ok d' -> same_rows d d').
      { induction l as [|[st q] l IH]; simpl; intros d d' Hl H.
        - inversion H. apply same_rows_refl.
        - apply Forall_cons in Hl as [Hq Hl].
          destruct (stmt e st q d) as [[dm r]|x] eqn:Hm; [|discriminate].
          eapply same_rows_trans; [eapply ddl_same_rows; eauto|eauto]. }
      eapply same_rows_trans; [exact T0|].
      eapply K; [apply schema_stmts_auto|exact H1]. }
  apply triple_pure. intros [H1 T1]. rewrite H1. cbn [and_then].
  change (upsert_app_info e c) with (run_all e c upsert_stmts).
  unfold upsert_stmts.
  eapply triple_seq; [apply run_all_begin; reflexivity| |].
  { intros x s [-> ->]. auto. }
  intros u2. apply triple_exists. intros d2. apply triple_pure.
  intros H2. rewrite H2. cbn [and_then].
  eapply triple_seq; [apply seed_todos_triple| |].
  { intros x s [-> ->]. auto. }
  intros u3. apply triple_exists. intros d3. apply triple_pure.
  intros H3. rewrite H3. cbn [and_then].
  eapply triple_conseq; [apply (commit_and_count_full c d1 d3) | | |].
  - auto.
  - intros counts s (Hf & Hd & Hc). rewrite Hf. eauto.
  - intros x s [-> [->| ->]]; auto.
Qed.

End AtomicRun.

Section Report.
Import Sqlite Script.
Context (e : environ).
Implicit Types (P : sys -> Prop).

(** The report prints the three numbers it is given. *)
Lemma report_stats P (db_abs_path connection_string : string)
    (counts : Z * Z * Z) :
  (forall l s, P s -> P (emit l s)) ->
  triple P (report e db_abs_path connection_string counts)
    (fun _ s' => P s' /\ forall l, In l (stat_lines counts) ->
                                   In l (stdout s'))
    (fun _ _ => False).
Proof.
  intros He. unfold report, stat_lines.
  destruct counts as [[table_count record_count] todos_count].
  pose (S3 := fun s : sys =>
    P s /\ forall l,
      In l [ "  Tables: " +:+ PyStr.str_of_Z table_count;
             "  App info records: " +:+ PyStr.str_of_Z record_count;
             "  Todos records: " +:+ PyStr.str_of_Z todos_count ] ->
      In l (stdout s)).
  assert (S3e : forall l s, S3 s -> S3 (emit l s)).
  { intros l s [Hp Hl]. split; [auto|]. intros l' Hl'. simpl.
    apply in_or_app. left. auto. }
  do 11 (eapply (triple_bind _ _ _ (fun _ => P));
         [apply triple_print; auto | intros ?]).
  eapply triple_bind
    with (R := fun _ s => P s /\ In ("  Tables: " +:+ PyStr.str_of_Z table_count)
                                    (stdout s)).
  { apply triple_print. intros s Hs. split; [auto|]. simpl.
    apply in_or_app. right. left. reflexivity. }
  intros ?.
  eapply triple_bind
    with (R := fun _ s =>
            P s /\ In ("  Tables: " +:+ PyStr.str_of_Z table_count) (stdout s)
            /\ In ("  App info records: " +:+ PyStr.str_of_Z record_count)
                  (stdout s)).
  { apply triple_print. intros s [Hs H1]. split; [auto|]. simpl.
    split; apply in_or_app; [left; exact H1|right; left; reflexivity]. }
  intros ?.
  eapply triple_bind with (R := fun _ => S3).
  { apply triple_print. intros s (Hs & H1 & H2). split; [auto|].
    intros l [<-|[<-|[<-|[]]]]; simpl; apply in_or_app;
      [left; exact H1|left; exact H2|right; left; reflexivity]. }
  intros ?.
  eapply (triple_bind _ _ _ (fun _ => S3));
    [|intros ?; apply triple_print; intros s Hs; exact (S3e _ s Hs)].
  eapply triple_try with (R := fun _ => S3); [|intros x; now apply triple_ret].
  assert (K : keeps S3
    (returncode ← which_sqlite3 e;
     if (returncode =? 0)%Z
     then (print EmptyString;;
           print "SQLite CLI is available. You can also use:";;
           print ("  sqlite3 " +:+ DB_NAME))
     else mret tt)) by (keeps_tac; auto).
  exact K.
Qed.

(** The whole script: what it leaves in the file however it ends, and
    the numbers it reports. *)
Lemma main_full (d0 : database) :
  triple (fun s => on_disk s = d0) (main e)
    (fun _ s' => exists d, db_after e d0 = Ok d /\ disk s' = Some d
                           /\ forall l, In l (stat_lines (stats d)) ->
                                        In l (stdout s'))
    (fun x s' => same_rows d0 (on_disk s')
                 \/ txn_after e d0 = Ok (on_disk s')).
Proof.
  unfold main.
  eapply (triple_bind _ _ _ (fun _ s => on_disk s = d0)).
  { now apply triple_print. }
  intros u.
  eapply triple_seq; [apply probe_triple| |].
  { intros x s []. }
  intros v.
  eapply triple_seq; [apply provision_db_full| |].
  { intros x s [_ H]. exact H. }
  intros counts. apply triple_exists. intros d.
  eapply triple_conseq with
    (P := fun s => (db_after e d0 = Ok d /\ counts = stats d)
                   /\ disk s = Some d)
    (Q := fun _ s' => exists d, db_after e d0 = Ok d /\ disk s' = Some d
                           /\ forall l, In l (stat_lines (stats d)) ->
                                        In l (stdout s'))
    (E := fun x s' => same_rows d0 (on_disk s')
                      \/ txn_after e d0 = Ok (on_disk s')); auto.
  2:{ intros s (H1 & H2 & H3). auto. }
  apply triple_pure. intros [Hd ->].
  pose proof (db_after_txn e _ _ Hd) as Ht.
  eapply triple_seq;
    [apply (write_artifacts_triple e (fun s' => disk s' = Some d)) | |];
    auto.
  - intros x s [H _]. right. unfold on_disk. now rewrite H.
  - intros [db_abs_path connection_string].
    eapply triple_conseq;
      [apply (report_stats (fun s' => disk s' = Some d)) | | |]; auto.
    + intros u0 s [H1 H2]. eauto.
    + intros x s [].
Qed.

End Report.

(** X9: the rows of a run are written all or not at all.  However the
    run ends, the file holds either the rows of app_info, users and
    todos it held before, or the database as the main connection had it
    when it reached [conn.commit()]; a run that raises never leaves some
    of its rows behind. *)
Theorem X9_all_or_nothing (e : Script.environ) (m : Script.machine) :
  let d := db_of m in
  let d' := db_of (Script.after (Script.run e m)) in
  same_rows d d' \/ txn_after e d = Ok d'.
Proof.
  intros d d'. subst d d'.
  pose proof (main_full e (db_of m) (Script.boot m) eq_refl) as H.
  unfold Script.run.
  destruct (Script.main e (Script.boot m)) as [[u|x] s']; simpl.
  - destruct H as (d & Hd & Hs & _). right.
    apply db_after_txn in Hd. unfold db_of. simpl. now rewrite Hs.
  - exact H.
Qed.



(* ===================================================================== *)
(** ** Files and directories *)
(* ===================================================================== *)

Section Files.
Import Sqlite Script.
Context (e : environ).
Implicit Types (P : sys -> Prop).

(** [write_file] keeps what survives the write of this file. *)
Lemma write_file_moves P (st : site) (path : string) (w : list string) :
  (forall s, P s ->
     P (set_files (<[path := String.concat EmptyString w]> (files s)) s)) ->
  keeps P (write_file e st path w).
Proof.
  intros H. unfold write_file. apply keeps_bind; [apply keeps_may_fail|].
  intros u. apply keeps_act. intros s Hs. apply H, Hs.
Qed.

Lemma makedirs_moves P (d : string) :
  (forall s, P s -> P (set_dirs ({[d]} ∪ dirs s) s)) ->
  keeps P (os_makedirs e d).
Proof.
  intros H. unfold os_makedirs. apply keeps_bind; [apply keeps_may_fail|].
  intros u. apply keeps_act. intros s Hs. apply H, Hs.
Qed.

End Files.

(** As [keeps_step], with the writes taken for the file they write. *)
Ltac files_step :=
  match goal with
  | |- keeps _ (Script.write_file _ _ _ _) => apply write_file_moves
  | |- keeps _ (Script.os_makedirs _ _) => apply makedirs_moves
  | _ => keeps_step
  end.

Section FilesRun.
Import Sqlite Script.
Context (e : environ).

Lemma main_only_artifacts (f0 : gmap string string) (d0 : gset string) :
  keeps (only_artifacts f0 d0) (main e).
Proof.
  assert (He : forall l s, only_artifacts f0 d0 s ->
                           only_artifacts f0 d0 (emit l s))
    by (intros l s H; exact H).
  assert (Hu : forall d l ev s, only_artifacts f0 d0 s ->
                                only_artifacts f0 d0 (upd_db d l ev s))
    by (intros d l ev s H; exact H).
  unfold main, probe, provision_db, create_schema, upsert_app_info,
    seed_todos, commit_and_count, write_artifacts, report.
  repeat files_step; auto.
  - intros s (F & D1 & D2). split; [|split]; simpl; auto.
    intros p Hp Hq. rewrite lookup_insert_ne by congruence. auto.
  - intros s (F & D1 & D2). split; [|split]; simpl; auto.
    + etrans; [exact D1|apply union_subseteq_r].
    + apply union_least; [apply union_subseteq_r|exact D2].
  - intros s (F & D1 & D2). split; [|split]; simpl; auto.
    intros p Hq Hp. rewrite lookup_insert_ne by congruence. auto.
Qed.

(** When the script gets past the directory, the directory is there. *)
Lemma write_artifacts_dir :
  triple (fun _ => True) (write_artifacts e)
    (fun _ s' => "db_visualizer" ∈ dirs s') (fun _ _ => True).
Proof.
  unfold write_artifacts.
  eapply triple_bind with (R := fun _ _ => True); [apply triple_any|].
  intros current_dir.
  eapply triple_bind with (R := fun _ _ => True); [apply triple_any|].
  intros u.
  eapply triple_bind with (R := fun _ _ => True); [apply triple_any|].
  intros db_path.
  eapply triple_bind
    with (R := fun there s => there = true -> "db_visualizer" ∈ dirs s).
  { intros s _. unfold dir_exists. cbv beta iota. intros H.
    now apply bool_decide_eq_true in H. }
  intros there.
  eapply triple_bind with (R := fun _ s => "db_visualizer" ∈ dirs s).
  { destruct there; cbn [negb].
    - apply triple_ret. auto.
    - eapply triple_bind with (R := fun _ s => "db_visualizer" ∈ dirs s).
      + unfold os_makedirs.
        eapply triple_bind with (R := fun _ _ => True);
          [eapply triple_conseq; [apply triple_any|..]; simpl; auto|].
        intros v. apply triple_act. intros s _. simpl. set_solver.
      + intros v. apply triple_print. auto. }
  intros v.
  assert (K : keeps (fun s => "db_visualizer" ∈ dirs s)
    (try_except
       (write_file e at_write_sqlite_env "db_visualizer/sqlite.env"
          (sqlite_env_writes db_path);;
        print "Environment variables saved to db_visualizer/sqlite.env")
       (fun msg =>
          print ("Warning: Could not save environment variables: " +:+ msg));;
     mret (current_dir +:+ "/" +:+ DB_NAME,
           "sqlite:///" +:+ current_dir +:+ "/" +:+ DB_NAME)))
    by (keeps_tac; auto).
  eapply triple_conseq; [apply K| | |]; auto.
Qed.

Lemma main_dir :
  triple (fun _ => True) (main e)
    (fun _ s' => "db_visualizer" ∈ dirs s') (fun _ _ => True).
Proof.
  unfold main.
  eapply triple_bind with (R := fun _ _ => True); [apply triple_any|].
  intros u.
  eapply triple_bind with (R := fun _ _ => True); [apply triple_any|].
  intros v.
  eapply triple_bind with (R := fun _ _ => True); [apply triple_any|].
  intros counts.
  eapply triple_bind; [apply write_artifacts_dir|].
  intros [a b].
  eapply triple_conseq;
    [apply (report_triple e (fun s => "db_visualizer" ∈ dirs s))| | |]; auto.
Qed.

End FilesRun.

(** X11: the run touches no file but its own two: however it ends, every
    path other than db_connection.txt and db_visualizer/sqlite.env has
    the content it had (or is still absent); no directory is removed and
    none but db_visualizer is made; and after a normal exit db_visualizer
    is there. *)
Theorem X11_only_its_files (e : Script.environ) (m : Script.machine) :
  let m' := Script.after (Script.run e m) in
  (forall p, p <> "db_connection.txt" -> p <> "db_visualizer/sqlite.env" ->
             Script.m_files m' !! p = Script.m_files m !! p)
  /\ Script.m_dirs m ⊆ Script.m_dirs m'
  /\ Script.m_dirs m' ⊆ Script.m_dirs m ∪ {[ "db_visualizer" ]}
  /\ (Script.exit (Script.run e m) = Ok tt ->
      "db_visualizer" ∈ Script.m_dirs m').
Proof.
  intros m'. subst m'.
  assert (H0 : only_artifacts (Script.m_files m) (Script.m_dirs m)
                 (Script.boot m)).
  { split; [|split]; simpl; auto; set_solver by idtac. }
  pose proof (keeps_run _ (Script.main e) (Script.boot m)
                (main_only_artifacts e _ _) H0) as H1.
  pose proof (main_dir e (Script.boot m) I) as H2.
  unfold Script.run.
  destruct (Script.main e (Script.boot m)) as [[u|x] s']; simpl in *;
    destruct H1 as (F & D1 & D2); repeat split; auto; discriminate.
Qed.

(* ===================================================================== *)
(** ** The last line and the hint *)
(* ===================================================================== *)

Section Output.
Import Sqlite Script.

Lemma silent_emit (t line : string) (s : sys) :
  line <> t -> silent t s -> silent t (emit line s).
Proof.
  unfold silent. simpl. intros Hne Hs Hin.
  apply in_app_or in Hin as [Hin|[Heq|[]]]; auto.
Qed.

Lemma silent_upd (t : string) (d : option database) (l : list connection)
    (ev : event) (s : sys) :
  silent t s -> silent t (upd_db d l ev s).
Proof. intros H. exact H. Qed.

End Output.

(** Two lines differ: at their first character, or by evaluation. *)
Ltac differs :=
  let H := fresh "H" in
  intros H; unfold success_line, cli_hint, PyStr.nl, PyStr.dquote in H;
  first [ rewrite ?str_append_cons in H; discriminate H
        | vm_compute in H; discriminate H ].

(** [keeps (silent t)] along the program. *)
Ltac silent_tac :=
  repeat keeps_step;
  try (intros; apply silent_emit; [differs|assumption]);
  try (intros; assumption).

Section OutputRun.
Import Sqlite Script.
Context (e : environ).

Lemma probe_silent_success : keeps (silent success_line) (probe e).
Proof. unfold probe. silent_tac. Qed.

Lemma provision_db_silent_success :
  keeps (silent success_line) (provision_db e).
Proof.
  unfold provision_db, create_schema, upsert_app_info, seed_todos,
    commit_and_count.
  silent_tac.
Qed.

Lemma write_artifacts_silent_success :
  keeps (silent success_line) (write_artifacts e).
Proof. unfold write_artifacts. silent_tac. Qed.

Lemma probe_silent_hint : keeps (silent cli_hint) (probe e).
Proof. unfold probe. silent_tac. Qed.

Lemma provision_db_silent_hint : keeps (silent cli_hint) (provision_db e).
Proof.
  unfold provision_db, create_schema, upsert_app_info, seed_todos,
    commit_and_count.
  silent_tac.
Qed.

Lemma write_artifacts_silent_hint :
  keeps (silent cli_hint) (write_artifacts e).
Proof. unfold write_artifacts. silent_tac. Qed.

(** The script prints its last line when it gets there, and not
    before. *)
Lemma main_success :
  triple (fun s => stdout s = []) (main e)
    (fun _ s' => exists l, stdout s' = (l ++ [success_line])%list
                           /\ ~ In success_line l)
    (fun _ s' => silent success_line s').
Proof.
  unfold main.
  eapply triple_bind with (R := fun _ => silent success_line).
  { apply triple_print. intros s Hs. apply silent_emit; [differs|].
    unfold silent. now rewrite Hs. }
  intros u.
  eapply triple_bind; [apply probe_silent_success|]. intros v.
  eapply triple_bind; [apply provision_db_silent_success|]. intros counts.
  eapply triple_bind; [apply write_artifacts_silent_success|].
  intros [db_abs_path connection_string].
  unfold report. destruct counts as [[table_count record_count] todos_count].
  do 14 (eapply (triple_bind _ _ _ (fun _ => silent success_line));
         [apply triple_print; intros s Hs; apply silent_emit;
            [differs|exact Hs]
         | intros ?]).
  eapply (triple_bind _ _ _ (fun _ => silent success_line)).
  - eapply triple_try with (R := fun _ => silent success_line);
      [|intros x; now apply triple_ret].
    assert (K : keeps (silent success_line)
      (returncode ← which_sqlite3 e;
       if (returncode =? 0)%Z
       then (print EmptyString;;
             print "SQLite CLI is available. You can also use:";;
             print ("  sqlite3 " +:+ DB_NAME))
       else mret tt)) by silent_tac.
    exact K.
  - intros ?. apply triple_print. intros s Hs. simpl. eauto.
Qed.

(** The hint is printed exactly when [which] ran and returned 0. *)
Lemma main_hint :
  triple (fun s => stdout s = []) (main e)
    (fun _ s' => In cli_hint (stdout s')
                 <-> fault e at_which = None /\ which_returncode e = 0)
    (fun _ _ => True).
Proof.
  unfold main.
  eapply triple_bind with (R := fun _ => silent cli_hint).
  { apply triple_print. intros s Hs. apply silent_emit; [differs|].
    unfold silent. now rewrite Hs. }
  intros u.
  eapply triple_seq; [apply probe_silent_hint|auto|]. intros v.
  eapply triple_seq; [apply provision_db_silent_hint|auto|]. intros counts.
  eapply triple_seq; [apply write_artifacts_silent_hint|auto|].
  intros [db_abs_path connection_string].
  unfold report. destruct counts as [[table_count record_count] todos_count].
  do 14 (eapply (triple_bind _ _ _ (fun _ => silent cli_hint));
         [apply triple_print; intros s Hs; apply silent_emit;
            [differs|exact Hs]
         | intros ?]).
  eapply (triple_bind _ _ _
            (fun _ s' => In cli_hint (stdout s')
                         <-> fault e at_which = None
                             /\ which_returncode e = 0)).
  - eapply triple_try
      with (R := fun _ s => fault e at_which <> None /\ silent cli_hint s).
    + eapply triple_bind
        with (R := fun code s => code = which_returncode e
                                 /\ fault e at_which = None
                                 /\ silent cli_hint s).
      { unfold which_sqlite3.
        eapply triple_seq; [apply triple_may_fail| |].
        - intros x s [Hf Hs]. split; [congruence|exact Hs].
        - intros w. apply triple_ret. intros s [Hf Hs]. auto. }
      intros code. apply triple_pure. intros ->.
      apply triple_pure. intros Hf.
      destruct (which_returncode e =? 0)%Z eqn:Hr.
      * apply Z.eqb_eq in Hr.
        eapply (triple_bind _ _ _ (fun _ _ => True));
          [apply triple_print; auto|intros ?].
        eapply (triple_bind _ _ _ (fun _ s => In cli_hint (stdout s))).
        { apply triple_print. intros s _. simpl. apply in_or_app.
          right. left. reflexivity. }
        intros ?. apply triple_print. intros s Hs. simpl.
        split; [auto|]. intros _. apply in_or_app. left. exact Hs.
      * apply Z.eqb_neq in Hr. apply triple_ret. intros s Hs.
        split; [intros Hin; contradiction|intros [_ H0]; contradiction].
    + intros x. apply triple_ret. intros s [Hf Hs].
      split; [intros Hin; contradiction|intros [H0 _]; contradiction].
  - intros ?. apply triple_print. intros s Hs. simpl. rewrite <- Hs.
    split.
    + intros Hin. apply in_app_or in Hin as [Hin|[Heq|[]]]; [exact Hin|].
      exfalso. revert Heq. differs.
    + intros Hin. apply in_or_app. left. exact Hin.
Qed.

End OutputRun.

(** X12: the line [Script completed successfully.] tells the truth: it is
    in the output exactly when the run exits normally, and then it is the
    last line and occurs once; a run that ends in an exception never
    prints it. *)
Theorem X12_success_line_iff_normal_exit (e : Script.environ)
    (m : Script.machine) :
  let out := Script.printed (Script.run e m) in
  (In success_line out <-> Script.exit (Script.run e m) = Ok tt)
  /\ (Script.exit (Script.run e m) = Ok tt ->
      exists l, out = (l ++ [success_line])%list /\ ~ In success_line l).
Proof.
  intros out. subst out.
  pose proof (main_success e (Script.boot m) eq_refl) as H.
  unfold Script.run.
  destruct (Script.main e (Script.boot m)) as [[[]|x] s']; simpl.
  - destruct H as (l & Hl & Hn). split; [|eauto].
    split; [reflexivity|]. intros _. rewrite Hl. apply in_or_app.
    right. left. reflexivity.
  - split; [|discriminate]. split; [intros Hin; contradiction|discriminate].
Qed.

(** X13: a run that exits normally announces the command-line client
    exactly when [which sqlite3] ran and returned 0; when starting it
    raises, the exception is dropped, the line is left out, and the run
    still exits normally. *)
Theorem X13_cli_hint (e : Script.environ) (m : Script.machine) :
  Script.exit (Script.run e m) = Ok tt ->
  (In cli_hint (Script.printed (Script.run e m))
   <-> Script.fault e Script.at_which = None
       /\ Script.which_returncode e = 0).
Proof.
  pose proof (main_hint e (Script.boot m) eq_refl) as H.
  unfold Script.run.
  destruct (Script.main e (Script.boot m)) as [[[]|x] s']; simpl;
    [|discriminate].
  intros _. exact H.
Qed.

Lemma X13_witness :
  In cli_hint (Script.printed (Script.run Examples.rough Examples.stale))
  <-> Script.fault Examples.rough Script.at_which = None
      /\ Script.which_returncode Examples.rough = 0.
Proof.
  apply (X13_cli_hint Examples.rough Examples.stale).
  vm_compute. reflexivity.
Defined.

(* ===================================================================== *)
(** ** How the run ends *)
(* ===================================================================== *)

Section Exit.
Import Sqlite Script.
Context (e : environ).
Implicit Types (P I : sys -> Prop).

(** What a call establishes, together with what it keeps. *)
Lemma triple_frame {A : Type} P I (m : M A) (Q : A -> sys -> Prop)
    (E : string -> sys -> Prop) :
  triple P m Q E -> keeps I m ->
  triple (fun s => P s /\ I s) m (fun a s => Q a s /\ I s)
    (fun x s => E x s /\ I s).
Proof.
  intros H K s [Hp Hi]. specialize (H s Hp). specialize (K s Hi).
  destruct (m s) as [[a|x] s']; auto.
Qed.

(** The writing of the two files raises exactly [art_raise]; the
    database is not touched. *)
Lemma write_artifacts_exit (dirs0 : gset string) (d : database) :
  triple (fun s => dirs s = dirs0 /\ disk s = Some d) (write_artifacts e)
    (fun _ s' =>
       art_raise e (bool_decide ("db_visualizer" ∈ dirs0)) = None
       /\ disk s' = Some d)
    (fun x s' =>
       art_raise e (bool_decide ("db_visualizer" ∈ dirs0)) = Some x
       /\ disk s' = Some d).
Proof.
  pose (I0 := fun s : sys => dirs s = dirs0 /\ disk s = Some d).
  assert (I0e : forall l s, I0 s -> I0 (emit l s)) by (intros l s H; exact H).
  assert (I0f : forall f s, I0 s -> I0 (set_files f s))
    by (intros l s H; exact H).
  unfold write_artifacts, art_raise.
  eapply triple_bind with (R := fun _ s => fault e at_getcwd = None /\ I0 s).
  { unfold os_getcwd. eapply triple_seq; [apply triple_may_fail| |].
    - intros x s [Hf [_ Hd]]. now rewrite Hf.
    - intros u. apply triple_ret. auto. }
  intros current_dir. apply triple_pure. intros ->.
  eapply triple_seq with (R := fun _ => I0) (E1 := fun _ _ => False).
  { eapply triple_try with (R := fun _ => I0).
    - assert (K : keeps I0
        (write_file e at_write_db_connection "db_connection.txt"
           (db_connection_writes
              ("sqlite:///" +:+ current_dir +:+ "/" +:+ DB_NAME)
              (current_dir +:+ "/" +:+ DB_NAME));;
         print "Connection information saved to db_connection.txt"))
        by (keeps_tac; auto).
      exact K.
    - intros x. apply triple_print. auto. }
  { intros x s []. }
  intros u.
  eapply triple_bind with (R := fun _ s => fault e at_abspath = None /\ I0 s).
  { unfold os_path_abspath. eapply triple_seq; [apply triple_may_fail| |].
    - intros x s [Hf [_ Hd]]. now rewrite Hf.
    - intros v. apply triple_ret. auto. }
  intros db_path. apply triple_pure. intros ->.
  eapply triple_bind
    with (R := fun there s => there = bool_decide ("db_visualizer" ∈ dirs0)
                              /\ disk s = Some d).
  { intros s [Hs Hd]. unfold dir_exists. cbv beta iota. now rewrite Hs. }
  intros there. apply triple_pure. intros ->.
  eapply triple_bind
    with (R := fun _ s =>
            (if bool_decide ("db_visualizer" ∈ dirs0) then None
             else fault e at_makedirs) = None /\ disk s = Some d).
  { destruct (bool_decide ("db_visualizer" ∈ dirs0)); cbn [negb].
    - apply triple_ret. auto.
    - eapply triple_bind
        with (R := fun _ s => fault e at_makedirs = None /\ disk s = Some d).
      + unfold os_makedirs. eapply triple_seq; [apply triple_may_fail| |].
        * intros x s H. exact H.
        * intros v. apply triple_act. intros s H. exact H.
      + intros v. apply triple_print. auto. }
  intros v. apply triple_pure. intros ->.
  eapply triple_seq with (R := fun _ s => disk s = Some d)
    (E1 := fun _ _ => False).
  { eapply triple_try with (R := fun _ s => disk s = Some d).
    - assert (K : keeps (fun s => disk s = Some d)
        (write_file e at_write_sqlite_env "db_visualizer/sqlite.env"
           (sqlite_env_writes db_path);;
         print "Environment variables saved to db_visualizer/sqlite.env"))
        by (keeps_tac; auto).
      exact K.
    - intros x. apply triple_print. auto. }
  { intros x s []. }
  intros w. apply triple_ret. auto.
Qed.

(** The whole script: its exit and the database it leaves. *)
Lemma main_exit (d0 : database) (dirs0 : gset string) :
  triple (fun s => on_disk s = d0 /\ dirs s = dirs0) (main e)
    (fun _ s' => exists d, db_after e d0 = Ok d /\ disk s' = Some d
                           /\ art_raise e (bool_decide
                                             ("db_visualizer" ∈ dirs0))
                              = None)
    (fun x s' =>
       db_after e d0 = Raise x
       \/ exists d, db_after e d0 = Ok d /\ disk s' = Some d
                    /\ art_raise e (bool_decide ("db_visualizer" ∈ dirs0))
                       = Some x).
Proof.
  pose (D := fun s : sys => dirs s = dirs0).
  assert (De : forall l s, D s -> D (emit l s)) by (intros l s H; exact H).
  assert (Du : forall d l ev s, D s -> D (upd_db d l ev s))
    by (intros d l ev s H; exact H).
  unfold main.
  eapply (triple_bind _ _ _ (fun _ s => on_disk s = d0 /\ D s)).
  { apply triple_print. auto. }
  intros u.
  eapply triple_seq.
  { apply (triple_frame _ D _ _ _ (probe_triple e d0)).
    unfold probe. keeps_tac; auto. }
  { intros x s [[] _]. }
  intros v.
  eapply triple_seq.
  { apply (triple_frame _ D _ _ _ (provision_db_triple e d0)).
    apply provision_db_keeps; auto. }
  { intros x s [[H _] _]. left. exact H. }
  intros counts.
  eapply triple_conseq with
    (P := fun s => exists d, db_after e d0 = Ok d
                             /\ (dirs s = dirs0 /\ disk s = Some d))
    (Q := fun _ s' => exists d, db_after e d0 = Ok d /\ disk s' = Some d
                           /\ art_raise e (bool_decide
                                             ("db_visualizer" ∈ dirs0))
                              = None)
    (E := fun x s' =>
       db_after e d0 = Raise x
       \/ exists d, db_after e d0 = Ok d /\ disk s' = Some d
                    /\ art_raise e (bool_decide ("db_visualizer" ∈ dirs0))
                       = Some x); auto.
  2:{ intros s [(d & Hd & Hs) HD]. exists d. auto. }
  apply triple_exists. intros d. apply triple_pure. intros Hd.
  eapply triple_seq; [apply (write_artifacts_exit dirs0 d)| |].
  { intros x s [Ha Hs]. right. eauto. }
  intros [db_abs_path connection_string].
  eapply triple_conseq;
    [apply (report_triple e
              (fun s' => art_raise e (bool_decide ("db_visualizer" ∈ dirs0))
                         = None /\ disk s' = Some d))
    | | |]; auto.
  - intros u0 s [Ha Hs]. eauto.
  - intros x s [].
Qed.

End Exit.

(** X14: how the run ends.  It raises the exception of the main
    connection, if one of its calls raises; otherwise that of
    [os.getcwd], of [os.path.abspath], or (only when db_visualizer does
    not exist) of [os.makedirs]; otherwise it exits normally: no failure
    of the probe, of the two writes or of [which] ends the run.  When it
    fails after the main connection was closed, the database stays
    committed. *)
Theorem X14_exit_status (e : Script.environ) (m : Script.machine) :
  Script.exit (Script.run e m)
  = and_then (db_after e (db_of m)) (fun _ =>
      match art_raise e (bool_decide ("db_visualizer" ∈ Script.m_dirs m)) with
      | Some x => Raise x
      | None => Ok tt
      end)
  /\ (forall d, db_after e (db_of m) = Ok d ->
                Script.m_disk (Script.after (Script.run e m)) = Some d).
Proof.
  pose proof (main_exit e (db_of m) (Script.m_dirs m) (Script.boot m)
                (conj eq_refl eq_refl)) as H.
  unfold Script.run.
  destruct (Script.main e (Script.boot m)) as [[[]|x] s']; simpl.
  - destruct H as (d & Hd & Hs & Ha). rewrite Hd, Ha. simpl.
    split; [reflexivity|]. intros d' [= <-]. exact Hs.
  - destruct H as [H|(d & Hd & Hs & Ha)].
    + rewrite H. simpl. split; [reflexivity|discriminate].
    + rewrite Hd, Ha. simpl. split; [reflexivity|].
      intros d' [= <-]. exact Hs.
Qed.

(* ===================================================================== *)
(** ** What the trigger leaves alone *)
(* ===================================================================== *)

Section TriggerFrame.
Import Sqlite.
Context (now : Z) (u : update).

Lemma NoDup_map_inj {A B : Type} (f : A -> B) (l : list A) (x y : A) :
  List.NoDup (map f l) -> In x l -> In y l -> f x = f y -> x = y.
Proof.
  induction l as [|a l IH]; simpl; [intros _ []|].
  intros H. apply List.NoDup_cons_iff in H as [Ha Hl].
  intros [->|Hx] [->|Hy] E; auto.
  - exfalso. apply Ha. rewrite E. now apply in_map.
  - exfalso. apply Ha. rewrite <- E. now apply in_map.
Qed.

(** The update of row [i] and the trigger, row by row. *)
Lemma update_row_map (i : Z) (l : list todos_row) :
  update_row true now u i l
  = map (fun r => if (td_id r =? i)%Z
                  then touch now (keep_id r (upd_set u r)) else r) l.
Proof.
  unfold update_row, trigger_body. rewrite map_map. apply map_ext.
  intros r. destruct (td_id r =? i)%Z eqn:E; cbn [keep_id td_id];
    now rewrite E.
Qed.

Lemma update_loop_map (ids : list Z) (l : list todos_row) :
  List.NoDup ids ->
  fold_left (fun l i => update_row true now u i l) ids l
  = map (fun r => if existsb (Z.eqb (td_id r)) ids
                  then touch now (keep_id r (upd_set u r)) else r) l.
Proof.
  revert l. induction ids as [|i ids IH]; intros l Hn; cbn [fold_left].
  - cbn [existsb]. now rewrite map_id.
  - apply List.NoDup_cons_iff in Hn as [Hi Hn].
    rewrite IH, update_row_map, map_map by exact Hn. apply map_ext.
    intros r. cbn [existsb].
    destruct (td_id r =? i)%Z eqn:E; cbn [orb]; [|reflexivity].
    apply Z.eqb_eq in E. cbn [touch keep_id td_id]. rewrite E.
    destruct (existsb (Z.eqb i) ids) eqn:Ex; [|reflexivity].
    exfalso. apply Hi. apply existsb_exists in Ex as (j & Hj & Ej).
    apply Z.eqb_eq in Ej. now subst.
Qed.

(** With ids unique, the rows the statement selects are those whose id
    it collected. *)
Lemma selected_ids (l : list todos_row) (r : todos_row) :
  List.NoDup (map td_id l) -> In r l ->
  existsb (Z.eqb (td_id r)) (map td_id (List.filter (upd_where u) l))
  = upd_where u r.
Proof.
  intros Hn Hr. destruct (upd_where u r) eqn:Hw.
  - apply existsb_exists. exists (td_id r). split; [|apply Z.eqb_refl].
    apply in_map, filter_In. auto.
  - destruct (existsb _ _) eqn:Ex; [|reflexivity].
    apply existsb_exists in Ex as (j & Hj & Ej). apply Z.eqb_eq in Ej.
    apply in_map_iff in Hj as (r' & Hr' & Hin).
    apply filter_In in Hin as [Hin Hw'].
    assert (r' = r) by (eapply NoDup_map_inj; eauto; congruence).
    congruence.
Qed.

(** An UPDATE on a database that has the trigger, in closed form. *)
Lemma exec_update_rows (d : database) (t : table todos_row) :
  todos d = Some t -> trg_todos_updated_at d = true ->
  List.NoDup (map td_id (rows t)) ->
  exec_update now u d
  = Ok (set_todos
          (Some {| rows := map (fun r => if upd_where u r
                                         then touch now
                                                (keep_id r (upd_set u r))
                                         else r) (rows t);
                   seq := seq t |}) d).
Proof.
  intros Ht Hg Hn. unfold exec_update. rewrite Ht, Hg.
  rewrite update_loop_map by now apply NoDup_map_filter.
  do 3 f_equal. f_equal. apply map_ext_in. intros r Hr.
  now rewrite selected_ids.
Qed.

End TriggerFrame.

(** X15: the trigger changes updated_at and nothing else.  In a database
    provisioned by a run that exited normally, whose todos have distinct
    ids, an UPDATE issued at the clock reading [now] leaves every row it
    does not select as it was, and gives each row it selects the columns
    of its SET clause under the old id, with updated_at = [now]; the rows
    keep their order, and app_info and users are not touched. *)
Theorem X15_trigger_changes_updated_at_only (e : Script.environ)
    (m : Script.machine) (now : Z) (u : Sqlite.update) :
  Script.exit (Script.run e m) = Ok tt ->
  let db := db_of (Script.after (Script.run e m)) in
  List.NoDup (map Sqlite.td_id (Sqlite.rows_of (Sqlite.todos db))) ->
  exists db',
    Sqlite.exec_update now u db = Ok db'
    /\ Sqlite.rows_of (Sqlite.todos db')
       = map (fun r => if Sqlite.upd_where u r
                       then Sqlite.touch now
                              (Sqlite.keep_id r (Sqlite.upd_set u r))
                       else r) (Sqlite.rows_of (Sqlite.todos db))
    /\ Sqlite.app_info db' = Sqlite.app_info db
    /\ Sqlite.users db' = Sqlite.users db.
Proof.
  intros H db Hn.
  apply run_ok_txn, txn_after_result in H as (S & _). fold db in S.
  assert (G : Sqlite.trg_todos_updated_at db = true
              /\ exists t, Sqlite.todos db = Some t).
  { unfold Sqlite.schema in S.
    destruct (Sqlite.app_info db), (Sqlite.users db), (Sqlite.todos db),
      (Sqlite.trg_todos_updated_at db); try discriminate S; eauto. }
  destruct G as [G [t Ht]]. rewrite Ht in Hn |- *. cbn [Sqlite.rows_of] in *.
  rewrite (exec_update_rows now u db t Ht G Hn).
  eexists. split; [reflexivity|]. cbn [Sqlite.set_todos Sqlite.todos
    Sqlite.app_info Sqlite.users Sqlite.rows_of Sqlite.rows]. auto.
Qed.

Lemma X15_witness :
  let db := db_of (Script.after (Script.run Examples.seeding_env
                                   Script.fresh)) in
  exists db',
    Sqlite.exec_update 200 Examples.complete_second db = Ok db'
    /\ Sqlite.rows_of (Sqlite.todos db')
       = map (fun r => if Sqlite.upd_where Examples.complete_second r
                       then Sqlite.touch 200
                              (Sqlite.keep_id r
                                 (Sqlite.upd_set Examples.complete_second r))
                       else r) (Sqlite.rows_of (Sqlite.todos db))
    /\ Sqlite.app_info db' = Sqlite.app_info db
    /\ Sqlite.users db' = Sqlite.users db.
Proof.
  apply (X15_trigger_changes_updated_at_only Examples.seeding_env
           Script.fresh 200 Examples.complete_second).
  - vm_compute. reflexivity.
  - vm_compute. repeat (apply List.NoDup_cons; [simpl; lia|]).
    apply List.NoDup_nil.
Defined.

(* ===================================================================== *)
(** ** The output, line by line *)
(* ===================================================================== *)

Section Says.
Import Sqlite Script.
Context (e : environ) (L : list string).
Implicit Types (l : list string) (I : sys -> Prop).

Lemma says_print l (x : string) E :
  triple (says L l) (print x) (fun _ => says L (l ++ [x])) E.
Proof.
  apply triple_print. unfold says. intros s Hs. simpl.
  now rewrite Hs, app_assoc.
Qed.

Lemma says_print_to I l l' (x : string) E :
  (forall s, I s -> says L l s) -> (l ++ [x])%list = l' ->
  triple I (print x) (fun _ => says L l') E.
Proof.
  intros HI <-.
  eapply triple_conseq; [apply (says_print l x E)|exact HI| |];
    intros a s H; exact H.
Qed.

Lemma says_upd l (d : option database) (k : list connection) (ev : event)
    (s : sys) :
  says L l s -> says L l (upd_db d k ev s).
Proof. intros H. exact H. Qed.

Lemma says_nil l (s : sys) : says L l s -> says L (l ++ []) s.
Proof. now rewrite app_nil_r. Qed.

(** [try: with open(..) as f: ..; print(ok)  except: print(warn(e))]
    prints one line. *)
Lemma try_write_says l (st : site) (path : string) (w : list string)
    (ok : string) (warn : string -> string) E :
  triple (says L l)
    (try_except (write_file e st path w;; print ok)
       (fun msg => print (warn msg)))
    (fun _ => says L (l ++ [ match fault e st with
                             | None => ok
                             | Some x => warn x
                             end ])) E.
Proof.
  eapply triple_try
    with (R := fun x s => fault e st = Some x /\ says L l s).
  - eapply triple_bind
      with (R := fun _ s => fault e st = None /\ says L l s).
    + unfold write_file. eapply triple_seq; [apply triple_may_fail| |].
      * intros x s H. exact H.
      * intros u. apply triple_act. intros s H. exact H.
    + intros u. apply triple_pure. intros ->. apply says_print.
  - intros x. apply triple_pure. intros ->. apply says_print.
Qed.

(** Lines 197-204. *)
Lemma which_says l E :
  triple (says L l)
    (try_except
       (returncode ← which_sqlite3 e;
        if (returncode =? 0)%Z
        then (print EmptyString;;
              print "SQLite CLI is available. You can also use:";;
              print ("  sqlite3 " +:+ DB_NAME))
        else mret tt)
       (fun _ => mret tt))
    (fun _ => says L (l ++ hint_lines e)) E.
Proof.
  unfold hint_lines.
  eapply triple_try
    with (R := fun x s => fault e at_which = Some x /\ says L l s).
  - eapply triple_bind
      with (R := fun code s => code = which_returncode e
                               /\ fault e at_which = None /\ says L l s).
    { unfold which_sqlite3.
      eapply triple_seq; [apply triple_may_fail| |].
      - intros x s H. exact H.
      - intros w. apply triple_ret. intros s [Hf Hs]. auto. }
    intros code. apply triple_pure. intros ->.
    apply triple_pure. intros ->.
    destruct (which_returncode e =? 0)%Z.
    + eapply triple_bind; [apply says_print|intros ?].
      eapply triple_bind; [apply says_print|intros ?].
      eapply says_print_to; [intros s H; exact H|].
      unfold cli_hint. now rewrite <- !app_assoc.
    + apply triple_ret. apply says_nil.
  - intros x. apply triple_pure. intros ->. apply triple_ret. apply says_nil.
Qed.

(** Lines 179-207. *)
Lemma report_says l (db_abs_path connection_string : string)
    (counts : Z * Z * Z) :
  triple (says L l) (report e db_abs_path connection_string counts)
    (fun _ => says L (l ++ report_lines e db_abs_path connection_string
                             counts))
    (fun _ _ => False).
Proof.
  unfold report, report_lines, stat_lines.
  destruct counts as [[table_count record_count] todos_count].
  do 14 (eapply triple_bind; [apply says_print|intros ?]).
  eapply triple_bind; [apply which_says|intros ?].
  eapply says_print_to; [intros s H; exact H|].
  unfold success_line. now rewrite <- !app_assoc.
Qed.

(** Lines 145-177. *)
Lemma write_artifacts_says l (dirs0 : gset string) :
  triple (fun s => says L l s /\ dirs s = dirs0) (write_artifacts e)
    (fun r s' =>
       r = (cwd e +:+ "/" +:+ DB_NAME,
            "sqlite:///" +:+ cwd e +:+ "/" +:+ DB_NAME)
       /\ says L (l ++ artifact_lines e
                         (bool_decide ("db_visualizer" ∈ dirs0))) s')
    (fun _ _ => True).
Proof.
  unfold write_artifacts, artifact_lines.
  eapply triple_bind; [apply getcwd_result|].
  intros current_dir. apply triple_pure. intros ->.
  eapply triple_seq.
  { apply (triple_frame _ (fun s => dirs s = dirs0));
      [apply (try_write_says _ _ _ _ _ _ (fun _ _ => True))
      |keeps_tac; auto]. }
  { intros x s _. exact I. }
  intros u.
  eapply triple_bind; [apply abspath_result|].
  intros db_path. apply triple_pure. intros ->.
  eapply triple_bind
    with (R := fun there s =>
            there = bool_decide ("db_visualizer" ∈ dirs0)
            /\ says L (l ++ [ match fault e at_write_db_connection with
                              | None =>
                                  "Connection information saved to db_connection.txt"
                              | Some x =>
                                  "Warning: Could not save connection info: "
                                  +:+ x
                              end ]) s).
  { intros s [Hs Hd]. unfold dir_exists. cbv beta iota. now rewrite Hd. }
  intros there. apply triple_pure. intros ->.
  eapply triple_bind
    with (R := fun _ =>
            says L ((l ++ [ match fault e at_write_db_connection with
                            | None =>
                                "Connection information saved to db_connection.txt"
                            | Some x =>
                                "Warning: Could not save connection info: "
                                +:+ x
                            end ])
                    ++ (if bool_decide ("db_visualizer" ∈ dirs0) then []
                        else [ "Created db_visualizer directory" ]))).
  { destruct (bool_decide ("db_visualizer" ∈ dirs0)); cbn [negb].
    - apply triple_ret. apply says_nil.
    - eapply triple_seq with (R := fun _ => says L _)
        (E1 := fun _ _ => True); [|auto|intros v; apply says_print].
      assert (K : keeps (says L (l ++ [ match fault e at_write_db_connection with
                            | None =>
                                "Connection information saved to db_connection.txt"
                            | Some x =>
                                "Warning: Could not save connection info: "
                                +:+ x
                            end ])) (os_makedirs e "db_visualizer"))
        by (keeps_tac; auto).
      eapply triple_conseq; [apply K| | |]; auto. }
  intros v.
  eapply triple_bind; [apply try_write_says|].
  intros w. apply triple_ret. intros s. unfold says. intros ->.
  split; [reflexivity|].
  unfold db_connection_warning, sqlite_env_warning.
  now rewrite <- !app_assoc.
Qed.

(** Lines 25-38. *)
Lemma probe_says l (dk : option database) :
  triple (fun s => disk s = dk /\ says L l s) (probe e)
    (fun _ => says L (l ++ probe_lines e (is_some dk)))
    (fun _ _ => False).
Proof.
  unfold probe, probe_lines.
  eapply triple_bind
    with (R := fun b s => b = is_some dk /\ disk s = dk /\ says L l s).
  { intros s [Hd Hs]. unfold db_file_exists. cbv beta iota.
    rewrite Hd. auto. }
  intros b. apply triple_pure. intros ->.
  destruct dk as [d0|]; cbn [is_some];
    [|eapply says_print_to; [intros s [_ H]; exact H|reflexivity]].
  set (l1 := (l ++ ["SQLite database already exists at " +:+ DB_NAME])%list).
  eapply triple_bind
    with (R := fun _ s => on_disk s = d0 /\ says L l1 s).
  { apply triple_print. intros s [Hd Hs]. split.
    - unfold on_disk. simpl. now rewrite Hd.
    - revert Hs. unfold says, l1. simpl. intros ->. now rewrite app_assoc. }
  intros u.
  assert (Hu : forall d k ev s, says L l1 s -> says L l1 (upd_db d k ev s))
    by (intros d k ev s H; exact H).
  eapply triple_conseq
    with (P := fun s => on_disk s = d0 /\ says L l1 s)
         (Q := fun _ => says L (l1 ++ [ match probe_fault e with
                                         | None =>
                                             "Database is accessible and working."
                                         | Some x => probe_warning x
                                         end ]))
         (E := fun _ _ => False);
    [ | intros s H; exact H
      | intros v s; unfold says, l1; intros ->; now rewrite <- !app_assoc
      | intros x s [] ].
  eapply triple_try
    with (R := fun x s => probe_fault e = Some x /\ says L l1 s).
  - eapply triple_seq.
    { apply (triple_frame _ (says L l1) _ _ _ (connect_triple e _ d0)).
      apply keeps_connect. exact Hu. }
    { intros x s [[H _] Hs]. split; [|exact Hs].
      unfold check in H. unfold probe_fault.
      destruct (fault e at_probe_connect); [congruence|discriminate]. }
    intros c.
    eapply triple_conseq
      with (P := fun s => check e at_probe_connect = Ok tt
                          /\ (Conn c d0 None s /\ says L l1 s))
           (Q := fun _ s => says L (l1 ++ [ match probe_fault e with
                                            | None =>
                                                "Database is accessible and working."
                                            | Some x => probe_warning x
                                            end ]) s)
           (E := fun x s => probe_fault e = Some x /\ says L l1 s); auto.
    2:{ intros s [[H1 H2] H3]. auto. }
    apply triple_pure. intros Hc. apply check_ok in Hc.
    eapply triple_seq.
    { apply (triple_frame _ (says L l1) _ _ _
               (execute_triple e at_probe_select c SELECT_1 d0 None)).
      apply keeps_execute. intros; now apply Hu. }
    { intros x s [[H _] Hs]. split; [|exact Hs].
      unfold stmt in H. unfold probe_fault. rewrite Hc.
      destruct (fault e at_probe_select); [congruence|discriminate]. }
    intros r.
    eapply triple_conseq
      with (P := fun s => exists d',
                   stmt e at_probe_select SELECT_1 d0 = Ok (d', r)
                   /\ (Conn c d' None s /\ says L l1 s))
           (Q := fun _ s => says L (l1 ++ [ match probe_fault e with
                                            | None =>
                                                "Database is accessible and working."
                                            | Some x => probe_warning x
                                            end ]) s)
           (E := fun x s => probe_fault e = Some x /\ says L l1 s); auto.
    2:{ intros s [(d' & H1 & H2) H3]. exists d'. auto. }
    apply triple_exists. intros d'. apply triple_pure. intros H.
    apply stmt_ok in H as [Hs H].
    eapply triple_seq.
    { apply (triple_frame _ (says L l1) _ _ _
               (close_triple e at_probe_close c d' None)).
      apply keeps_close. intros; now apply Hu. }
    { intros x s [[H' _] Hs']. split; [|exact Hs'].
      unfold check in H'. unfold probe_fault. rewrite Hc, Hs.
      destruct (fault e at_probe_close); [congruence|discriminate]. }
    intros v.
    eapply triple_conseq
      with (P := fun s => check e at_probe_close = Ok tt /\ says L l1 s)
           (Q := fun _ s => says L (l1 ++ [ match probe_fault e with
                                            | None =>
                                                "Database is accessible and working."
                                            | Some x => probe_warning x
                                            end ]) s)
           (E := fun x s => probe_fault e = Some x /\ says L l1 s); auto.
    2:{ intros s [[H1 H2] H3]. auto. }
    apply triple_pure. intros Hl. apply check_ok in Hl.
    assert (Hp : probe_fault e = None)
      by (unfold probe_fault; now rewrite Hc, Hs, Hl).
    rewrite Hp. apply says_print.
  - intros x. apply triple_pure. intros ->. apply says_print.
Qed.

End Says.

Section SaysDb.
Import Sqlite Script.
Context (e : environ) (L : list string).
Implicit Types (l : list string) (P I : sys -> Prop).

(** Two facts about the same call. *)
Lemma triple_both {A : Type} P P' (m : M A) (Q Q' : A -> sys -> Prop)
    (E E' : string -> sys -> Prop) :
  triple P m Q E -> triple P' m Q' E' ->
  triple (fun s => P s /\ P' s) m (fun a s => Q a s /\ Q' a s)
    (fun x s => E x s /\ E' x s).
Proof.
  intros H H' s [Hp Hp']. specialize (H s Hp). specialize (H' s Hp').
  destruct (m s) as [[a|x] s']; auto.
Qed.

Lemma says_kept_by_upd l :
  forall d k ev s, says L l s -> says L l (upd_db d k ev s).
Proof. intros d k ev s H. exact H. Qed.

(** Lines 109-128: the seeding step prints one line. *)
Lemma seed_todos_says l (c : nat) (d dt : database) :
  triple (fun s => Conn c d (Some dt) s /\ says L l s) (seed_todos e c)
    (fun _ => says L (l ++ [seed_line e dt])) (fun _ _ => True).
Proof.
  pose proof (says_kept_by_upd l) as Hu.
  unfold seed_todos, seed_line. destruct (seed_flag e);
    [|eapply says_print_to; [intros s [_ H]; exact H|reflexivity]].
  eapply triple_seq.
  { apply (triple_frame _ (says L l) _ _ _
             (execute_triple e at_seed_count c SELECT_COUNT_FROM_todos d
                (Some dt))).
    apply keeps_execute. intros; now apply Hu. }
  { intros x s _. exact I. }
  intros r.
  eapply triple_conseq
    with (P := fun s => exists d',
                 stmt e at_seed_count SELECT_COUNT_FROM_todos dt = Ok (d', r)
                 /\ (Conn c d (Some d') s /\ says L l s))
         (Q := fun _ => says L (l ++ [ if (Z.of_nat
                                            (length (rows_of (todos dt)))
                                          =? 0)%Z
                                       then "Seeded sample todos (SEED_TODOS enabled)."
                                       else "Skipping seeding todos: table already has data." ]))
         (E := fun _ _ => True);
    [ | intros s [(d' & H1 & H2) H3]; exists d'; auto
      | intros u s H; exact H | auto ].
  apply triple_exists. intros d'. apply triple_pure. intros H.
  destruct (count_todos_result e _ _ _ _ H) as [-> ->].
  apply triple_ret_bind.
  destruct (Z.of_nat (length (rows_of (todos dt))) =? 0)%Z;
    [|eapply says_print_to; [intros s [_ Hs]; exact Hs|reflexivity]].
  eapply triple_seq.
  { apply (triple_frame _ (says L l) _ _ _
             (for_each_seed e sample_todos 0 c d dt)).
    keeps_tac. intros; now apply Hu. }
  { intros x s _. exact I. }
  intros u. eapply says_print_to; [intros s [_ Hs]; exact Hs|reflexivity].
Qed.

(** Lines 40-143: the main connection prints the line of the seeding
    step, and nothing else. *)
Lemma provision_db_says l (d0 : database) :
  triple (fun s => on_disk s = d0 /\ says L l s) (provision_db e)
    (fun _ => says L (l ++ [seed_line e d0])) (fun _ _ => True).
Proof.
  pose proof (says_kept_by_upd l) as Hu.
  unfold provision_db.
  eapply triple_seq.
  { apply (triple_frame _ (says L l) _ _ _ (connect_triple e at_connect d0)).
    apply keeps_connect. exact Hu. }
  { intros x s _. exact I. }
  intros c.
  eapply triple_seq.
  { eapply triple_conseq
      with (P := fun s => Conn c d0 None s /\ says L l s);
      [apply (triple_frame _ (says L l) _ _ _
                (execute_triple e at_pragma c PRAGMA_foreign_keys_ON d0
                   None));
       apply keeps_execute; intros; now apply Hu
      | intros s [[_ H1] H2]; auto
      | intros a s H; exact H
      | intros x s H; exact H ]. }
  { intros x s _. exact I. }
  intros r0.
  eapply triple_conseq
    with (P := fun s => exists d0',
                 stmt e at_pragma PRAGMA_foreign_keys_ON d0 = Ok (d0', r0)
                 /\ (Conn c d0' None s /\ says L l s))
         (Q := fun _ => says L (l ++ [seed_line e d0]))
         (E := fun _ _ => True);
    [ | intros s [(d' & H1 & H2) H3]; exists d'; auto
      | intros u s H; exact H | auto ].
  apply triple_exists. intros d0'. apply triple_pure. intros H0.
  assert (T0 : rows_of (todos d0') = rows_of (todos d0))
    by (eapply ddl_keeps_todos; [|exact H0]; exact I).
  change (create_schema e c) with (run_all e c schema_stmts).
  eapply triple_seq.
  { apply (triple_frame _ (says L l) _ _ _
             (run_all_auto e (fun _ => True) schema_stmts c d0'
                (schema_stmts_auto)
                ltac:(repeat first [apply List.Forall_nil
                                   |apply List.Forall_cons]; auto) I)).
    unfold schema_stmts, run_all. keeps_tac; intros; now apply Hu. }
  { intros x s _. exact I. }
  intros u1.
  eapply triple_conseq
    with (P := fun s => exists d1,
                 stmts e schema_stmts d0' = Ok d1
                 /\ (Conn c d1 None s /\ says L l s))
         (Q := fun _ => says L (l ++ [seed_line e d0]))
         (E := fun _ _ => True);
    [ | intros s [(d' & H1 & H2) H3]; exists d'; auto
      | intros u s H; exact H | auto ].
  apply triple_exists. intros d1. apply triple_pure. intros H1.
  assert (T1 : rows_of (todos d1) = rows_of (todos d0)).
  { rewrite <- T0. eapply stmts_keep_todos; [|exact H1]. repeat constructor. }
  change (upsert_app_info e c) with (run_all e c upsert_stmts).
  eapply triple_seq.
  { apply (triple_frame _ (says L l) _ _ _
             (run_all_begin e at_upsert_project_name
                (INSERT_OR_REPLACE_INTO_app_info "project_name" "database")
                _ c d1 eq_refl)).
    unfold run_all. keeps_tac; intros; now apply Hu. }
  { intros x s _. exact I. }
  intros u2.
  eapply triple_conseq
    with (P := fun s => exists d2,
                 stmts e upsert_stmts d1 = Ok d2
                 /\ (Conn c d1 (Some d2) s /\ says L l s))
         (Q := fun _ => says L (l ++ [seed_line e d0]))
         (E := fun _ _ => True);
    [ | intros s [(d' & H2 & H3) H4]; exists d'; auto
      | intros u s H; exact H | auto ].
  apply triple_exists. intros d2. apply triple_pure. intros H2.
  assert (T2 : rows_of (todos d2) = rows_of (todos d0)).
  { rewrite <- T1. eapply stmts_keep_todos; [|exact H2]. repeat constructor. }
  eapply triple_seq; [apply (seed_todos_says l c d1 d2)|auto|].
  intros u3.
  assert (Hl : seed_line e d2 = seed_line e d0)
    by (unfold seed_line; now rewrite T2).
  rewrite Hl.
  assert (K : keeps (says L (l ++ [seed_line e d0])) (commit_and_count e c)).
  { pose proof (says_kept_by_upd (l ++ [seed_line e d0])) as Hu'.
    unfold commit_and_count. keeps_tac; intros; now apply Hu'. }
  eapply triple_conseq; [apply K| | |]; auto.
Qed.

End SaysDb.

Section SaysRun.
Import Sqlite Script.
Context (e : environ).

(** The whole script: its output and the database it leaves. *)
Lemma main_says (dk : option database) (dirs0 : gset string) :
  triple (fun s => disk s = dk /\ dirs s = dirs0 /\ stdout s = []) (main e)
    (fun _ s' =>
       exists d,
         disk s' = Some d
         /\ stdout s'
            = output_of e {| m_disk := dk; m_files := ∅; m_dirs := dirs0 |} d)
    (fun _ _ => True).
Proof.
  set (d0 := default empty_db dk).
  set (l1 := ([] ++ ["Starting SQLite setup..."])%list).
  set (l2 := (l1 ++ probe_lines e (is_some dk))%list).
  set (l3 := (l2 ++ [seed_line e d0])%list).
  set (l4 := (l3 ++ artifact_lines e
                      (bool_decide ("db_visualizer" ∈ dirs0)))%list).
  unfold main.
  eapply triple_bind
    with (R := fun _ s => (disk s = dk /\ says [] l1 s)
                          /\ (on_disk s = d0 /\ dirs s = dirs0)).
  { apply triple_print. intros s (Hd & Hs & Ho). unfold says, on_disk.
    simpl. rewrite Hd, Ho. auto. }
  intros u.
  eapply triple_seq
    with (R := fun _ s => (on_disk s = d0 /\ says [] l2 s)
                          /\ dirs s = dirs0)
         (E1 := fun _ _ => True); [| auto |].
  { eapply triple_conseq.
    - apply triple_both; [apply (probe_says e [] l1 dk)|].
      apply triple_both; [apply (probe_triple e d0)|].
      assert (K : keeps (fun s => dirs s = dirs0) (probe e))
        by (unfold probe; keeps_tac; auto).
      exact K.
    - intros s H. exact H.
    - intros a s (H1 & H2 & H3). auto.
    - auto. }
  intros v.
  eapply triple_seq
    with (R := fun counts s =>
            exists d, counts = stats d
                      /\ (says [] l3 s /\ dirs s = dirs0)
                      /\ disk s = Some d)
         (E1 := fun _ _ => True); [| auto |].
  { eapply triple_conseq.
    - apply triple_both; [apply (provision_db_says e [] l2 d0)|].
      apply triple_both; [apply (provision_db_full e d0)|].
      apply (provision_db_keeps e (fun s => dirs s = dirs0)); auto.
    - intros s [[H1 H2] H3]. auto.
    - intros counts s (H1 & (d & H2 & H3 & H4) & H5). exists d. auto.
    - auto. }
  intros counts. apply triple_exists. intros d. apply triple_pure. intros ->.
  eapply triple_seq
    with (R := fun r s =>
            r = (cwd e +:+ "/" +:+ DB_NAME,
                 "sqlite:///" +:+ cwd e +:+ "/" +:+ DB_NAME)
            /\ says [] l4 s /\ disk s = Some d)
         (E1 := fun _ _ => True); [| auto |].
  { eapply triple_conseq.
    - apply triple_both; [apply (write_artifacts_says e [] l3 dirs0)|].
      apply (write_artifacts_triple e (fun s => disk s = Some d)); auto.
    - intros s H. exact H.
    - intros r s ([H1 H2] & H3). auto.
    - auto. }
  intros [db_abs_path connection_string]. apply triple_pure.
  intros [= -> ->].
  eapply triple_conseq.
  - apply triple_both; [apply (report_says e [] l4)|].
    apply (report_triple e (fun s => disk s = Some d)); auto.
  - intros s H. exact H.
  - intros a s [H1 H2]. exists d. split; [exact H2|].
    rewrite H1. unfold output_of, l4, l3, l2, l1, db_of, d0.
    cbn [m_disk m_dirs app]. now rewrite <- !app_assoc.
  - auto.
Qed.

End SaysRun.

(** X16: the output of a run that exits normally, line by line:
    the opening line; the lines of the probe (that the file exists, then
    that it works or the warning with the exception of the first probe
    call that failed; or that a new database is created); the one line of
    the seeding step (seeded, skipped because todos has data, or not
    enabled); one line per file (saved, or the warning with the
    exception), with the line about db_visualizer between them when the
    directory was made; and the report, with the numbers of the database
    left in the file, the hint about the command-line client when
    [which] found it, and the closing line. *)
Theorem X16_output_line_by_line (e : Script.environ) (m : Script.machine) :
  Script.exit (Script.run e m) = Ok tt ->
  Script.printed (Script.run e m)
  = output_of e m (db_of (Script.after (Script.run e m))).
Proof.
  pose proof (main_says e (Script.m_disk m) (Script.m_dirs m)
                (Script.boot m) (conj eq_refl (conj eq_refl eq_refl))) as H.
  unfold Script.run.
  destruct (Script.main e (Script.boot m)) as [[[]|x] s']; simpl;
    [|discriminate].
  intros _. destruct H as (d & Hd & Hs). rewrite Hs.
  unfold db_of. simpl. rewrite Hd. reflexivity.
Qed.

Lemma X16_witness :
  Script.printed (Script.run Examples.rough Examples.stale)
  = output_of Examples.rough Examples.stale
      (db_of (Script.after (Script.run Examples.rough Examples.stale))).
Proof.
  apply (X16_output_line_by_line Examples.rough Examples.stale).
  vm_compute. reflexivity.
Defined.

(* ===================================================================== *)
(** ** The calls on connections, one by one *)
(* ===================================================================== *)

Section Moves.
Import Sqlite Script.
Context (e : environ).
Implicit Types (P : sys -> Prop).

(** [conn.commit()] takes [P] to [P'] as soon as logging the call and
    updating file and connections does, whether it returns or raises. *)
Lemma commit_moves P (P' : sys -> Prop) (st : site) (c : nat) :
  (forall d l s, P s -> length l = length (conns s) ->
                 P' (upd_db d l (Commit c) s)) ->
  triple P (conn_commit e st c) (fun _ => P') (fun _ => P').
Proof.
  intros H s Hs.
  assert (H0 : P' (log (Commit c) s))
    by (apply (H (disk s) (conns s) s Hs eq_refl)).
  unfold conn_commit.
  change ((act ?f ≫= ?g) s) with (bind (act f) g s).
  unfold bind, act at 1.
  change ((may_fail e st ≫= ?g) ?s1) with (bind (may_fail e st) g s1).
  unfold bind, may_fail.
  destruct (fault e st) as [x|]; [exact H0|]. unfold act. cbn [ret mret M_ret].
  change (conns (log (Commit c) s)) with (conns s).
  destruct (conns s !! c) as [k|]; [|exact H0].
  destruct (negb (is_open k)); [exact H0|].
  destruct (txn k) as [d|]; [|exact H0].
  apply (H (Some d) (<[c:={| is_open := true; foreign_keys := foreign_keys k;
                              txn := None |}]> (conns s)) s Hs).
  apply length_insert.
Qed.

Lemma close_moves P (P' : sys -> Prop) (st : site) (c : nat) :
  (forall d l s, P s -> length l = length (conns s) ->
                 P' (upd_db d l (Close c) s)) ->
  triple P (conn_close e st c) (fun _ => P') (fun _ => P').
Proof.
  intros H s Hs.
  assert (H0 : P' (log (Close c) s))
    by (apply (H (disk s) (conns s) s Hs eq_refl)).
  unfold conn_close.
  change ((act ?f ≫= ?g) s) with (bind (act f) g s).
  unfold bind, act at 1.
  change ((may_fail e st ≫= ?g) ?s1) with (bind (may_fail e st) g s1).
  unfold bind, may_fail.
  destruct (fault e st) as [x|]; [exact H0|]. unfold act. cbn [ret mret M_ret].
  change (conns (log (Close c) s)) with (conns s).
  destruct (conns s !! c) as [k|]; [|exact H0].
  apply (H (disk s) (<[c:={| is_open := false; foreign_keys := foreign_keys k;
                              txn := None |}]> (conns s)) s Hs).
  apply length_insert.
Qed.

Lemma calls_upd (T : list event) (n : nat) (ev : event)
    (d : option database) (l : list connection) (s : sys) :
  calls_are T n s -> length l = length (conns s) ->
  calls_are (T ++ [ev]) n (upd_db d l ev s).
Proof.
  intros [Ht Hn] Hl. split; simpl; [now rewrite Ht|congruence].
Qed.

(** Each call on a connection is logged, whether it returns or raises. *)
Lemma execute_calls (T : list event) (n : nat) (st : site) (c : nat)
    (q : sql) :
  triple (calls_are T n) (execute e st c q)
    (fun _ => calls_are (T ++ [Execute c q]) n)
    (fun _ => calls_are (T ++ [Execute c q]) n).
Proof. apply execute_moves. intros. now apply calls_upd. Qed.

Lemma commit_calls (T : list event) (n : nat) (st : site) (c : nat) :
  triple (calls_are T n) (conn_commit e st c)
    (fun _ => calls_are (T ++ [Commit c]) n)
    (fun _ => calls_are (T ++ [Commit c]) n).
Proof. apply commit_moves. intros. now apply calls_upd. Qed.

Lemma close_calls (T : list event) (n : nat) (st : site) (c : nat) :
  triple (calls_are T n) (conn_close e st c)
    (fun _ => calls_are (T ++ [Close c]) n)
    (fun _ => calls_are (T ++ [Close c]) n).
Proof. apply close_moves. intros. now apply calls_upd. Qed.

(** [sqlite3.connect] hands out the next handle, or raises and does
    nothing. *)
Lemma connect_calls (T : list event) (n : nat) (st : site) :
  triple (calls_are T n) (sqlite3_connect e st)
    (fun c s => c = n /\ calls_are (T ++ [Connect n]) (S n) s)
    (fun _ => calls_are T n).
Proof.
  apply connect_moves. intros s [Ht Hn]. rewrite Hn.
  split; [reflexivity|]. split; simpl; [now rewrite Ht|].
  rewrite length_app, Hn. simpl. lia.
Qed.

Lemma calls_emit (T : list event) (n : nat) (l : string) (s : sys) :
  calls_are T n s -> calls_are T n (emit l s).
Proof. intros H. exact H. Qed.

(** A list of statements, all on connection [c]. *)
Lemma run_all_calls (l : list (site * sql)) (T : list event) (n c : nat) :
  triple (calls_are T n) (run_all e c l)
    (fun _ => calls_are (T ++ map (fun p => Execute c p.2) l) n)
    (fun _ _ => True).
Proof.
  revert T. induction l as [|[st q] l IH]; intros T; cbn [run_all map].
  - apply triple_ret. intros s H. now rewrite app_nil_r.
  - eapply triple_seq; [apply execute_calls|intros x s _; exact I|].
    intros r.
    eapply triple_conseq;
      [ apply (IH (T ++ [Execute c q])%list)
      | intros s H; exact H
      | intros u s H; rewrite <- app_assoc in H; exact H
      | auto ].
Qed.

(** The loop of the seeding step. *)
Lemma for_each_calls (l : list (string * string * Z)) (i : nat)
    (T : list event) (n c : nat) :
  triple (calls_are T n)
    (for_each l i
       (fun i '(title, description, completed) =>
          execute e (at_seed_insert i) c
            (INSERT_INTO_todos title description completed);;
          mret tt))
    (fun _ => calls_are
                (T ++ map (fun p => Execute c p.2) (seed_stmts_from i l)) n)
    (fun _ _ => True).
Proof.
  revert i T. induction l as [|[[title description] completed] l IH];
    intros i T; cbn [for_each seed_stmts_from map].
  - apply triple_ret. intros s H. now rewrite app_nil_r.
  - eapply triple_seq
      with (R := fun _ => calls_are
                   (T ++ [Execute c
                            (INSERT_INTO_todos title description completed)])
                   n)
           (E1 := fun _ _ => True).
    { eapply triple_seq;
        [ apply execute_calls
        | intros x s _; exact I
        | intros r; apply triple_ret; intros s H; exact H ]. }
    { auto. }
    intros u.
    eapply triple_conseq;
      [ apply (IH (S i)
                 (T ++ [Execute c
                          (INSERT_INTO_todos title description completed)])%list)
      | intros s H; exact H
      | intros v s H; rewrite <- app_assoc in H; exact H
      | auto ].
Qed.

End Moves.

Section CallsRun.
Import Sqlite Script.
Context (e : environ).

(** Lines 25-38: the calls of the probe. *)
Lemma probe_calls_triple (dk : option database) :
  triple (fun s => disk s = dk /\ calls_are [] 0 s) (probe e)
    (fun _ => calls_are (probe_calls e (is_some dk))
                (main_handle e (is_some dk)))
    (fun _ _ => False).
Proof.
  unfold probe, probe_calls, main_handle.
  eapply triple_bind
    with (R := fun b s => b = is_some dk /\ disk s = dk
                          /\ calls_are [] 0 s).
  { intros s [Hd Hs]. unfold db_file_exists. cbv beta iota.
    rewrite Hd. auto. }
  intros b. apply triple_pure. intros ->.
  destruct dk as [d0|]; cbn [is_some];
    [|apply triple_print; intros s [_ H]; exact H].
  eapply triple_bind
    with (R := fun _ s => on_disk s = d0 /\ calls_are [] 0 s).
  { apply triple_print. intros s [Hd Hs]. split; [|exact Hs].
    unfold on_disk. simpl. now rewrite Hd. }
  intros u.
  set (T1 := match fault e at_probe_connect with
             | Some _ => []
             | None =>
                 Connect 0 :: Execute 0 SELECT_1
                 :: match fault e at_probe_select with
                    | Some _ => []
                    | None => [Close 0]
                    end
             end).
  set (n1 := match fault e at_probe_connect with
             | Some _ => 0%nat
             | None => 1%nat
             end).
  eapply triple_try with (R := fun _ => calls_are T1 n1);
    [|intros x; apply triple_print; intros s H; exact H].
  eapply triple_seq.
  { apply (triple_both _ _ _ _ _ _ _
             (connect_triple e at_probe_connect d0)
             (connect_calls e [] 0 at_probe_connect)). }
  { intros x s [[H _] Hc]. unfold check in H. unfold T1, n1.
    destruct (fault e at_probe_connect); [exact Hc|discriminate]. }
  intros c.
  eapply triple_conseq
    with (P := fun s => (check e at_probe_connect = Ok tt /\ c = 0%nat)
                        /\ (Conn c d0 None s
                            /\ calls_are [Connect 0] 1 s))
         (Q := fun _ => calls_are T1 n1)
         (E := fun _ => calls_are T1 n1);
    [ | intros s [[H1 H2] [H3 H4]]; auto
      | intros a s H; exact H | intros x s H; exact H ].
  apply triple_pure. intros [Hc ->]. apply check_ok in Hc.
  unfold T1, n1. rewrite Hc. clear T1 n1.
  eapply triple_seq.
  { apply (triple_both _ _ _ _ _ _ _
             (execute_triple e at_probe_select 0 SELECT_1 d0 None)
             (execute_calls e [Connect 0] 1 at_probe_select 0 SELECT_1)). }
  { intros x s [[H _] Hs]. unfold stmt in H.
    destruct (fault e at_probe_select); [exact Hs|discriminate]. }
  intros r.
  eapply triple_conseq
    with (P := fun s => (exists d', stmt e at_probe_select SELECT_1 d0
                                    = Ok (d', r))
                        /\ calls_are [Connect 0; Execute 0 SELECT_1] 1 s)
         (Q := fun _ => calls_are
                  (Connect 0 :: Execute 0 SELECT_1
                   :: match fault e at_probe_select with
                      | Some _ => []
                      | None => [Close 0]
                      end) 1)
         (E := fun _ => calls_are
                  (Connect 0 :: Execute 0 SELECT_1
                   :: match fault e at_probe_select with
                      | Some _ => []
                      | None => [Close 0]
                      end) 1);
    [ | intros s [(d' & H1 & H2) H3]; eauto
      | intros a s H; exact H | intros x s H; exact H ].
  apply triple_pure. intros [d' H]. apply stmt_ok in H as [Hs _].
  rewrite Hs.
  eapply triple_bind; [apply close_calls|].
  intros v. apply triple_print. intros s H. exact H.
Qed.

(** Lines 109-128: the calls of the seeding step. *)
Lemma seed_todos_calls (T : list event) (n c : nat) (d dt : database) :
  triple (fun s => Conn c d (Some dt) s /\ calls_are T n s) (seed_todos e c)
    (fun _ => calls_are
                (T ++ if seed_flag e then
                        Execute c SELECT_COUNT_FROM_todos
                        :: (if (Z.of_nat (length (rows_of (todos dt)))
                                =? 0)%Z
                            then map (fun p => Execute c p.2) seed_stmts
                            else [])
                      else []) n)
    (fun _ _ => True).
Proof.
  unfold seed_todos. destruct (seed_flag e);
    [|apply triple_print; intros s [_ H]; now rewrite app_nil_r].
  eapply triple_seq.
  { apply (triple_both _ _ _ _ _ _ _
             (execute_triple e at_seed_count c SELECT_COUNT_FROM_todos d
                (Some dt))
             (execute_calls e T n at_seed_count c SELECT_COUNT_FROM_todos)). }
  { intros x s _. exact I. }
  intros r.
  eapply triple_conseq
    with (P := fun s => (exists d',
                 stmt e at_seed_count SELECT_COUNT_FROM_todos dt
                 = Ok (d', r))
                 /\ calls_are (T ++ [Execute c SELECT_COUNT_FROM_todos]) n s)
         (Q := fun _ => calls_are
                  (T ++ Execute c SELECT_COUNT_FROM_todos
                     :: (if (Z.of_nat (length (rows_of (todos dt))) =? 0)%Z
                         then map (fun p => Execute c p.2) seed_stmts
                         else [])) n)
         (E := fun _ _ => True);
    [ | intros s [(d' & H1 & H2) H3]; eauto
      | intros u s H; exact H | auto ].
  apply triple_pure. intros [d' H].
  destruct (count_todos_result e _ _ _ _ H) as [-> ->].
  apply triple_ret_bind.
  destruct (Z.of_nat (length (rows_of (todos dt))) =? 0)%Z.
  - eapply triple_seq;
      [apply (for_each_calls e sample_todos 0)|intros x s _; exact I|].
    intros u. apply triple_print. intros s Hs. unfold seed_stmts.
    rewrite <- app_assoc in Hs. exact Hs.
  - apply triple_print. intros s Hs. exact Hs.
Qed.

(** Lines 130-143: from the commit to the close. *)
Lemma commit_and_count_calls (T : list event) (n c : nat) :
  triple (calls_are T n) (commit_and_count e c)
    (fun _ => calls_are
                (T ++ Commit c :: map (fun p => Execute c p.2) stat_stmts
                   ++ [Close c]) n)
    (fun _ _ => True).
Proof.
  unfold commit_and_count.
  eapply triple_seq; [apply commit_calls|intros x s _; exact I|]. intros u.
  do 3 (eapply triple_seq; [apply execute_calls|intros x s _; exact I|];
        intros ?;
        eapply triple_seq;
          [apply keeps_fetchone_0|intros x s _; exact I|]; intros ?).
  eapply triple_seq; [apply close_calls|intros x s _; exact I|]. intros v.
  apply triple_ret. intros s H. rewrite <- !app_assoc in H. exact H.
Qed.

(** Lines 40-143: the calls on the main connection. *)
Lemma provision_db_calls (T : list event) (n : nat) (d0 : database) :
  triple (fun s => on_disk s = d0 /\ calls_are T n s) (provision_db e)
    (fun _ => calls_are (T ++ main_calls e n d0) (S n)) (fun _ _ => True).
Proof.
  unfold provision_db.
  eapply triple_seq.
  { apply (triple_both _ _ _ _ _ _ _ (connect_triple e at_connect d0)
             (connect_calls e T n at_connect)). }
  { intros x s _. exact I. }
  intros c.
  set (T1 := (T ++ [Connect n])%list).
  eapply triple_conseq
    with (P := fun s => c = n /\ (Conn c d0 None s /\ calls_are T1 (S n) s))
         (Q := fun _ => calls_are (T ++ main_calls e n d0) (S n))
         (E := fun _ _ => True);
    [ | intros s [[H1 H2] [H3 H4]]; auto
      | intros u s H; exact H | auto ].
  apply triple_pure. intros ->.
  eapply triple_seq.
  { apply (triple_both _ _ _ _ _ _ _
             (execute_triple e at_pragma n PRAGMA_foreign_keys_ON d0 None)
             (execute_calls e T1 (S n) at_pragma n PRAGMA_foreign_keys_ON)). }
  { intros x s _. exact I. }
  intros r0.
  set (T2 := (T1 ++ [Execute n PRAGMA_foreign_keys_ON])%list).
  eapply triple_conseq
    with (P := fun s => exists d0',
                 stmt e at_pragma PRAGMA_foreign_keys_ON d0 = Ok (d0', r0)
                 /\ (Conn n d0' None s /\ calls_are T2 (S n) s))
         (Q := fun _ => calls_are (T ++ main_calls e n d0) (S n))
         (E := fun _ _ => True);
    [ | intros s [(d' & H1 & H2) H3]; exists d'; auto
      | intros u s H; exact H | auto ].
  apply triple_exists. intros d0'. apply triple_pure. intros H0.
  assert (T0 : rows_of (todos d0') = rows_of (todos d0))
    by (eapply ddl_keeps_todos; [|exact H0]; exact I).
  change (create_schema e n) with (run_all e n schema_stmts).
  eapply triple_seq.
  { apply (triple_both _ _ _ _ _ _ _
             (run_all_auto e (fun _ => True) schema_stmts n d0'
                (schema_stmts_auto)
                ltac:(repeat first [apply List.Forall_nil
                                   |apply List.Forall_cons]; auto) I)
             (run_all_calls e schema_stmts T2 (S n) n)). }
  { intros x s _. exact I. }
  intros u1.
  set (T3 := (T2 ++ map (fun p : site * sql => Execute n p.2)
                      schema_stmts)%list).
  eapply triple_conseq
    with (P := fun s => exists d1,
                 stmts e schema_stmts d0' = Ok d1
                 /\ (Conn n d1 None s /\ calls_are T3 (S n) s))
         (Q := fun _ => calls_are (T ++ main_calls e n d0) (S n))
         (E := fun _ _ => True);
    [ | intros s [(d' & H1 & H2) H3]; exists d'; auto
      | intros u s H; exact H | auto ].
  apply triple_exists. intros d1. apply triple_pure. intros H1.
  assert (T1' : rows_of (todos d1) = rows_of (todos d0)).
  { rewrite <- T0. eapply stmts_keep_todos; [|exact H1]. repeat constructor. }
  change (upsert_app_info e n) with (run_all e n upsert_stmts).
  eapply triple_seq.
  { apply (triple_both _ _ _ _ _ _ _
             (run_all_begin e at_upsert_project_name
                (INSERT_OR_REPLACE_INTO_app_info "project_name" "database")
                _ n d1 eq_refl)
             (run_all_calls e upsert_stmts T3 (S n) n)). }
  { intros x s _. exact I. }
  intros u2.
  set (T4 := (T3 ++ map (fun p : site * sql => Execute n p.2)
                      upsert_stmts)%list).
  eapply triple_conseq
    with (P := fun s => exists d2,
                 stmts e upsert_stmts d1 = Ok d2
                 /\ (Conn n d1 (Some d2) s /\ calls_are T4 (S n) s))
         (Q := fun _ => calls_are (T ++ main_calls e n d0) (S n))
         (E := fun _ _ => True);
    [ | intros s [(d' & H2 & H3) H4]; exists d'; auto
      | intros u s H; exact H | auto ].
  apply triple_exists. intros d2. apply triple_pure. intros H2.
  assert (T2' : rows_of (todos d2) = rows_of (todos d0)).
  { rewrite <- T1'. eapply stmts_keep_todos; [|exact H2].
    repeat constructor. }
  eapply triple_seq;
    [apply (seed_todos_calls T4 (S n) n d1 d2)|intros x s _; exact I|].
  intros u3. rewrite T2'.
  eapply triple_conseq;
    [ apply commit_and_count_calls
    | intros s H; exact H
    | | auto ].
  intros counts s H. unfold main_calls.
  unfold T4, T3, T2, T1 in H. rewrite !map_app.
  rewrite <- !app_assoc in H. rewrite <- !app_assoc. exact H.
Qed.

(** The whole script: its calls on connections. *)
Lemma main_calls_triple (dk : option database) :
  triple (fun s => disk s = dk /\ calls_are [] 0 s) (main e)
    (fun _ s' =>
       trace s'
       = (probe_calls e (is_some dk)
          ++ main_calls e (main_handle e (is_some dk))
               (default empty_db dk))%list)
    (fun _ _ => True).
Proof.
  set (d0 := default empty_db dk).
  unfold main.
  eapply triple_bind
    with (R := fun _ s => (disk s = dk /\ calls_are [] 0 s)
                          /\ on_disk s = d0).
  { apply triple_print. intros s [Hd Hs]. unfold on_disk. simpl.
    rewrite Hd. auto. }
  intros u.
  eapply triple_seq
    with (R := fun _ s =>
            on_disk s = d0
            /\ calls_are (probe_calls e (is_some dk))
                 (main_handle e (is_some dk)) s)
         (E1 := fun _ _ => True); [| auto |].
  { eapply triple_conseq.
    - apply triple_both; [apply (probe_calls_triple dk)|].
      apply (probe_triple e d0).
    - intros s H. exact H.
    - intros a s [H1 H2]. auto.
    - auto. }
  intros v.
  eapply triple_seq
    with (R := fun _ s =>
            trace s
            = (probe_calls e (is_some dk)
               ++ main_calls e (main_handle e (is_some dk)) d0)%list)
         (E1 := fun _ _ => True); [| auto |].
  { eapply triple_conseq;
      [ apply (provision_db_calls (probe_calls e (is_some dk))
                 (main_handle e (is_some dk)) d0)
      | intros s H; exact H
      | intros a s [H _]; exact H
      | auto ]. }
  intros counts.
  assert (He : forall T l s, trace s = T -> trace (emit l s) = T)
    by (intros T l s H; exact H).
  eapply triple_seq
    with (R := fun _ s =>
            trace s
            = (probe_calls e (is_some dk)
               ++ main_calls e (main_handle e (is_some dk)) d0)%list)
         (E1 := fun _ _ => True); [| auto |].
  { eapply triple_conseq;
      [apply (write_artifacts_triple e
                (fun s => trace s
                          = (probe_calls e (is_some dk)
                             ++ main_calls e (main_handle e (is_some dk))
                                  d0)%list)) | | |]; auto. }
  intros [db_abs_path connection_string].
  eapply triple_conseq;
    [apply (report_triple e
              (fun s => trace s
                        = (probe_calls e (is_some dk)
                           ++ main_calls e (main_handle e (is_some dk))
                                d0)%list)) | | |]; auto.
Qed.

End CallsRun.

(** X17: the calls a run that exits normally makes on connections, one by
    one.  When the file exists the probe connects, sends [SELECT 1] and
    closes; when its connect raises it makes no call, and when its SELECT
    raises its connection is never closed.  The main connection then
    sends the pragma, the four CREATE and the four REPLACE statements,
    the count and the three INSERTs of the seeding step as the toggle
    and the table have it, commits once, sends its three count queries
    and is closed. *)
Theorem X17_calls_one_by_one (e : Script.environ) (m : Script.machine) :
  Script.exit (Script.run e m) = Ok tt ->
  Script.calls (Script.run e m)
  = (probe_calls e (is_some (Script.m_disk m))
     ++ main_calls e (main_handle e (is_some (Script.m_disk m)))
          (db_of m))%list.
Proof.
  pose proof (main_calls_triple e (Script.m_disk m) (Script.boot m)
                (conj eq_refl (conj eq_refl eq_refl))) as H.
  unfold Script.run.
  destruct (Script.main e (Script.boot m)) as [[[]|x] s']; simpl;
    [|discriminate].
  intros _. exact H.
Qed.

Lemma X17_witness :
  Script.calls (Script.run Examples.rough Examples.stale)
  = (probe_calls Examples.rough (is_some (Script.m_disk Examples.stale))
     ++ main_calls Examples.rough
          (main_handle Examples.rough
             (is_some (Script.m_disk Examples.stale)))
          (db_of Examples.stale))%list.
Proof.
  apply (X17_calls_one_by_one Examples.rough Examples.stale).
  vm_compute. reflexivity.
Defined.
